(** * torchtuples: the nested [Tuple] container and the training loop

    A shallow embedding of [pyth/tuple.py] (the nested container and its
    recursive operations) and of [pyth/base.py] (the fit loop and the
    assembly of the callback list), with the properties stated about them.

    Python values are modelled by the inductive [value]; a Python call that
    may raise is a computation in the error monad [result]; the training
    loop, which mutates the model and its callbacks, is a computation in a
    state-and-error monad over an explicit [fit_state]. *)

From Stdlib Require Import List ZArith Bool String Ascii Lia Arith.
From Stdlib Require Import DecimalString DecimalNat FinFun.
From Equations Require Import Equations.
Import ListNotations.
Local Open Scope string_scope.
Local Open Scope Z_scope.
Local Open Scope list_scope.

(** String concatenation; [++] is kept for lists. *)
Infix "+++" := String.append (right associativity, at level 60).

Set Implicit Arguments.

(* ===================================================================== *)
(** ** Exceptions and the error monad *)
(* ===================================================================== *)

Inductive exn_class : Type :=
| NotImplementedError
| ValueError
| RuntimeError
| TypeError
| AttributeError
| IndexError
| StopIteration
| AssertionError.

(** An exception instance: its class and its message. *)
Inductive exn : Type :=
| Exn (cls : exn_class) (msg : string).

Inductive result (A : Type) : Type :=
| Ok (a : A)
| Raise (e : exn).
Arguments Ok {A} a.
Arguments Raise {A} e.

Definition bind {A B : Type} (m : result A) (k : A -> result B) : result B :=
  match m with
  | Ok a => k a
  | Raise e => Raise e
  end.

Declare Scope result_scope.
Delimit Scope result_scope with result.
Notation "x <- m ;; k" := (bind m (fun x => k))
  (at level 61, m at next level, right associativity) : result_scope.
Notation "m ;;; k" := (bind m (fun _ => k))
  (at level 61, right associativity) : result_scope.
Local Open Scope result_scope.

(** A sequence built from left to right: the first exception stops it. *)
Section MapM.
Context {A B : Type} (f : A -> result B).

Fixpoint mapM (l : list A) : result (list B) :=
  match l with
  | [] => Ok []
  | x :: r => y <- f x ;; ys <- mapM r ;; Ok (y :: ys)
  end.
End MapM.

(** What a generator expression does with an exception raised while it
    is consumed: a StopIteration that escapes the body of a generator is
    replaced by a RuntimeError, every other exception passes. *)
Definition generator_error (e : exn) : exn :=
  match e with
  | Exn StopIteration _ => Exn RuntimeError "generator raised StopIteration"
  | _ => e
  end.

Definition in_generator {A : Type} (r : result A) : result A :=
  match r with
  | Ok a => Ok a
  | Raise e => Raise (generator_error e)
  end.

(** The builtin [all]: stops at the first falsy element. *)
Section AllM.
Context {A : Type} (truth : A -> result bool).

Fixpoint allM (l : list A) : result bool :=
  match l with
  | [] => Ok true
  | x :: r => b <- truth x ;; if b then allM r else Ok false
  end.
End AllM.

(* ===================================================================== *)
(** ** Python values *)
(* ===================================================================== *)

(** The runtime classes that the code tests with [type(x) is ...] or
    [type(x) in ...]. *)
Inductive pytype : Type :=
| TyTuple          (* the package's Tuple, a subclass of tuple *)
| TyList           (* builtin list *)
| TyBuiltinTuple   (* builtin tuple *)
| TySize           (* torch.Size, a subclass of tuple *)
| TyInt
| TyBool
| TyType
| TyTensor         (* torch.Tensor *)
| TyNdarray        (* np.ndarray *)
| TyException (c : exn_class)
| TyObject (cls : string).

(** A numeric array as far as this code looks at it: element type, shape,
    and the elements in row-major order. *)
Record array : Type := MkArray {
  dtype : string;
  shape : list Z;
  items : list Z
}.

#[local] Unset Elimination Schemes.
Inductive value : Type :=
| Tuple (xs : list value)       (* the package's Tuple *)
| PyList (xs : list value)
| PyTuple (xs : list value)
| TorchSize (xs : list value)
| PyInt (z : Z)
| PyBool (b : bool)
| PyType (t : pytype)
| PyExc (e : exn)               (* an exception instance, as a value *)
| Tensor (a : array)
| Ndarray (a : array)
| Obj (cls : string) (id : nat) (* any other object, opaque *).
#[local] Set Elimination Schemes.

(** Induction over [value] that reaches the elements of the sequences. *)
Section ValueInd.
Variable P : value -> Prop.
Hypothesis HTuple : forall xs, Forall P xs -> P (Tuple xs).
Hypothesis HList : forall xs, Forall P xs -> P (PyList xs).
Hypothesis HPyTuple : forall xs, Forall P xs -> P (PyTuple xs).
Hypothesis HSize : forall xs, Forall P xs -> P (TorchSize xs).
Hypothesis HInt : forall z, P (PyInt z).
Hypothesis HBool : forall b, P (PyBool b).
Hypothesis HType : forall t, P (PyType t).
Hypothesis HExc : forall e, P (PyExc e).
Hypothesis HTensor : forall a, P (Tensor a).
Hypothesis HNdarray : forall a, P (Ndarray a).
Hypothesis HObj : forall c i, P (Obj c i).

Fixpoint value_ind_nested (v : value) : P v :=
  let all := fix all (l : list value) : Forall P l :=
    match l with
    | [] => Forall_nil P
    | x :: r => Forall_cons x (value_ind_nested x) (all r)
    end in
  match v with
  | Tuple xs => HTuple (all xs)
  | PyList xs => HList (all xs)
  | PyTuple xs => HPyTuple (all xs)
  | TorchSize xs => HSize (all xs)
  | PyInt z => HInt z
  | PyBool b => HBool b
  | PyType t => HType t
  | PyExc e => HExc e
  | Tensor a => HTensor a
  | Ndarray a => HNdarray a
  | Obj c i => HObj c i
  end.
End ValueInd.

Definition exn_cls (e : exn) : exn_class :=
  match e with Exn c _ => c end.

(** [type(v)] *)
Definition type_ (v : value) : pytype :=
  match v with
  | Tuple _ => TyTuple
  | PyList _ => TyList
  | PyTuple _ => TyBuiltinTuple
  | TorchSize _ => TySize
  | PyInt _ => TyInt
  | PyBool _ => TyBool
  | PyType _ => TyType
  | PyExc e => TyException (exn_cls e)
  | Tensor _ => TyTensor
  | Ndarray _ => TyNdarray
  | Obj c _ => TyObject c
  end.

Definition exn_class_eqb (a b : exn_class) : bool :=
  match a, b with
  | NotImplementedError, NotImplementedError
  | ValueError, ValueError
  | RuntimeError, RuntimeError
  | TypeError, TypeError
  | AttributeError, AttributeError
  | IndexError, IndexError
  | StopIteration, StopIteration
  | AssertionError, AssertionError => true
  | _, _ => false
  end.

(** Classes are compared by identity. *)
Definition pytype_eqb (a b : pytype) : bool :=
  match a, b with
  | TyTuple, TyTuple
  | TyList, TyList
  | TyBuiltinTuple, TyBuiltinTuple
  | TySize, TySize
  | TyInt, TyInt
  | TyBool, TyBool
  | TyType, TyType
  | TyTensor, TyTensor
  | TyNdarray, TyNdarray => true
  | TyException c, TyException d => exn_class_eqb c d
  | TyObject c, TyObject d => String.eqb c d
  | _, _ => false
  end.

(** [t in types] for a sequence of classes. *)
Definition in_types (t : pytype) (types : list pytype) : bool :=
  existsb (pytype_eqb t) types.

(** [repr] of a class, as an f-string prints it. *)
Definition exn_class_name (c : exn_class) : string :=
  match c with
  | NotImplementedError => "NotImplementedError"
  | ValueError => "ValueError"
  | RuntimeError => "RuntimeError"
  | TypeError => "TypeError"
  | AttributeError => "AttributeError"
  | IndexError => "IndexError"
  | StopIteration => "StopIteration"
  | AssertionError => "AssertionError"
  end.

Definition type_name (t : pytype) : string :=
  match t with
  | TyTuple => "pyth.tuple.Tuple"
  | TyList => "list"
  | TyBuiltinTuple => "tuple"
  | TySize => "torch.Size"
  | TyInt => "int"
  | TyBool => "bool"
  | TyType => "type"
  | TyTensor => "torch.Tensor"
  | TyNdarray => "numpy.ndarray"
  | TyException c => exn_class_name c
  | TyObject c => c
  end.

Definition type_repr (t : pytype) : string :=
  "<class '" +++ type_name t +++ "'>".

(** The name of a class as the messages of the interpreter's own errors
    print it: the classes defined in Python by their short name. *)
Definition tp_name (t : pytype) : string :=
  match t with
  | TyTuple => "Tuple"
  | TyTensor => "Tensor"
  | _ => type_name t
  end.

(** The tuple of classes that the recursive operations descend into:
    [_CONTAINERS = (Tuple,)]. *)
Definition CONTAINERS : list pytype := [TyTuple].

(* ===================================================================== *)
(** ** What the array libraries and opaque objects do

    [torch], [numpy] and the objects stored in the leaves are not part of the
    package. Their operations are taken as parameters. *)
(* ===================================================================== *)

Inductive subscript : Type :=
| Index (i : nat)        (* x[i] *)
| SliceFrom (i : nat)    (* x[i:] *).

Class Backend : Type := {
  leaf_eq : value -> value -> result value;        (* x == y on arrays and objects *)
  leaf_truth : value -> result bool;               (* bool(x) *)
  leaf_iter : value -> result (list value);        (* list(iter(x)) *)
  leaf_subscript : value -> subscript -> result value;
  torch_cat : value -> result value;               (* torch.cat(tensors) *)
  np_concatenate : value -> result value;          (* np.concatenate(arrays) *)
  tensor_type : array -> value -> result value;    (* tensor.type(dtype) *)
  ndarray_astype : array -> value -> result value  (* array.astype(dtype) *)
}.

(** Arrays, tensors, exception instances and opaque objects: their [==]
    is their own (elementwise, or by identity). *)
Definition is_leaf_object (v : value) : bool :=
  match v with
  | Tensor _ | Ndarray _ | PyExc _ | Obj _ _ => true
  | _ => false
  end.

Definition not_iterable (v : value) : exn :=
  Exn TypeError ("'" +++ tp_name (type_ v) +++ "' object is not iterable").

Definition not_subscriptable (v : value) : exn :=
  Exn TypeError ("'" +++ tp_name (type_ v) +++ "' object is not subscriptable").

(** The AttributeError of an instance, and of a class object. *)
Definition no_attribute (v : value) (name : string) : exn :=
  Exn AttributeError
      (match v with
       | PyType t => "type object '" +++ tp_name t +++ "'"
       | _ => "'" +++ tp_name (type_ v) +++ "' object"
       end +++ " has no attribute '" +++ name +++ "'").

Section Builtins.
Context {B : Backend}.

(** [bool(v)] *)
Definition truthy (v : value) : result bool :=
  match v with
  | PyBool b => Ok b
  | PyInt z => Ok (negb (z =? 0))
  | Tuple xs | PyList xs | PyTuple xs | TorchSize xs =>
      Ok (negb (Nat.eqb (List.length xs) 0))
  | PyType _ | PyExc _ => Ok true
  | Tensor _ | Ndarray _ | Obj _ _ => leaf_truth v
  end.

(** [bool(x == y)], as the comparison of sequences and [count] use it.
    Tuples (and their subclasses) compare element by element and then by
    length; lists compare lengths first; a list never equals a tuple.
    Object identity is not part of the model: where Python would answer by
    the identity of two leaf objects, the comparison is the backend's. On
    integers, booleans, classes and sequences of them, which is where the
    module compares (levels, shapes, types), identity changes nothing. *)
Fixpoint eq_bool (x y : value) {struct x} : result bool :=
  let seq_eq :=
    fix seq_eq (xs ys : list value) {struct xs} : result bool :=
      match xs, ys with
      | [], [] => Ok true
      | a :: xs', b :: ys' =>
          c <- eq_bool a b ;; if c then seq_eq xs' ys' else Ok false
      | _, _ => Ok false
      end in
  if is_leaf_object y then r <- leaf_eq x y ;; truthy r else
  match x with
  | Tuple xs | PyTuple xs | TorchSize xs =>
      match y with
      | Tuple ys | PyTuple ys | TorchSize ys => seq_eq xs ys
      | _ => Ok false
      end
  | PyList xs =>
      match y with
      | PyList ys =>
          if Nat.eqb (List.length xs) (List.length ys) then seq_eq xs ys else Ok false
      | _ => Ok false
      end
  | PyInt a =>
      match y with
      | PyInt b => Ok (a =? b)
      | PyBool b => Ok (a =? Z.b2z b)
      | _ => Ok false
      end
  | PyBool a =>
      match y with
      | PyInt b => Ok (Z.b2z a =? b)
      | PyBool b => Ok (Bool.eqb a b)
      | _ => Ok false
      end
  | PyType a =>
      match y with
      | PyType b => Ok (pytype_eqb a b)
      | _ => Ok false
      end
  | PyExc _ | Tensor _ | Ndarray _ | Obj _ _ =>
      r <- leaf_eq x y ;; truthy r
  end.

(** [x == y] *)
Definition py_eq (x y : value) : result value :=
  if is_leaf_object x || is_leaf_object y then leaf_eq x y
  else b <- eq_bool x y ;; Ok (PyBool b).

(** [iter(v)], run to the end. *)
Definition iter_ (v : value) : result (list value) :=
  match v with
  | Tuple xs | PyList xs | PyTuple xs | TorchSize xs => Ok xs
  | Tensor _ | Ndarray _ | Obj _ _ => leaf_iter v
  | _ => Raise (not_iterable v)
  end.

Definition index_error (v : value) : exn :=
  Exn IndexError (type_name
    (match v with PyList _ => TyList | _ => TyBuiltinTuple end)
    +++ " index out of range").

(** [v[i]] for a non-negative [i]. *)
Definition getitem (v : value) (i : nat) : result value :=
  match v with
  | Tuple xs | PyList xs | PyTuple xs | TorchSize xs =>
      match nth_error xs i with
      | Some x => Ok x
      | None => Raise (index_error v)
      end
  | Tensor _ | Ndarray _ | Obj _ _ => leaf_subscript v (Index i)
  | _ => Raise (not_subscriptable v)
  end.

(** [v[i:]]: a slice of a list is a list, a slice of a tuple or of a
    Tuple is a builtin tuple, a slice of a torch.Size is a torch.Size. *)
Definition getslice (v : value) (i : nat) : result value :=
  match v with
  | PyList xs => Ok (PyList (skipn i xs))
  | Tuple xs | PyTuple xs => Ok (PyTuple (skipn i xs))
  | TorchSize xs => Ok (TorchSize (skipn i xs))
  | Tensor _ | Ndarray _ | Obj _ _ => leaf_subscript v (SliceFrom i)
  | _ => Raise (not_subscriptable v)
  end.

End Builtins.

(** [zip] over the unpacked rows: the rows are read in step and the
    shortest one ends the iteration; without rows there is nothing to yield. *)
Fixpoint zip_cons {A : Type} (r : list A) (rs : list (list A)) : list (list A) :=
  match r, rs with
  | x :: r', t :: rs' => (x :: t) :: zip_cons r' rs'
  | _, _ => []
  end.

Fixpoint zip_star {A : Type} (rows : list (list A)) : list (list A) :=
  match rows with
  | [] => []
  | r :: rs =>
      match rs with
      | [] => map (fun x => [x]) r
      | _ :: _ => zip_cons r (zip_star rs)
      end
  end.

(** A generator over [zip(l, l')]. *)
Section ZipM.
Context {A C D : Type} (f : A -> C -> result D).

Fixpoint zipM (l : list A) (l' : list C) : result (list D) :=
  match l, l' with
  | a :: r, c :: r' => d <- f a c ;; ds <- zipM r r' ;; Ok (d :: ds)
  | _, _ => Ok []
  end.
End ZipM.

(** A [for] loop that updates an accumulator. *)
Section FoldM.
Context {A C : Type} (f : A -> C -> result A).

Fixpoint foldM (l : list C) (acc : A) : result A :=
  match l with
  | [] => Ok acc
  | c :: r => acc' <- f acc c ;; foldM r acc'
  end.
End FoldM.

(* ===================================================================== *)
(** ** [pyth/tuple.py]: the operations that need no backend *)
(* ===================================================================== *)

(** [type(data) in _CONTAINERS] *)
Definition is_container (data : value) : bool :=
  in_types (type_ data) CONTAINERS.

(** The receiver of a method of class [Tuple]: any other object has no
    such attribute. *)
Definition Tuple_items (self : value) (method : string) : result (list value) :=
  match self with
  | Tuple xs => Ok xs
  | _ => Raise (no_attribute self method)
  end.

(** [is_flat(data)]:
    [all(data.apply_nrec(lambda x: type(x) not in _CONTAINERS))] *)
Definition is_flat (data : value) : bool :=
  match data with
  | Tuple xs => forallb (fun x => negb (is_container x)) xs
  | _ => true
  end.

(** [tuple_levels(data, level)] *)
Fixpoint tuple_levels (data : value) (level : Z) : value :=
  match data with
  | Tuple xs => Tuple (map (fun sub => tuple_levels sub (level + 1)) xs)
  | _ => PyInt level
  end.

(** One pass of [flatten_tuple]: every element that is a Tuple is replaced
    by its elements, every other element [sub] by the elements of [(sub,)],
    and the pieces are chained. *)
Definition flatten_pass (xs : list value) : list value :=
  List.concat (map (fun sub => match sub with Tuple ys => ys | _ => [sub] end) xs).

(** The number of Tuple levels, the measure that [flatten_tuple] decreases. *)
Fixpoint nesting (v : value) : nat :=
  match v with
  | Tuple xs => S (list_max (map nesting xs))
  | _ => O
  end.

Lemma is_container_spec (v : value) :
  is_container v = true <-> exists xs, v = Tuple xs.
Proof.
  split.
  - destruct v as [xs| | | | | | |[c m]| | |]; cbn; try discriminate.
    intros _. now exists xs.
  - intros [xs ->]. reflexivity.
Qed.

Lemma list_max_cons (n : nat) (l : list nat) :
  list_max (n :: l) = Nat.max n (list_max l).
Proof. reflexivity. Qed.

Lemma is_flat_nesting (xs : list value) :
  is_flat (Tuple xs) = true <-> list_max (map nesting xs) = O.
Proof.
  cbn [is_flat]. induction xs as [|x r IH].
  - cbn. tauto.
  - cbn [forallb map]. rewrite list_max_cons, andb_true_iff, IH. clear IH.
    destruct x as [ys| | | | | | |[c m]| | |]; cbn [is_container nesting];
      cbn -[Nat.max list_max];
      (split; [intros [H1 H2] | intros H; split]);
      try discriminate; try reflexivity; try lia; exfalso; lia.
Qed.

Lemma flatten_pass_nesting (xs : list value) :
  list_max (map nesting (flatten_pass xs)) = Nat.pred (list_max (map nesting xs)).
Proof.
  unfold flatten_pass.
  induction xs as [|x r IH]; [reflexivity|].
  cbn [map List.concat].
  rewrite map_app, list_max_app, IH, list_max_cons.
  destruct x as [ys| | | | | | |[c m]| | |]; cbn [map nesting];
    rewrite ?list_max_cons; change (list_max []) with O; lia.
Qed.

(** Keeps the outcome of a test available to the termination argument. *)
Definition inspect {A : Type} (a : A) : {b : A | a = b} := exist _ a eq_refl.

Equations? flatten_tuple (data : value) : value by wf (nesting data) lt :=
  flatten_tuple (Tuple xs) with inspect (is_flat (Tuple (flatten_pass xs))) := {
    | exist _ true _ => Tuple (flatten_pass xs)
    | exist _ false Hnew => flatten_tuple (Tuple (flatten_pass xs)) };
  flatten_tuple data := data.
Proof.
  rewrite flatten_pass_nesting.
  destruct (list_max (map nesting xs)) as [|n] eqn:E; [|cbn; lia].
  exfalso.
  assert (Hf : is_flat (Tuple (flatten_pass xs)) = true).
  { apply is_flat_nesting. rewrite flatten_pass_nesting, E. reflexivity. }
  cbn [is_flat] in Hf. congruence.
Qed.

(** The recursive calls of [tuplefy], which are all made with the default
    [types=(list, tuple)], extended with [Tuple]. *)
Fixpoint tuplefy_sub (data : value) : value :=
  match data with
  | Tuple xs | PyList xs | PyTuple xs => Tuple (map tuplefy_sub xs)
  | _ => data
  end.

Definition default_types : list pytype := [TyList; TyBuiltinTuple].

(* ===================================================================== *)
(** ** [pyth/tuple.py]: the operations over a backend *)
(* ===================================================================== *)

Section TupleModule.
Context {B : Backend}.

(** [Tuple.apply_nrec(self, func)]: [Tuple(func(sub) for sub in self)],
    where [func] runs inside the generator expression. *)
Definition Tuple_apply_nrec (self : value) (func : value -> result value)
  : result value :=
  xs <- Tuple_items self "apply_nrec" ;;
  ys <- in_generator (mapM func xs) ;;
  Ok (Tuple ys).

(** [apply_tuple(func)]: the wrapper descends into Tuples (the only class
    of [_CONTAINERS]) and calls [func] on everything else. The calls on the
    elements of a Tuple are made inside a generator expression. *)
Fixpoint apply_tuple (func : value -> result value) (data : value)
  : result value :=
  match data with
  | Tuple xs => ys <- in_generator (mapM (apply_tuple func) xs) ;; Ok (Tuple ys)
  | _ => func data
  end.

(** [Tuple.apply(self, func)] *)
Definition Tuple_apply (self : value) (func : value -> result value)
  : result value :=
  Tuple_items self "apply" ;;; apply_tuple func self.

(** [Tuple.to_levels(self)] *)
Definition Tuple_to_levels (self : value) : result value :=
  Tuple_items self "to_levels" ;;; Ok (tuple_levels self (-1)).

(** [Tuple.all(self)] *)
Definition Tuple_all (self : value) : result bool :=
  xs <- Tuple_items self "all" ;;
  if negb (is_flat self)
  then Raise (Exn RuntimeError "Need to have a flat structure to use 'all'")
  else allM truthy xs.

(** [all_equal(data)]:
    [data.apply_nrec(lambda x: x == data[0]).all()] *)
Definition all_equal (data : value) : result bool :=
  r <- Tuple_apply_nrec data (fun x => d0 <- getitem data 0 ;; py_eq x d0) ;;
  Tuple_all r.

(** [Tuple.all_equal(self)] *)
Definition Tuple_all_equal (self : value) : result bool :=
  Tuple_items self "all_equal" ;;; all_equal self.

(** [reduce_rec] inside [reduce_tuple(func, init_func)]; the recursive
    calls pass no keyword arguments and are made inside a generator
    expression over [zip(acc_val, val)]. *)
Fixpoint reduce_rec (func : value -> value -> result value)
         (acc_val val : value) {struct acc_val} : result value :=
  match acc_val with
  | Tuple avs =>
      vs <- iter_ val ;;
      rs <- in_generator (zipM (reduce_rec func) avs vs) ;;
      Ok (Tuple rs)
  | _ => func acc_val val
  end.

Definition topology_error : exn :=
  Exn ValueError
      "Topology is not the same for all elements in data, and can not be reduced".

(** The part of [reduce_tuple]'s wrapper after the topology check. *)
Definition reduce_fold (func : value -> value -> result value)
           (init_func : option (value -> result value)) (data : value)
  : result value :=
  iterable <- iter_ data ;;
  match init_func with
  | None =>
      match iterable with
      | [] => Raise (Exn StopIteration "")
      | acc_val :: rest => foldM (reduce_rec func) rest acc_val
      end
  | Some init =>
      d0 <- getitem data 0 ;;
      acc_val <- Tuple_apply d0 init ;;
      foldM (reduce_rec func) iterable acc_val
  end.

(** [reduce_tuple(func, init_func)(data)] *)
Definition reduce_tuple (func : value -> value -> result value)
           (init_func : option (value -> result value)) (data : value)
  : result value :=
  levels <- Tuple_to_levels data ;;
  same <- Tuple_all_equal levels ;;
  if negb same then Raise topology_error
  else reduce_fold func init_func data.

(** [Tuple.reduce(self, func, init_func=None)] *)
Definition Tuple_reduce (self : value) (func : value -> value -> result value)
           (init_func : option (value -> result value)) : result value :=
  Tuple_items self "reduce" ;;; reduce_tuple func init_func self.

(** The two functions local to [agg_list]: [init_func = lambda _: list()]
    and [append_func]. [list_.append(val)] extends the list held in the
    accumulator; every leaf of the seed holds a list of its own, so no list
    is shared between two leaves. *)
Definition agg_list_init_func (_ : value) : result value := Ok (PyList []).

Definition agg_list_append_func (list_ val : value) : result value :=
  match list_ with
  | PyList xs => Ok (PyList (xs ++ [val]))
  | _ => Raise (no_attribute list_ "append")
  end.

(** [agg_list(data)] *)
Definition agg_list (data : value) : result value :=
  reduce_tuple agg_list_append_func (Some agg_list_init_func) data.

(** [Tuple.agg_list(self)] *)
Definition Tuple_agg_list (self : value) : result value :=
  Tuple_items self "agg_list" ;;; agg_list self.

(** [x.shape] *)
Definition shape_attr (data : value) : result value :=
  match data with
  | Tensor a => Ok (TorchSize (map PyInt (shape a)))
  | Ndarray a => Ok (PyTuple (map PyInt (shape a)))
  | _ => Raise (no_attribute data "shape")
  end.

(** [shapes_of], [types_of] *)
Definition shapes_of (data : value) : result value :=
  apply_tuple shape_attr data.

Definition types_of (data : value) : result value :=
  apply_tuple (fun x => Ok (PyType (type_ x))) data.

Definition Tuple_shapes (self : value) : result value :=
  Tuple_items self "shapes" ;;; shapes_of self.

Definition Tuple_types (self : value) : result value :=
  Tuple_items self "types" ;;; types_of self.

Definition Tuple_flatten (self : value) : result value :=
  Tuple_items self "flatten" ;;; Ok (flatten_tuple self).

(** [types.count(x)] *)
Fixpoint count (xs : list value) (x : value) : result nat :=
  match xs with
  | [] => Ok O
  | y :: r =>
      b <- eq_bool y x ;;
      n <- count r x ;;
      Ok (if b then S n else n)
  end.

(** [type_of(data)] *)
Definition type_of (data : value) : result value :=
  ts <- Tuple_types data ;;
  types <- Tuple_flatten ts ;;
  xs <- Tuple_items types "count" ;;
  t0 <- getitem types 0 ;;
  n <- count xs t0 ;;
  if negb (Nat.eqb n (List.length xs))
  then Raise (Exn ValueError "All objects in 'data' doest have the same type.")
  else getitem types 0.

(** [Tuple.type(self)] *)
Definition Tuple_type (self : value) : result value :=
  Tuple_items self "type" ;;; type_of self.

(** [cat(seq, dim)] *)
Definition cat (seq : value) (dim : Z) : result value :=
  if negb (dim =? 0) then Raise (Exn NotImplementedError "") else
  shapes <- Tuple_shapes seq ;;
  tails <- Tuple_apply shapes (fun x => getslice x 1) ;;
  same <- Tuple_all_equal tails ;;
  if negb same
  then Raise (Exn ValueError "Shapes of merged arrays need to be the same")
  else
    type_ <- Tuple_type seq ;;
    agg <- Tuple_agg_list seq ;;
    match type_ with
    | PyType TyTensor => Tuple_apply agg torch_cat
    | PyType TyNdarray => Tuple_apply agg np_concatenate
    | _ =>
        Raise (Exn RuntimeError
                   ("Need type to be np.ndarray or torch.Tensor, fournd "
                      +++ match type_ with
                          | PyType t => type_repr t
                          | _ => ""
                          end +++ "."))
    end.

(** [Tuple.cat(self, dim=0)]: [return cat(self, dim=0)] *)
Definition Tuple_cat (self : value) (dim : Z) : result value :=
  Tuple_items self "cat" ;;; cat self 0.

(** The message of the error that [astype] builds for a leaf that is
    neither a tensor nor an array (a triple-quoted f-string). *)
Definition astype_message (data : value) : string :=
  "Need 'data' to be torch.tensor of np.ndarray, found "
    +++ type_repr (type_ data) +++ "."
    +++ String (ascii_of_nat 10) "            ".

(** [astype(data, dtype)]: the function under the [apply_tuple]
    decorator, then the decorated function. The last branch is
    [return RuntimeError(...)]. *)
Definition astype_leaf (dtype : value) (data : value) : result value :=
  match data with
  | Tensor a => tensor_type a dtype
  | Ndarray a => ndarray_astype a dtype
  | _ => Ok (PyExc (Exn RuntimeError (astype_message data)))
  end.

Definition astype (data : value) (dtype : value) : result value :=
  apply_tuple (astype_leaf dtype) data.

(** [Tuple.astype(self, dtype)] *)
Definition Tuple_astype (self : value) (dtype : value) : result value :=
  Tuple_items self "astype" ;;; astype self dtype.

(** [tuplefy(data, types)] *)
Definition tuplefy (data : value) (types : list pytype) : result value :=
  let types := types ++ [TyTuple] in
  if in_types (type_ data) types
  then xs <- iter_ data ;; Ok (Tuple (map tuplefy_sub xs))
  else Ok data.

(** [Tuple.tuplefy(self, types=(list, tuple))] *)
Definition Tuple_tuplefy (self : value) (types : list pytype) : result value :=
  Tuple_items self "tuplefy" ;;; tuplefy self types.

(** [split_agg(agg)] *)
Fixpoint split_agg (agg : value) : result value :=
  match agg with
  | Tuple xs =>
      new <- in_generator (mapM split_agg xs) ;;
      rows <- mapM iter_ new ;;
      Tuple_tuplefy (Tuple (map PyTuple (zip_star rows))) default_types
  | _ => Ok agg
  end.

(** [Tuple.split_agg(self)] *)
Definition Tuple_split_agg (self : value) : result value :=
  Tuple_items self "split_agg" ;;; split_agg self.
End TupleModule.

(* ===================================================================== *)
(** ** [pyth/tuple.py]: [reduce_nrec] and [split] *)
(* ===================================================================== *)

Section TupleSplit.
Context {B : Backend}.
(** [tensor.split(split_size)], of [torch]: the chunks, as a tuple. *)
Variable tensor_split : array -> value -> result value.

(** [Tuple.reduce_nrec(self, func)]: [functools.reduce(func, self)] *)
Definition Tuple_reduce_nrec (self : value)
           (func : value -> value -> result value) : result value :=
  xs <- Tuple_items self "reduce_nrec" ;;
  match xs with
  | [] => Raise (Exn TypeError
                     "reduce() of empty iterable with no initial value")
  | x :: rest => foldM func rest x
  end.

(** [lambda x: x.split(split_size)]: of the values of the model only a
    tensor has the method. *)
Definition split_leaf (split_size : value) (x : value) : result value :=
  match x with
  | Tensor a => tensor_split a split_size
  | _ => Raise (no_attribute x "split")
  end.

Definition split_not_implemented : exn :=
  Exn NotImplementedError
      "Only implemented for torch tensors because np.split works differently".

(** [split(data, split_size, dim)]. On a tensor, [data.type()] is the
    method of torch, which gives the name of the tensor type, a string and
    so not the class [torch.Tensor]; on the classes [torch.Tensor] and
    [Tuple] themselves it is a method called without its receiver; on
    every other value that is not a Tuple there is no such attribute. *)
Definition split (data : value) (split_size : value) (dim : Z) : result value :=
  if negb (dim =? 0) then Raise (Exn NotImplementedError "") else
  match data with
  | Tensor _ => Raise split_not_implemented
  | PyType TyTensor =>
      Raise (Exn TypeError
                 "descriptor 'type' of 'torch._C.TensorBase' object needs an argument")
  | PyType TyTuple =>
      Raise (Exn TypeError
                 "Tuple.type() missing 1 required positional argument: 'self'")
  | _ =>
      type_ <- Tuple_type data ;;
      match type_ with
      | PyType TyTensor =>
          splitted <- Tuple_apply data (split_leaf split_size) ;;
          split_agg splitted
      | _ => Raise split_not_implemented
      end
  end.

(** [Tuple.split(self, split_size, dim=0)]: [return split(self, split_size, dim)] *)
Definition Tuple_split (self : value) (split_size : value) (dim : Z)
  : result value :=
  Tuple_items self "split" ;;; split self split_size dim.
End TupleSplit.

(* ===================================================================== *)
(** ** The named callback registry *)
(* ===================================================================== *)

Module CallbackHandler.
Section Registry.
(** The handlers and the name of their class, [obj.__class__.__name__]. *)
Variable handler : Type.
Variable class_name : handler -> string.

(** Modelled from the spec: the class [CallbackHandler] of the module
    [callbacks], which is not among the sources (its tests are). An
    ordered mapping from unique names to handlers: [append] and item
    assignment reject a name that is present, and a handler given
    without a name is named after its class, with the suffix [_0],
    [_1], ... on collision. *)
Definition registry : Type := list (string * handler).

(** Modelled from the spec: the names and the handlers, in insertion
    order, and the membership test on names. *)
Definition keys (r : registry) : list string := map fst r.

Definition values (r : registry) : list handler := map snd r.

Definition has_key (r : registry) (name : string) : bool :=
  existsb (String.eqb name) (keys r).

(** The decimal numeral of a suffix. *)
Definition decimal (i : nat) : string :=
  NilEmpty.string_of_uint (Nat.to_uint i).

(** Modelled from the spec: the search for the first free suffix. Among
    the candidates numbered from [i] to [i + fuel] one is free as soon as
    [fuel] is the number of names in the registry. *)
Fixpoint first_free (r : registry) (base : string) (fuel i : nat) : string :=
  let name := base +++ "_" +++ decimal i in
  match fuel with
  | O => name
  | S fuel' => if has_key r name then first_free r base fuel' (S i) else name
  end.

(** Modelled from the spec: the name derived for an unnamed handler. *)
Definition make_name (r : registry) (callback : handler) : string :=
  let name := class_name callback in
  if has_key r name then first_free r name (List.length r) O else name.

Definition duplicate_name (name : string) : exn :=
  Exn AssertionError ("Duplicate name: " +++ name).

(** Modelled from the spec: [append(callback, name=None)], on the
    registry as state; a failed call leaves it as it was. *)
Definition append (callback : handler) (name : option string) (r : registry)
  : result unit * registry :=
  let name := match name with
              | Some n => n
              | None => make_name r callback
              end in
  if has_key r name then (Raise (duplicate_name name), r)
  else (Ok tt, r ++ [(name, callback)]).

(** Modelled from the spec: [handler[name] = callback], with the rule
    of [append]. *)
Definition setitem (name : string) (callback : handler) (r : registry)
  : result unit * registry :=
  append callback (Some name) r.

(** Modelled from the spec: construction from a plain sequence of
    handlers, appended in order without names. *)
Fixpoint append_all (callbacks : list handler) (r : registry)
  : result unit * registry :=
  match callbacks with
  | [] => (Ok tt, r)
  | c :: rest =>
      match append c None r with
      | (Ok _, r') => append_all rest r'
      | (Raise e, r') => (Raise e, r')
      end
  end.

Definition init (callbacks : list handler) : result unit * registry :=
  append_all callbacks [].

(** Modelled from the spec: construction from an ordered mapping of
    names to handlers. *)
Fixpoint append_named (callbacks : list (string * handler)) (r : registry)
  : result unit * registry :=
  match callbacks with
  | [] => (Ok tt, r)
  | (name, c) :: rest =>
      match append c (Some name) r with
      | (Ok _, r') => append_named rest r'
      | (Raise e, r') => (Raise e, r')
      end
  end.

Definition init_named (callbacks : list (string * handler))
  : result unit * registry :=
  append_named callbacks [].
End Registry.
End CallbackHandler.

(* ===================================================================== *)
(** ** [pyth/base.py]: the training loop *)
(* ===================================================================== *)

(** The lifecycle hooks of a callback. *)
Inductive hook : Type :=
| GiveModel
| OnFitStart
| BeforeStep
| OnBatchEnd
| OnEpochEnd.

Section Training.
(** Everything that the run mutates and this module does not look into:
    the parameters of the network, the state of the optimizer, the
    gradients, the records of the callbacks. *)
Variable World : Type.
(** A batch of the dataloader. *)
Variable Data : Type.

(** Modelled from the spec: a callback object (the classes of the module
    [callbacks] are not among the sources): its class, its identity, and
    what each of its hooks does to the world. A hook returns its stop
    signal (as a truth value) or raises; the hooks of the base class do
    nothing and give no signal. *)
Record Callback : Type := MkCallback {
  cb_class : string;
  cb_id : nat;
  cb_hook : hook -> World -> result bool * World
}.

(** What is observed of a run, in order. *)
Inductive event : Type :=
| EvHook (h : hook) (id : nat)          (* hook [h] of the callback [id] is called *)
| EvReturn (h : hook) (stop : bool)     (* the aggregate call of [h] returned [stop] *)
| EvZeroGrad                            (* [optimizer.zero_grad()] *)
| EvComputeLoss (data : Data)           (* [compute_loss(data)] *)
| EvBackward                            (* [batch_loss.backward()] *)
| EvOptimStep                           (* [optimizer.step()] *).

(** The attributes of the model that [fit_dataloader] assigns, the world,
    and the trace of the events so far. *)
Record fit_state : Type := MkState {
  world : World;
  callbacks : list Callback;            (* [self.callbacks] *)
  batches_per_epoch : option nat;       (* [self.fit_info] *)
  log_verbose : bool;                   (* [self.log.verbose] *)
  trace : list event
}.

(** Computations that read and update the state and may raise. *)
Definition M (A : Type) : Type := fit_state -> result A * fit_state.

Definition ret {A : Type} (a : A) : M A := fun s => (Ok a, s).

Definition raise {A : Type} (e : exn) : M A := fun s => (Raise e, s).

Definition bindM {A C : Type} (m : M A) (k : A -> M C) : M C :=
  fun s =>
    match m s with
    | (Ok a, s') => k a s'
    | (Raise e, s') => (Raise e, s')
    end.

Declare Scope fit_scope.
Delimit Scope fit_scope with fit.
Notation "x <- m ;; k" := (bindM m (fun x => k))
  (at level 61, m at next level, right associativity) : fit_scope.
Notation "m ;;; k" := (bindM m (fun _ => k))
  (at level 61, right associativity) : fit_scope.
Local Open Scope fit_scope.

Definition emit (e : event) : M unit :=
  fun s => (Ok tt, MkState (world s) (callbacks s) (batches_per_epoch s)
                           (log_verbose s) (trace s ++ [e])).

(** A call into the world, recorded as the event [e]. *)
Definition call {A : Type} (e : event) (op : World -> result A * World) : M A :=
  emit e ;;;
  fun s =>
    let '(r, w) := op (world s) in
    (r, MkState w (callbacks s) (batches_per_epoch s) (log_verbose s) (trace s)).

(** The model object: the two callbacks that [__init__] creates, and the
    operations of its network, loss and optimizer. *)
Record Model : Type := MkModel {
  train_loss : Callback;                              (* [cb.MonitorTrainLoss()] *)
  log : Callback;                                     (* [cb.TrainingLogger()] *)
  optimizer_zero_grad : World -> result unit * World;
  compute_loss : Data -> World -> result unit * World;
  batch_loss_backward : World -> result unit * World;
  optimizer_step : World -> result unit * World
}.

(** Modelled from the spec: the aggregate hooks of the class
    [CallbacksList] of the module [callbacks], which is not among the
    sources. Every entry's hook is invoked, in registry (insertion)
    order; the aggregate stop signal is true if any entry's is. *)
Fixpoint apply_callbacks (h : hook) (cbs : list Callback) : M bool :=
  match cbs with
  | [] => ret false
  | c :: rest =>
      stop <- call (EvHook h (cb_id c)) (cb_hook c h) ;;
      stops <- apply_callbacks h rest ;;
      ret (stop || stops)
  end.

(** Modelled from the spec: the aggregate call of hook [h] on
    [self.callbacks], as [self.callbacks.before_step()]; its return is
    recorded in the trace. *)
Definition callbacks_hook (h : hook) : M bool :=
  stop <- (fun s => apply_callbacks h (callbacks s) s) ;;
  emit (EvReturn h stop) ;;;
  ret stop.

(** [Model._setup_train_info(self, dataloader, verbose, callbacks)] *)
Definition _setup_train_info (self : Model) (dataloader : list Data)
           (verbose : bool) (callbacks : option (list Callback)) : M unit :=
  let callbacks := match callbacks with
                   | None => []
                   | Some l => l
                   end in
  (fun s => (Ok tt, MkState (world s)
                            ([train_loss self] ++ callbacks ++ [log self])
                            (Some (List.length dataloader))
                            verbose
                            (trace s))) ;;;
  callbacks_hook GiveModel ;;;
  ret tt.

Definition stop_signal_error : exn :=
  Exn RuntimeError "Stop signal in before_step().".

(** The body of the loop over the batches. *)
Definition fit_batch (self : Model) (data : Data) : M unit :=
  call EvZeroGrad (optimizer_zero_grad self) ;;;
  call (EvComputeLoss data) (compute_loss self data) ;;;
  call EvBackward (batch_loss_backward self) ;;;
  stop_signal <- callbacks_hook BeforeStep ;;
  if stop_signal : bool then raise stop_signal_error
  else
    call EvOptimStep (optimizer_step self) ;;;
    callbacks_hook OnBatchEnd ;;;
    ret tt.

(** [for data in dataloader: ...] *)
Fixpoint fit_batches (self : Model) (dataloader : list Data) : M unit :=
  match dataloader with
  | [] => ret tt
  | data :: rest => fit_batch self data ;;; fit_batches self rest
  end.

(** [for _ in range(epochs): ...] with its [break] *)
Fixpoint fit_epochs (self : Model) (dataloader : list Data) (epochs : nat)
  : M unit :=
  match epochs with
  | O => ret tt
  | S epochs' =>
      fit_batches self dataloader ;;;
      stop_signal <- callbacks_hook OnEpochEnd ;;
      if stop_signal : bool then ret tt
      else fit_epochs self dataloader epochs'
  end.

(** [Model.fit_dataloader(self, dataloader, epochs=1, callbacks=None,
    verbose=True)] *)
Definition fit_dataloader (self : Model) (dataloader : list Data)
           (epochs : Z) (callbacks : option (list Callback)) (verbose : bool)
  : M Callback :=
  _setup_train_info self dataloader verbose callbacks ;;;
  callbacks_hook OnFitStart ;;;
  fit_epochs self dataloader (Z.to_nat epochs) ;;;
  ret (log self).
End Training.

Arguments EvHook {Data} h id.
Arguments EvReturn {Data} h stop.
Arguments EvZeroGrad {Data}.
Arguments EvBackward {Data}.
Arguments EvOptimStep {Data}.

(* ===================================================================== *)
(** ** [pyth/base.py]: [_nested_unpack_class] *)
(* ===================================================================== *)

Section BaseHelpers.
Context {B : Backend}.

(** The test [first.__class__ in (list, tuple)]: the package's Tuple and
    torch.Size are other classes. *)
Definition is_list_or_tuple (v : value) : bool :=
  in_types (type_ v) [TyList; TyBuiltinTuple].

(** What [_nested_unpack_class] does with [first]: if it is a list or a
    tuple, the call on it (which takes its first element and goes on),
    otherwise its class. *)
Fixpoint unpack_first (first : value) : result pytype :=
  match first with
  | PyList xs | PyTuple xs =>
      match xs with
      | [] => Raise (index_error first)
      | first' :: _ => unpack_first first'
      end
  | _ => Ok (type_ first)
  end.

(** [_nested_unpack_class(iterable)] *)
Definition _nested_unpack_class (iterable : value) : result pytype :=
  first <- getitem iterable 0 ;;
  unpack_first first.

(** [torch.from_numpy(x).float()], of [torch]. *)
Variable from_numpy_float : value -> result value.

(** [numpy_to_tensor(x)] of [pyth/base.py]: a list comprehension over the
    lists and the builtin tuples, the conversion on everything else. *)
Fixpoint numpy_to_tensor (x : value) : result value :=
  match x with
  | PyList xs | PyTuple xs => ys <- mapM numpy_to_tensor xs ;; Ok (PyList ys)
  | _ => from_numpy_float x
  end.
End BaseHelpers.

(* ===================================================================== *)
(** ** A small array backend and a small model, to run the definitions *)
(* ===================================================================== *)

Module Toy.
Definition size (dims : list Z) : nat :=
  Z.to_nat (fold_right Z.mul 1 dims).

Fixpoint chunks (n k : nat) (l : list Z) : list (list Z) :=
  match n with
  | O => []
  | S n' => firstn k l :: chunks n' k (skipn k l)
  end.

(** The sub-arrays along the first axis. *)
Definition rows (a : array) : option (list array) :=
  match shape a with
  | [] => None
  | d :: rest =>
      Some (map (MkArray (dtype a) rest)
                (chunks (Z.to_nat d) (size rest) (items a)))
  end.

Definition wrap (like : value) (a : array) : value :=
  match like with
  | Tensor _ => Tensor a
  | _ => Ndarray a
  end.

Definition array_of (v : value) : option array :=
  match v with
  | Tensor a | Ndarray a => Some a
  | _ => None
  end.

(** Elementwise comparison of arrays of one shape; an object equals
    only itself. *)
Definition eq (x y : value) : result value :=
  match array_of x, array_of y with
  | Some a, Some b =>
      if list_eq_dec Z.eq_dec (shape a) (shape b)
      then Ok (wrap x (MkArray "bool" (shape a)
                 (map (fun p => Z.b2z (fst p =? snd p))
                      (combine (items a) (items b)))))
      else Raise (Exn ValueError "operands could not be broadcast together")
  | _, _ =>
      match x, y with
      | Obj c i, Obj d j => Ok (PyBool (String.eqb c d && Nat.eqb i j))
      | _, _ => Ok (PyBool false)
      end
  end.

Definition truth (v : value) : result bool :=
  match array_of v with
  | Some a =>
      match items a with
      | [z] => Ok (negb (z =? 0))
      | _ => Raise (Exn ValueError
               "The truth value of an array with more than one element is ambiguous")
      end
  | None => Ok true
  end.

Definition iterate (v : value) : result (list value) :=
  match array_of v with
  | Some a =>
      match rows a with
      | Some rs => Ok (map (wrap v) rs)
      | None => Raise (Exn TypeError "iteration over a 0-d array")
      end
  | None => Raise (not_iterable v)
  end.

Definition subscript (v : value) (s : subscript) : result value :=
  match array_of v with
  | Some a =>
      match rows a, s with
      | Some rs, Index i =>
          match nth_error rs i with
          | Some r => Ok (wrap v r)
          | None => Raise (Exn IndexError "index is out of bounds for axis 0")
          end
      | Some rs, SliceFrom i =>
          match shape a with
          | d :: rest =>
              Ok (wrap v (MkArray (dtype a)
                            (Z.of_nat (List.length (skipn i rs)) :: rest)
                            (skipn (i * size rest) (items a))))
          | [] => Raise (Exn IndexError "too many indices for array")
          end
      | None, _ => Raise (Exn IndexError "too many indices for array")
      end
  | None => Raise (not_subscriptable v)
  end.

(** Concatenation along the first axis of the arrays of a sequence. *)
Fixpoint concat_arrays (acc : array) (l : list value) : result array :=
  match l with
  | [] => Ok acc
  | v :: rest =>
      match array_of v, shape acc, (match array_of v with
                                    | Some a => shape a
                                    | None => []
                                    end) with
      | Some a, d :: tl, d' :: tl' =>
          if list_eq_dec Z.eq_dec tl tl'
          then concat_arrays (MkArray (dtype acc) (d + d' :: tl)
                                      (items acc ++ items a)) rest
          else Raise (Exn ValueError "all the input array dimensions except for the concatenation axis must match exactly")
      | Some _, _, _ =>
          Raise (Exn ValueError "zero-dimensional arrays cannot be concatenated")
      | None, _, _ => Raise (Exn TypeError "expected an array")
      end
  end.

Definition concatenate (seq : value) : result value :=
  match seq with
  | Tuple (v :: rest) | PyList (v :: rest) | PyTuple (v :: rest) =>
      match array_of v with
      | Some a =>
          match shape a with
          | [] => Raise (Exn ValueError "zero-dimensional arrays cannot be concatenated")
          | _ :: _ => r <- concat_arrays a rest ;; Ok (wrap v r)
          end
      | None => Raise (Exn TypeError "expected an array")
      end
  | Tuple [] | PyList [] | PyTuple [] =>
      Raise (Exn ValueError "need at least one array to concatenate")
  | _ => Raise (Exn TypeError "expected a sequence of arrays")
  end.

(** Conversion to the element type named by [dtype]. *)
Definition convert (like : value) (a : array) (dtype : value) : result value :=
  match dtype with
  | Obj name _ => Ok (wrap like (MkArray name (shape a) (items a)))
  | _ => Raise (Exn TypeError "data type not understood")
  end.

#[export] Instance backend : Backend := {
  leaf_eq := eq;
  leaf_truth := truth;
  leaf_iter := iterate;
  leaf_subscript := subscript;
  torch_cat := concatenate;
  np_concatenate := concatenate;
  tensor_type := fun a => convert (Tensor a) a;
  ndarray_astype := fun a => convert (Ndarray a) a
}.

(** Two arrays of shapes (2, 2) and (1, 2). *)
Definition a1 : value := Ndarray (MkArray "int64" [2; 2] [1; 2; 3; 4]).
Definition b1 : value := Ndarray (MkArray "int64" [1; 2] [5; 6]).
Definition a1b1 : value := Ndarray (MkArray "int64" [3; 2] [1; 2; 3; 4; 5; 6]).
Definition float32 : value := Obj "float32" 0.

(** [tensor.split(n)]: the pieces of [n] rows each (the last one may be
    shorter), as a tuple. *)
Fixpoint pieces (fuel n d : nat) (dt : string) (rest : list Z) (l : list Z)
  : list value :=
  match fuel with
  | O => []
  | S fuel' =>
      if Nat.eqb d 0 then []
      else
        let k := Nat.min n d in
        Tensor (MkArray dt (Z.of_nat k :: rest) (firstn (k * size rest) l))
          :: pieces fuel' n (d - k) dt rest (skipn (k * size rest) l)
  end.

Definition split (a : array) (split_size : value) : result value :=
  match split_size, shape a with
  | PyInt n, d :: rest =>
      if 0 <? n
      then Ok (PyTuple (pieces (Z.to_nat d) (Z.to_nat n) (Z.to_nat d)
                               (dtype a) rest (items a)))
      else Raise (Exn RuntimeError "split expects split_size be positive")
  | _, _ => Raise (Exn TypeError "split(): argument 'split_size' must be int")
  end.

(** Functions to reduce with: the sum of two integers, the successor of
    the accumulator (which counts the folded elements), and the seed 0. *)
Definition add (x y : value) : result value :=
  match x, y with
  | PyInt a, PyInt b => Ok (PyInt (a + b))
  | _, _ => Raise (Exn TypeError "unsupported operand type(s) for +")
  end.

Definition count_one (acc _ : value) : result value :=
  match acc with
  | PyInt n => Ok (PyInt (n + 1))
  | _ => Raise (Exn TypeError "unsupported operand type(s) for +")
  end.

Definition zero (_ : value) : result value := Ok (PyInt 0).

(** A model whose world is a counter of optimizer steps, and callbacks
    that do nothing, or ask to stop. *)
Definition noop (cls : string) (id : nat) : Callback nat :=
  MkCallback cls id (fun _ w => (Ok false, w)).

Definition stop_at (at_hook : hook) (cls : string) (id : nat) : Callback nat :=
  MkCallback cls id
    (fun h w => (Ok (match h, at_hook with
                     | BeforeStep, BeforeStep | OnEpochEnd, OnEpochEnd => true
                     | _, _ => false
                     end), w)).

Definition model : Model nat nat :=
  MkModel (noop "MonitorTrainLoss" 0) (noop "TrainingLogger" 1)
          (fun w => (Ok tt, w))
          (fun _ w => (Ok tt, w))
          (fun w => (Ok tt, w))
          (fun w => (Ok tt, S w)).

Definition start : fit_state nat nat := MkState 0%nat [] None true [].

(** The states after the setup with one callback of the user, and after
    one batch from there. *)
Definition after_setup : fit_state nat nat :=
  Eval vm_compute in
    snd (_setup_train_info model [7%nat] true (Some [noop "Callback" 2]) start).

Definition after_batch : fit_state nat nat :=
  Eval vm_compute in snd (fit_batch model 7%nat after_setup).
End Toy.

(* ===================================================================== *)
(** * The vocabulary of the statements *)
(* ===================================================================== *)

(** ** Topology *)

(** Two values have the same topology when their level structures are
    equal: [x.to_levels() == y.to_levels()]. *)
Definition same_topology (x y : value) : Prop :=
  tuple_levels x 0 = tuple_levels y 0.

Definition all_same_topology (xs : list value) : Prop :=
  forall x y, In x xs -> In y xs -> same_topology x y.

(** The structural reading: the same arity at every node. *)
#[local] Unset Elimination Schemes.
Inductive same_shape : value -> value -> Prop :=
| same_shape_leaf x y :
    is_container x = false -> is_container y = false -> same_shape x y
| same_shape_node xs ys :
    Forall2 same_shape xs ys -> same_shape (Tuple xs) (Tuple ys).
#[local] Set Elimination Schemes.

(** ** The seed of [reduce_tuple] *)

(** The statement to be examined: with [init_func] the seed is [init_func]
    applied leaf-wise to the first element, whatever that element is. *)
Definition seeds_leafwise {B : Backend} (func : value -> value -> result value)
           (init : value -> result value) (x : value) (rest : list value) : Prop :=
  Tuple_reduce (Tuple (x :: rest)) func (Some init)
  = (seed <- apply_tuple init x ;; foldM (reduce_rec func) (x :: rest) seed).

(** ** The result of [astype] without arrays *)

(** No leaf of [data] is a tensor or an array. *)
Fixpoint no_arrays (data : value) : bool :=
  match data with
  | Tuple xs => forallb no_arrays xs
  | Tensor _ | Ndarray _ => false
  | _ => true
  end.

(** [data] with, in the place of every leaf, the RuntimeError instance
    that [astype] builds for it. *)
Fixpoint astype_errors (data : value) : value :=
  match data with
  | Tuple xs => Tuple (map astype_errors xs)
  | _ => PyExc (Exn RuntimeError (astype_message data))
  end.

(** ** Traces of the training loop *)

Section Traces.
Variables World Data : Type.

(** The two events that report a stop signal. *)
Definition is_signal (e : event Data) : bool :=
  match e with
  | EvReturn BeforeStep true | EvReturn OnEpochEnd true => true
  | _ => false
  end.

(** A stretch of the trace in which no stop signal is reported. *)
Definition quiet (evs : list (event Data)) : Prop :=
  forall e, In e evs -> is_signal e = false.

(** [s'] is [s] after the events [evs], with the same callback list. *)
Definition extends (s s' : fit_state World Data) (evs : list (event Data)) : Prop :=
  trace s' = trace s ++ evs /\ callbacks s' = callbacks s.

(** The run was aborted on a stop signal of [before_step], which is the
    last event. *)
Definition aborted {A : Type} (r : result A) (evs : list (event Data)) : Prop :=
  r = Raise stop_signal_error
  /\ exists pre, evs = pre ++ [EvReturn BeforeStep true] /\ quiet pre.

(** The run ended on a stop signal of [on_epoch_end], which is the last
    event, and returned [a]. *)
Definition stopped {A : Type} (a : A) (r : result A) (evs : list (event Data))
  : Prop :=
  r = Ok a
  /\ exists pre, evs = pre ++ [EvReturn OnEpochEnd true] /\ quiet pre.

(** The events of the calls of hook [h] on the entries [cbs], in order. *)
Definition hook_calls (h : hook) (cbs : list (Callback World)) : list (event Data) :=
  map (fun c => EvHook h (cb_id c)) cbs.

End Traces.

Arguments is_signal {Data} e.
Arguments quiet {Data} evs.
Arguments extends {World Data} s s' evs.
Arguments aborted {Data A} r evs.
Arguments stopped {Data A} a r evs.
Arguments hook_calls {World Data} h cbs.

(** ** Runs without signals and errors *)

Section RunEvents.
Variables World Data : Type.

(** A callback none of whose hooks raises or gives a stop signal, and a
    model none of whose operations raises. *)
Definition calm_callback (c : Callback World) : Prop :=
  forall (h : hook) (w : World), exists w', cb_hook c h w = (Ok false, w').

Definition calm_model (self : Model World Data) : Prop :=
  (forall w, exists w', optimizer_zero_grad self w = (Ok tt, w'))
  /\ (forall data w, exists w', compute_loss self data w = (Ok tt, w'))
  /\ (forall w, exists w', batch_loss_backward self w = (Ok tt, w'))
  /\ (forall w, exists w', optimizer_step self w = (Ok tt, w')).

(** The events of one batch, of one epoch and of a whole run of [epochs]
    epochs, with the callbacks [reg], when nothing raises and no hook
    gives a signal. *)
Definition batch_events (reg : list (Callback World)) (data : Data)
  : list (event Data) :=
  [EvZeroGrad; EvComputeLoss data; EvBackward]
    ++ hook_calls BeforeStep reg
    ++ [EvReturn BeforeStep false; EvOptimStep]
    ++ hook_calls OnBatchEnd reg
    ++ [EvReturn OnBatchEnd false].

Definition epoch_events (reg : list (Callback World)) (dataloader : list Data)
  : list (event Data) :=
  flat_map (batch_events reg) dataloader
    ++ hook_calls OnEpochEnd reg
    ++ [EvReturn OnEpochEnd false].

Definition run_events (reg : list (Callback World)) (dataloader : list Data)
           (epochs : nat) : list (event Data) :=
  hook_calls GiveModel reg
    ++ [EvReturn GiveModel false]
    ++ hook_calls OnFitStart reg
    ++ [EvReturn OnFitStart false]
    ++ List.concat (repeat (epoch_events reg dataloader) epochs).

Definition is_optim_step (e : event Data) : bool :=
  match e with
  | EvOptimStep => true
  | _ => false
  end.

(** No optimizer step among the events. *)
Definition stepless (evs : list (event Data)) : Prop :=
  forall e, In e evs -> is_optim_step e = false.

(** Every step of the optimizer comes right after a return of
    [before_step] without stop signal. *)
Definition guarded (evs : list (event Data)) : Prop :=
  forall pre post,
    evs = pre ++ EvOptimStep :: post ->
    exists pre', pre = pre' ++ [EvReturn BeforeStep false].

(** The same of events that, in addition, do not begin with a step: this
    is kept when runs are put in sequence. *)
Definition step_inv (evs : list (event Data)) : Prop :=
  guarded evs
  /\ match evs with
     | e :: _ => is_optim_step e = false
     | [] => True
     end.

(** Whatever its outcome, [m] adds events that satisfy [step_inv]. *)
Definition keeps_guard {A : Type} (m : M World Data A) : Prop :=
  forall s r s',
    m s = (r, s') -> exists evs, trace s' = trace s ++ evs /\ step_inv evs.

(** The state [s] with the world [w] and the events [evs] added. *)
Definition after (s : fit_state World Data) (w : World) (evs : list (event Data))
  : fit_state World Data :=
  MkState w (callbacks s) (batches_per_epoch s) (log_verbose s) (trace s ++ evs).

(** [m] returns [a] from [s], adding the events [evs]. *)
Definition runs {A : Type} (m : M World Data A) (s : fit_state World Data)
           (a : A) (evs : list (event Data)) : Prop :=
  exists w', m s = (Ok a, after s w' evs).

End RunEvents.

Arguments is_optim_step {Data} e.
Arguments stepless {Data} evs.
Arguments guarded {Data} evs.
Arguments step_inv {Data} evs.

(** ** Aggregates *)

(** A pointwise relation between two lists, usable inside a recursive
    definition over [value]. *)
Section All2.
Context {A C : Type} (R : A -> C -> Prop).

Fixpoint all2 (l : list A) (l' : list C) : Prop :=
  match l, l' with
  | [], [] => True
  | a :: r, c :: r' => R a c /\ all2 r r'
  | _, _ => False
  end.

End All2.

(** A value that [tuplefy] would convert: a list, a tuple or a Tuple. *)
Definition is_convertible (v : value) : bool :=
  in_types (type_ v) (default_types ++ [TyTuple]).

(** A tree of Tuples, none of them empty, over leaves that are neither
    lists nor tuples. *)
Fixpoint proper (v : value) : bool :=
  match v with
  | Tuple xs => negb (Nat.eqb (List.length xs) 0) && forallb proper xs
  | _ => negb (is_convertible v)
  end.

(** What [agg_list] starts from: the first element with an empty list in
    the place of every leaf. *)
Fixpoint blank (sk : value) : value :=
  match sk with
  | Tuple xs => Tuple (map blank xs)
  | _ => PyList []
  end.

(** The elements that an aggregate holds, read back: the lists at the
    leaves, zipped into Tuples node by node. *)
Fixpoint unagg (agg : value) : list value :=
  match agg with
  | Tuple aggs => map Tuple (zip_star (map unagg aggs))
  | PyList l => l
  | _ => []
  end.

(** [acc] is an aggregate of [n] elements over the skeleton [sk]: a Tuple
    where [sk] has a (non-empty) Tuple, and where [sk] has a leaf a list of
    [n] values that are neither lists nor tuples. *)
Fixpoint wf_agg (n : nat) (sk acc : value) {struct sk} : Prop :=
  match sk with
  | Tuple sks =>
      match acc with
      | Tuple accs => sks <> [] /\ all2 (wf_agg n) sks accs
      | _ => False
      end
  | _ =>
      match acc with
      | PyList l =>
          List.length l = n /\ Forall (fun v => is_convertible v = false) l
      | _ => False
      end
  end.

(** The columns [cols] extended by one value each. *)
Fixpoint snoc_cols (cols : list (list value)) (vs : list value)
  : list (list value) :=
  match cols, vs with
  | c :: cs, v :: vs' => (c ++ [v]) :: snoc_cols cs vs'
  | _, _ => []
  end.

(** ** Leaves *)

(** The leaves of a value, from left to right: everything that is not a
    Tuple is a leaf. *)
Fixpoint leaves (v : value) : list value :=
  match v with
  | Tuple xs => flat_map leaves xs
  | _ => [v]
  end.

(** The error that [apply_tuple(func)(data)] raises when [func] raises
    [e]: the calls on the elements of a container are made inside
    generator expressions, which replace a StopIteration. *)
Definition apply_error (data : value) (e : exn) : exn :=
  if is_container data then generator_error e else e.

(** A function that gives no Tuple on the leaves [l]. *)
Definition keeps_leaves (f : value -> result value) (l : list value) : Prop :=
  forall x y, In x l -> f x = Ok y -> is_container y = false.

(** The leaves as [tuplefy] sees them: lists and builtin tuples are read
    through as well. *)
Fixpoint deep_leaves (v : value) : list value :=
  match v with
  | Tuple xs | PyList xs | PyTuple xs => flat_map deep_leaves xs
  | _ => [v]
  end.

(** No leaf is a list or a builtin tuple. *)
Definition tuplefied (v : value) : bool :=
  forallb (fun x => negb (in_types (type_ x) default_types)) (leaves v).

(** The length of the shortest of the lists. *)
Fixpoint shortest {A : Type} (ls : list (list A)) : nat :=
  match ls with
  | [] => O
  | l :: rest =>
      match rest with
      | [] => List.length l
      | _ :: _ => Nat.min (List.length l) (shortest rest)
      end
  end.

(** The leaves as [numpy_to_tensor] of [pyth/base.py] sees them: lists and
    builtin tuples are read through, a Tuple is not. *)
Fixpoint list_leaves (v : value) : list value :=
  match v with
  | PyList xs | PyTuple xs => flat_map list_leaves xs
  | _ => [v]
  end.

(** No builtin tuple is left, at any depth reached through lists. *)
Fixpoint only_lists (v : value) : bool :=
  match v with
  | PyList xs => forallb only_lists xs
  | PyTuple _ => false
  | _ => true
  end.

(** A function that gives no Tuple at all, of one and of two arguments. *)
Definition gives_no_tuple (f : value -> result value) : Prop :=
  forall a b, f a = Ok b -> is_container b = false.

Definition gives_no_tuple2 (func : value -> value -> result value) : Prop :=
  forall a b r, func a b = Ok r -> is_container r = false.

(* ===================================================================== *)
(** * Properties *)
(* ===================================================================== *)

(** ** Flattening *)

Lemma flatten_pass_flat (xs : list value) :
  forallb (fun x => negb (is_container x)) xs = true -> flatten_pass xs = xs.
Proof.
  unfold flatten_pass. induction xs as [|x r IH]; [reflexivity|].
  cbn [forallb map List.concat]. rewrite andb_true_iff. intros [Hx Hr].
  rewrite (IH Hr).
  destruct x as [ys| | | | | | |[c m]| | |]; try reflexivity.
  discriminate Hx.
Qed.

Lemma flatten_tuple_is_flat (x : value) : is_flat (flatten_tuple x) = true.
Proof.
  funelim (flatten_tuple x); try reflexivity.
  - (* the pass gave a flat Tuple *) assumption.
  - (* another round *) assumption.
Qed.

Lemma flatten_tuple_flat (x : value) :
  is_flat x = true -> flatten_tuple x = x.
Proof.
  funelim (flatten_tuple x); intros Hflat; try reflexivity.
  - cbn [is_flat] in Hflat. now rewrite (flatten_pass_flat _ Hflat).
  - exfalso. cbn [is_flat] in Hflat.
    assert (Hf : is_flat (Tuple (flatten_pass xs)) = true)
      by (rewrite (flatten_pass_flat _ Hflat); exact Hflat).
    congruence.
Qed.

(** C8: [flatten_tuple] is a total function (its recursion is well founded
    on the nesting depth); its result is flat; flattening twice is
    flattening once; and a flat container is returned as it is. *)
Theorem flatten_tuple_idempotent (x : value) :
  is_flat (flatten_tuple x) = true
  /\ flatten_tuple (flatten_tuple x) = flatten_tuple x
  /\ (is_flat x = true -> flatten_tuple x = x).
Proof.
  split; [apply flatten_tuple_is_flat|].
  split; [|apply flatten_tuple_flat].
  apply flatten_tuple_flat, flatten_tuple_is_flat.
Qed.

Lemma flatten_tuple_idempotent_witness :
  let x := Tuple [PyInt 1; Toy.a1; PyList [PyInt 2]] in
  is_flat x = true /\ flatten_tuple x = x.
Proof.
  split; [reflexivity|].
  apply (proj2 (proj2 (flatten_tuple_idempotent _))). reflexivity.
Defined.

(** Each round of [flatten_tuple] on a container that is not flat lowers
    the nesting depth by one. *)
Lemma flatten_pass_decreases (xs : list value) :
  is_flat (Tuple xs) = false ->
  (nesting (Tuple (flatten_pass xs)) < nesting (Tuple xs))%nat.
Proof.
  intros Hnf. cbn [nesting]. rewrite flatten_pass_nesting.
  destruct (list_max (map nesting xs)) as [|n] eqn:E; [|cbn; lia].
  apply is_flat_nesting in E. congruence.
Qed.

(** ** [tuplefy] *)

Lemma tuplefy_sub_idempotent (x : value) :
  tuplefy_sub (tuplefy_sub x) = tuplefy_sub x.
Proof.
  induction x using value_ind_nested; cbn [tuplefy_sub]; try reflexivity;
    f_equal; rewrite map_map; apply map_ext_Forall; assumption.
Qed.

Section TuplefyFacts.
Context {B : Backend}.

(** With the default [types], [tuplefy] never raises and is the
    function of its recursive calls. *)
Lemma tuplefy_default (x : value) :
  tuplefy x default_types = Ok (tuplefy_sub x).
Proof.
  destruct x as [ys| | | | | | |[c m]| | |]; reflexivity.
Qed.

(** For any [types]: a second conversion changes nothing. *)
Lemma tuplefy_types_idempotent (x y : value) (types : list pytype) :
  tuplefy x types = Ok y -> tuplefy y types = Ok y.
Proof.
  unfold tuplefy.
  destruct (in_types (type_ x) (types ++ [TyTuple])) eqn:E.
  - destruct (iter_ x) as [xs|e]; cbn [bind]; [|discriminate].
    intros [= <-].
    assert (Hin : in_types TyTuple (types ++ [TyTuple]) = true).
    { unfold in_types. rewrite existsb_app. cbn. apply orb_true_r. }
    cbn [type_]. rewrite Hin. cbn [iter_ bind]. do 2 f_equal.
    rewrite map_map. apply map_ext. intros a. apply tuplefy_sub_idempotent.
  - intros [= <-]. now rewrite E.
Qed.

(** C9: [tuplefy] (with its default [types]) returns for every value, a
    second application returns the same result, and a value whose class
    is not list, tuple or Tuple is returned unchanged. *)
Theorem tuplefy_idempotent :
  (forall x : value, exists y : value,
      tuplefy x default_types = Ok y /\ tuplefy y default_types = Ok y)
  /\ (forall x : value,
         in_types (type_ x) (default_types ++ [TyTuple]) = false ->
         tuplefy x default_types = Ok x).
Proof.
  split.
  - intros x. exists (tuplefy_sub x). split; [apply tuplefy_default|].
    rewrite tuplefy_default. f_equal. apply tuplefy_sub_idempotent.
  - intros x Hx. unfold tuplefy. now rewrite Hx.
Qed.
End TuplefyFacts.

Lemma tuplefy_idempotent_witness :
  in_types (type_ Toy.a1) (default_types ++ [TyTuple]) = false
  /\ tuplefy (B := Toy.backend) Toy.a1 default_types = Ok Toy.a1.
Proof.
  split; [reflexivity|].
  apply (proj2 (tuplefy_idempotent (B := Toy.backend))). reflexivity.
Defined.

(** ** Topology and the check of [reduce_tuple] *)

Lemma tuple_levels_not_leaf_object (x : value) (l : Z) :
  is_leaf_object (tuple_levels x l) = false.
Proof. destruct x; reflexivity. Qed.

Lemma tuple_levels_leaf (v : value) (l : Z) :
  is_container v = false -> tuple_levels v l = PyInt l.
Proof. destruct v as [ys| | | | | | |[c m]| | |]; cbn; congruence. Qed.

Lemma tuple_levels_node (xs : list value) (v : value) (l : Z) :
  tuple_levels (Tuple xs) l = tuple_levels v l ->
  exists vs, v = Tuple vs
             /\ map (fun s => tuple_levels s (l + 1)) xs
                = map (fun s => tuple_levels s (l + 1)) vs.
Proof.
  destruct v as [vs| | | | | | |[c m]| | |]; cbn; try discriminate.
  intros [= H]. now exists vs.
Qed.

(** Equal level structures, at any starting level, say exactly that the
    two values have the same arity at every node. *)
Lemma same_shape_levels (x : value) :
  forall (y : value) (l : Z),
    same_shape x y <-> tuple_levels x l = tuple_levels y l.
Proof.
  induction x as [xs IH| | | | | | | | | |] using value_ind_nested;
    intros y l;
    try (split;
         [ intros Hsh; inversion Hsh as [? ? _ Hy|]; subst;
           cbn [tuple_levels]; now rewrite (tuple_levels_leaf _ _ Hy)
         | cbn [tuple_levels]; intros Hlv; apply same_shape_leaf;
           [reflexivity | destruct y; [discriminate Hlv | reflexivity ..]] ]).
  split.
  - intros H. inversion H as [? ? Hx _|? ys Hall]; subst; [discriminate Hx|].
    cbn [tuple_levels]. f_equal. clear H.
    revert ys Hall. induction IH as [|x xs Hx _ IHxs]; intros ys Hall;
      inversion Hall as [|? y ? ys' Hxy Hrest]; subst; [reflexivity|].
    cbn [map]. f_equal; [now apply Hx | now apply IHxs].
  - intros H. apply tuple_levels_node in H. destruct H as (ys & -> & Hmap).
    apply same_shape_node.
    revert ys Hmap. induction IH as [|x xs Hx _ IHxs]; intros [|y ys] Hmap;
      try discriminate Hmap; [constructor|].
    injection Hmap as Hh Ht.
    constructor; [now apply (Hx y (l + 1)) | now apply IHxs].
Qed.

Section TopologyFacts.
Context {B : Backend}.

Lemma eq_bool_levels (x : value) :
  forall (y : value) (l l' : Z),
  exists b : bool,
    eq_bool (tuple_levels x l) (tuple_levels y l') = Ok b
    /\ (b = true <-> tuple_levels x l = tuple_levels y l').
Proof.
  induction x as [xs IH| | | | | | | | | |] using value_ind_nested; intros y l l';
    try (destruct y as [ys| | | | | | | | | |]; cbn;
         [ exists false; split; [reflexivity | split; discriminate]
         | exists (l =? l');
           (split; [reflexivity
                   | rewrite Z.eqb_eq; split; [intros ->; reflexivity
                                              | intros [= ->]; reflexivity]]) .. ]).
  destruct y as [ys| | | | | | | | | |];
    try (cbn; exists false; split; [reflexivity | split; discriminate]).
  cbn [tuple_levels eq_bool is_leaf_object].
  revert ys. induction IH as [|x xs Hx _ IHxs]; intros [|y ys]; cbn [map].
  - exists true. split; [reflexivity | tauto].
  - exists false. split; [reflexivity | split; discriminate].
  - exists false. split; [reflexivity | split; discriminate].
  - destruct (Hx y (l + 1) (l' + 1)) as [b [Hb Hbeq]].
    rewrite Hb. cbn [bind]. destruct b.
    + destruct (IHxs ys) as [b' [Hb' Hbeq']]. exists b'. split; [exact Hb'|].
      rewrite Hbeq'. destruct Hbeq as [Hb1 _]. specialize (Hb1 eq_refl).
      split; [intros [= Hm]; now rewrite Hb1, Hm | intros [= _ Hm]; now rewrite Hm].
    + exists false. split; [reflexivity|]. split; [discriminate|].
      intros [= Hh _]. apply Hbeq in Hh. discriminate.
Qed.

Lemma py_eq_levels (x y : value) (l l' : Z) :
  exists b : bool,
    py_eq (tuple_levels x l) (tuple_levels y l') = Ok (PyBool b)
    /\ (b = true <-> tuple_levels x l = tuple_levels y l').
Proof.
  unfold py_eq. rewrite !tuple_levels_not_leaf_object. cbn [orb].
  destruct (eq_bool_levels x y l l') as [b [Hb Hbeq]].
  exists b. now rewrite Hb.
Qed.

Lemma is_flat_bools (bs : list bool) : is_flat (Tuple (map PyBool bs)) = true.
Proof. cbn. induction bs; [reflexivity | assumption]. Qed.

Lemma allM_truthy_bools (bs : list bool) :
  allM truthy (map PyBool bs) = Ok (forallb (fun b => b) bs).
Proof.
  induction bs as [|b r IH]; [reflexivity|].
  cbn [map allM truthy bind forallb]. destruct b; [exact IH | reflexivity].
Qed.

Lemma mapM_eq_levels (d : value) (xs : list value) :
  exists bs : list bool,
    mapM (fun x => py_eq x (tuple_levels d 0))
         (map (fun sub => tuple_levels sub 0) xs) = Ok (map PyBool bs)
    /\ (forallb (fun b => b) bs = true
        <-> forall x, In x xs -> same_topology x d).
Proof.
  induction xs as [|x r [bs [Hbs Hall]]].
  - exists []. split; [reflexivity|]. cbn. split; [intros _ x []|reflexivity].
  - destruct (py_eq_levels x d 0 0) as [b [Hb Hbeq]].
    exists (b :: bs). cbn [map mapM bind]. rewrite Hb. cbn [bind].
    rewrite Hbs. cbn [bind]. split; [reflexivity|].
    cbn [forallb]. rewrite andb_true_iff, Hall, Hbeq. unfold same_topology.
    split.
    + intros [Hx Hr] z [<-|Hz]; [exact Hx | now apply Hr].
    + intros H. split; [apply H; now left | intros z Hz; apply H; now right].
Qed.

(** The topology check of [reduce_tuple]: it returns, and its answer is
    whether all the top-level elements have the same topology. *)
Lemma all_equal_levels (xs : list value) :
  exists b : bool,
    all_equal (Tuple (map (fun sub => tuple_levels sub 0) xs)) = Ok b
    /\ (b = true <-> all_same_topology xs).
Proof.
  destruct xs as [|d r].
  - exists true. split; [reflexivity|]. split; [intros _ x y []|reflexivity].
  - destruct (mapM_eq_levels d (d :: r)) as [bs [Hbs Hall]].
    exists (forallb (fun b => b) bs). split.
    + unfold all_equal, Tuple_apply_nrec. cbn [Tuple_items bind].
      change (getitem (Tuple (map (fun sub => tuple_levels sub 0) (d :: r))) 0)
        with (Ok (A := value) (tuple_levels d 0)).
      cbn [bind]. rewrite Hbs. cbn [in_generator bind]. unfold Tuple_all.
      cbn [Tuple_items bind].
      rewrite is_flat_bools. cbn [negb]. apply allM_truthy_bools.
    + rewrite Hall. unfold all_same_topology, same_topology. split.
      * intros H x y Hx Hy. rewrite (H x Hx), (H y Hy). reflexivity.
      * intros H x Hx. apply H; [exact Hx | now left].
Qed.

Lemma reduce_tuple_check (func : value -> value -> result value)
      (init_func : option (value -> result value)) (xs : list value) :
  exists b : bool,
    (b = true <-> all_same_topology xs)
    /\ reduce_tuple func init_func (Tuple xs)
       = if b then reduce_fold func init_func (Tuple xs)
         else Raise topology_error.
Proof.
  destruct (all_equal_levels xs) as [b [Hb Hbeq]].
  exists b. split; [exact Hbeq|].
  unfold reduce_tuple, Tuple_to_levels, Tuple_all_equal.
  cbn [Tuple_items bind tuple_levels].
  change (-1 + 1) with 0. rewrite Hb. cbn [bind]. now destruct b.
Qed.

Lemma Tuple_reduce_same_topology (func : value -> value -> result value)
      (init_func : option (value -> result value)) (xs : list value) :
  all_same_topology xs ->
  Tuple_reduce (Tuple xs) func init_func = reduce_fold func init_func (Tuple xs).
Proof.
  intros H. destruct (reduce_tuple_check func init_func xs) as [b [Hb Hr]].
  unfold Tuple_reduce. cbn [Tuple_items bind]. rewrite Hr.
  apply Hb in H. now rewrite H.
Qed.

(** C6: when the top-level elements do not all have the same topology,
    [reduce] raises the validation error, whatever [func] and [init_func]
    are (so before either is applied); when they all have the same topology
    the check passes and the result is that of the fold. *)
Theorem reduce_tuple_topology (func : value -> value -> result value)
        (init_func : option (value -> result value)) (xs : list value) :
  (~ all_same_topology xs ->
   Tuple_reduce (Tuple xs) func init_func = Raise topology_error)
  /\ (all_same_topology xs ->
      Tuple_reduce (Tuple xs) func init_func
      = reduce_fold func init_func (Tuple xs)).
Proof.
  destruct (reduce_tuple_check func init_func xs) as [b [Hb Hr]].
  unfold Tuple_reduce. cbn [Tuple_items bind]. rewrite Hr.
  destruct b; split; intros H; try reflexivity.
  - exfalso. apply H, Hb. reflexivity.
  - apply Hb in H. discriminate.
Qed.
End TopologyFacts.

Lemma reduce_tuple_topology_witness :
  (~ all_same_topology [Tuple [PyInt 1]; PyInt 2]
   /\ Tuple_reduce (B := Toy.backend) (Tuple [Tuple [PyInt 1]; PyInt 2])
                   Toy.add None
      = Raise topology_error)
  /\ (all_same_topology [PyInt 1; PyInt 2]
      /\ Tuple_reduce (B := Toy.backend) (Tuple [PyInt 1; PyInt 2]) Toy.add None
         = Ok (PyInt 3)).
Proof.
  assert (H1 : ~ all_same_topology [Tuple [PyInt 1]; PyInt 2]).
  { intros H.
    specialize (H _ _ (or_introl eq_refl) (or_intror (or_introl eq_refl))).
    discriminate H. }
  assert (H2 : all_same_topology [PyInt 1; PyInt 2]).
  { intros x y [<-|[<-|[]]] [<-|[<-|[]]]; reflexivity. }
  split; split; try assumption.
  - exact (proj1 (reduce_tuple_topology (B := Toy.backend) Toy.add None _) H1).
  - rewrite (proj2 (reduce_tuple_topology (B := Toy.backend) Toy.add None _) H2).
    reflexivity.
Defined.

(** ** The seed and the range of the fold in [reduce_tuple] *)

(** C10, as stated, fails on a flat container: the seed is built by the
    method call [data[0].apply(init_func)], and an array has no such
    method. Counting the elements of [(a1, b1)] from the seed 0 would give
    2; the call raises instead. *)
Lemma reduce_seed_counterexample :
  all_same_topology [Toy.a1; Toy.b1]
  /\ Tuple_reduce (B := Toy.backend) (Tuple [Toy.a1; Toy.b1])
                  Toy.count_one (Some Toy.zero)
     = Raise (no_attribute Toy.a1 "apply")
  /\ (seed <- apply_tuple Toy.zero Toy.a1 ;;
      foldM (reduce_rec (B := Toy.backend) Toy.count_one) [Toy.a1; Toy.b1] seed)
     = Ok (PyInt 2)
  /\ ~ seeds_leafwise (B := Toy.backend) Toy.count_one Toy.zero Toy.a1 [Toy.b1].
Proof.
  split; [|split; [|split]].
  - intros x y [<-|[<-|[]]] [<-|[<-|[]]]; reflexivity.
  - reflexivity.
  - reflexivity.
  - unfold seeds_leafwise. discriminate.
Defined.

Section ReduceFacts.
Context {B : Backend}.

(** C10 (amended): for a container of same-topology elements [x :: rest],
    with [init_func] and a first element that is itself a container the
    seed is [init_func] applied leaf-wise to [x] and [func] is folded over
    all the elements, [x] included; without [init_func] the seed is [x] and
    [func] is folded over [rest] only. *)
Theorem reduce_tuple_seed (func : value -> value -> result value)
        (init : value -> result value) (x : value) (rest : list value) :
  all_same_topology (x :: rest) ->
  (is_container x = true ->
   Tuple_reduce (Tuple (x :: rest)) func (Some init)
   = (seed <- apply_tuple init x ;; foldM (reduce_rec func) (x :: rest) seed))
  /\ Tuple_reduce (Tuple (x :: rest)) func None
     = foldM (reduce_rec func) rest x.
Proof.
  intros Hsame. split.
  - intros Hx. apply is_container_spec in Hx. destruct Hx as [ys ->].
    rewrite (Tuple_reduce_same_topology func (Some init) Hsame).
    reflexivity.
  - rewrite (Tuple_reduce_same_topology func None Hsame).
    reflexivity.
Qed.
End ReduceFacts.

(** Counting shows the range of the fold: from the seed 0 both elements
    are counted; without [init_func] the first element is the seed and only
    the second is counted. *)
Lemma reduce_tuple_seed_witness :
  Tuple_reduce (B := Toy.backend)
               (Tuple [Tuple [PyInt 1; PyInt 2]; Tuple [PyInt 3; PyInt 4]])
               Toy.count_one (Some Toy.zero)
  = Ok (Tuple [PyInt 2; PyInt 2])
  /\ Tuple_reduce (B := Toy.backend)
                  (Tuple [Tuple [PyInt 1; PyInt 2]; Tuple [PyInt 3; PyInt 4]])
                  Toy.count_one None
     = Ok (Tuple [PyInt 2; PyInt 3]).
Proof.
  assert (Hsame : all_same_topology
                    [Tuple [PyInt 1; PyInt 2]; Tuple [PyInt 3; PyInt 4]]).
  { intros u v [<-|[<-|[]]] [<-|[<-|[]]]; reflexivity. }
  destruct (reduce_tuple_seed (B := Toy.backend) Toy.count_one Toy.zero Hsame)
    as [Hinit Hnone].
  split.
  - rewrite (Hinit eq_refl). reflexivity.
  - rewrite Hnone. reflexivity.
Defined.

(** ** [cat] and [astype] *)

Section CatFacts.
Context {B : Backend}.

(** The function [cat] rejects every axis but 0. *)
Lemma cat_dim_not_implemented (seq : value) (dim : Z) :
  dim <> 0 -> cat seq dim = Raise (Exn NotImplementedError "").
Proof.
  intros Hdim. unfold cat. apply Z.eqb_neq in Hdim. now rewrite Hdim.
Qed.

(** The method [Tuple.cat] does not look at its [dim]. *)
Lemma Tuple_cat_any_dim (self : value) (dim : Z) :
  Tuple_cat self dim = Tuple_cat self 0.
Proof. reflexivity. Qed.

(** For a leaf that is neither a tensor nor an array, [astype] returns
    normally, and what it returns is an exception instance. *)
Lemma astype_unsupported_leaf (data dtype : value) :
  in_types (type_ data) [TyTuple; TyTensor; TyNdarray] = false ->
  astype data dtype = Ok (PyExc (Exn RuntimeError (astype_message data))).
Proof.
  destruct data as [ys| | | | | | |[c m]| | |]; cbn; try discriminate;
    reflexivity.
Qed.
End CatFacts.

(** C3 (the code departs from it): [Tuple.cat] gives the same result for
    every [dim]; on a container of two arrays, called with [dim=1], it
    raises nothing and returns the concatenation along dimension 0, where
    the function [cat] called with the same [dim] raises
    NotImplementedError. *)
Theorem Tuple_cat_dim_ignored :
  (forall (B : Backend) (self : value) (dim : Z),
      Tuple_cat self dim = Tuple_cat self 0)
  /\ Tuple_cat (B := Toy.backend) (Tuple [Tuple [Toy.a1]; Tuple [Toy.b1]]) 1
     = Ok (Tuple [Toy.a1b1])
  /\ cat (B := Toy.backend) (Tuple [Tuple [Toy.a1]; Tuple [Toy.b1]]) 1
     = Raise (Exn NotImplementedError "").
Proof.
  split; [|split].
  - intros B self dim. apply Tuple_cat_any_dim.
  - vm_compute. reflexivity.
  - apply cat_dim_not_implemented. discriminate.
Qed.

(** C4 (the code departs from it): on a container without any tensor or
    array, [astype] raises nothing; it returns the container with a
    RuntimeError instance in the place of every leaf, as an ordinary
    element. *)
Theorem astype_returns_the_error (B : Backend) (data dtype : value) :
  no_arrays data = true ->
  astype data dtype = Ok (astype_errors data).
Proof.
  induction data as [xs IH| | | | | | | | | |] using value_ind_nested;
    intros Hno; try reflexivity; try discriminate Hno.
  unfold astype in *. cbn [apply_tuple astype_errors no_arrays] in *.
  assert (H : mapM (apply_tuple (astype_leaf dtype)) xs
              = Ok (map astype_errors xs)).
  { induction IH as [|x r Hx _ IHr]; [reflexivity|].
    cbn [forallb] in Hno. apply andb_true_iff in Hno. destruct Hno as [H1 H2].
    cbn [mapM map]. now rewrite (Hx H1), (IHr H2). }
  now rewrite H.
Qed.

Lemma astype_returns_the_error_witness :
  astype (B := Toy.backend) (Tuple [PyInt 5; Tuple [PyBool true]]) Toy.float32
  = Ok (Tuple [PyExc (Exn RuntimeError (astype_message (PyInt 5)));
               Tuple [PyExc (Exn RuntimeError
                               (astype_message (PyBool true)))]]).
Proof.
  apply (astype_returns_the_error Toy.backend
           (Tuple [PyInt 5; Tuple [PyBool true]]) Toy.float32).
  reflexivity.
Defined.

(** Next to an array the same happens: the array is converted and the
    integer becomes an error value; the call returns. *)
Lemma astype_mixed :
  Tuple_astype (B := Toy.backend) (Tuple [PyInt 5; Toy.a1]) Toy.float32
  = Ok (Tuple [PyExc (Exn RuntimeError (astype_message (PyInt 5)));
               Ndarray (MkArray "float32" [2; 2] [1; 2; 3; 4])]).
Proof. reflexivity. Qed.

(** ** The names of the registry *)

Lemma string_length_append (a b : string) :
  String.length (a +++ b) = (String.length a + String.length b)%nat.
Proof. induction a as [|c a IH]; cbn; [reflexivity | now rewrite IH]. Qed.

Lemma string_append_inj (a b c : string) : a +++ b = a +++ c -> b = c.
Proof.
  induction a as [|x a IH]; cbn; [trivial|]. intros [= H]. now apply IH.
Qed.

Section RegistryFacts.
Variable handler : Type.
Variable class_name : handler -> string.
Import CallbackHandler.

Lemma has_key_In (r : registry handler) (name : string) :
  has_key r name = true <-> In name (keys r).
Proof.
  unfold CallbackHandler.has_key. rewrite existsb_exists. split.
  - intros [k [Hk Heq]]. apply String.eqb_eq in Heq. now subst.
  - intros H. exists name. split; [exact H | apply String.eqb_refl].
Qed.

Lemma suffixed_neq (base : string) (i : nat) :
  base +++ "_" +++ decimal i <> base.
Proof.
  intros H. apply (f_equal String.length) in H.
  rewrite !string_length_append in H. cbn in H. lia.
Qed.

Lemma decimal_inj (i j : nat) : decimal i = decimal j -> i = j.
Proof.
  unfold CallbackHandler.decimal. intros H.
  apply (f_equal NilEmpty.uint_of_string) in H.
  rewrite !NilEmpty.usu in H. injection H as H.
  apply (f_equal Nat.of_uint) in H. now rewrite !Unsigned.of_to in H.
Qed.

(** The candidates that [first_free] found taken. *)
Lemma first_free_spec (r : registry handler) (base : string) (fuel i : nat) :
  exists k : nat,
    first_free r base fuel i = base +++ "_" +++ decimal (i + k)
    /\ (k <= fuel)%nat
    /\ (forall j, (j < k)%nat -> In (base +++ "_" +++ decimal (i + j)) (keys r))
    /\ ((k < fuel)%nat -> ~ In (base +++ "_" +++ decimal (i + k)) (keys r)).
Proof.
  revert i. induction fuel as [|fuel IH]; intros i.
  - exists O. cbn. rewrite Nat.add_0_r.
    repeat split; [lia | intros j Hj; lia | intros H; lia].
  - cbn [CallbackHandler.first_free].
    destruct (has_key r (base +++ "_" +++ decimal i)) eqn:E.
    + destruct (IH (S i)) as [k [Hk [Hle [Hin Hfree]]]].
      exists (S k). rewrite Hk.
      replace (i + S k)%nat with (S i + k)%nat by lia.
      repeat split; [lia | | intros H; apply Hfree; lia].
      intros [|j] Hj.
      * rewrite Nat.add_0_r. now apply has_key_In.
      * replace (i + S j)%nat with (S i + j)%nat by lia. apply Hin. lia.
    + exists O. rewrite Nat.add_0_r.
      repeat split; [lia | intros j Hj; lia |].
      intros _ H. apply has_key_In in H. congruence.
Qed.

(** The derived name is never one of the registry: an unnamed handler can
    always be appended. *)
Lemma make_name_fresh (r : registry handler) (c : handler) :
  ~ In (make_name class_name r c) (keys r).
Proof.
  unfold CallbackHandler.make_name.
  destruct (has_key r (class_name c)) eqn:E.
  - destruct (first_free_spec r (class_name c) (List.length r) O)
      as [k [Hk [Hle [Hin Hfree]]]].
    rewrite Hk. cbn [Nat.add] in *.
    destruct (Nat.eq_dec k (List.length r)) as [->|Hne]; [|apply Hfree; lia].
    exfalso.
    set (cands := class_name c
                    :: map (fun j => class_name c +++ "_" +++ decimal j)
                           (seq 0 (List.length r))).
    assert (Hnd : NoDup cands).
    { constructor.
      - rewrite in_map_iff. intros [j [Hj _]]. now apply suffixed_neq in Hj.
      - apply Injective_map_NoDup; [|apply seq_NoDup].
        intros a b Hab. apply string_append_inj in Hab.
        apply string_append_inj in Hab. now apply decimal_inj. }
    assert (Hincl : incl cands (keys r)).
    { intros n [<-|Hn]; [now apply has_key_In|].
      apply in_map_iff in Hn. destruct Hn as [j [<- Hj]].
      apply in_seq in Hj. apply Hin. lia. }
    pose proof (NoDup_incl_length Hnd Hincl) as Hlen.
    unfold cands, CallbackHandler.keys in Hlen. cbn [List.length] in Hlen.
    rewrite !length_map, length_seq in Hlen. lia.
  - intros H. apply has_key_In in H. congruence.
Qed.

(** C5: two unnamed handlers of one class get the names [T] and [T_0], in
    that order, and the two names differ; [append] and item assignment
    under a name that is present raise the assertion error that quotes the
    name, and the registry stays as it was. *)
Theorem registry_naming :
  (forall c1 c2 : handler,
      class_name c1 = class_name c2 ->
      init class_name [c1; c2]
      = (Ok tt, [(class_name c1, c1); (class_name c1 +++ "_0", c2)])
      /\ class_name c1 <> class_name c1 +++ "_0")
  /\ (forall (r : registry handler) (name : string) (c : handler),
         In name (keys r) ->
         append class_name c (Some name) r = (Raise (duplicate_name name), r)
         /\ setitem class_name name c r = (Raise (duplicate_name name), r)
         /\ duplicate_name name
            = Exn AssertionError ("Duplicate name: " +++ name)).
Proof.
  split.
  - intros c1 c2 Hc.
    assert (Hneq : class_name c1 +++ "_0" <> class_name c1)
      by exact (@suffixed_neq (class_name c1) 0).
    split; [|congruence].
    unfold CallbackHandler.init, CallbackHandler.append_all,
      CallbackHandler.append, CallbackHandler.make_name.
    cbn [CallbackHandler.has_key CallbackHandler.keys map existsb app
         List.length CallbackHandler.first_free fst].
    rewrite <- Hc, String.eqb_refl. cbn [orb].
    change (decimal 0) with "0".
    apply String.eqb_neq in Hneq.
    change (class_name c1 +++ "_" +++ "0") with (class_name c1 +++ "_0").
    repeat (rewrite Hneq; cbn [orb]). reflexivity.
  - intros r name c Hin. apply has_key_In in Hin.
    unfold CallbackHandler.setitem, CallbackHandler.append.
    rewrite Hin. repeat split.
Qed.
End RegistryFacts.

Lemma registry_naming_witness :
  let c1 := Toy.noop "Callback" 0 in
  let c2 := Toy.noop "Callback" 1 in
  CallbackHandler.keys (snd (CallbackHandler.init (@cb_class nat) [c1; c2]))
  = ["Callback"; "Callback_0"]
  /\ CallbackHandler.append (@cb_class nat) c1 (Some "Callback_0")
       (snd (CallbackHandler.init (@cb_class nat) [c1; c2]))
     = (Raise (Exn AssertionError "Duplicate name: Callback_0"),
        [("Callback", c1); ("Callback_0", c2)]).
Proof.
  intros c1 c2.
  destruct (registry_naming (@cb_class nat)) as [Hinit Hdup].
  destruct (Hinit c1 c2 eq_refl) as [-> _].
  split; [reflexivity|].
  refine (proj1 (Hdup _ "Callback_0" c1 _)).
  right. left. reflexivity.
Defined.

(** ** The training loop *)

Section TrainingFacts.
Variables World Data : Type.

Lemma quiet_nil : quiet (Data := Data) [].
Proof. intros e []. Qed.

Lemma quiet_one (e : event Data) : is_signal e = false -> quiet [e].
Proof. intros H x [<-|[]]. exact H. Qed.

Lemma quiet_app (l l' : list (event Data)) :
  quiet l -> quiet l' -> quiet (l ++ l').
Proof.
  intros H H' e He. apply in_app_or in He. destruct He; [now apply H | now apply H'].
Qed.

Lemma quiet_hook_calls (h : hook) (cbs : list (Callback World)) :
  quiet (Data := Data) (hook_calls h cbs).
Proof.
  intros e He. apply in_map_iff in He. destruct He as [c [<- _]]. reflexivity.
Qed.

Lemma quiet_not_in (l : list (event Data)) (e : event Data) :
  quiet l -> is_signal e = true -> ~ In e l.
Proof. intros H He Hin. apply H in Hin. congruence. Qed.

Lemma extends_refl (s : fit_state World Data) : extends s s [].
Proof. split; [now rewrite app_nil_r | reflexivity]. Qed.

Lemma extends_trans (s s1 s2 : fit_state World Data) (l l' : list (event Data)) :
  extends s s1 l -> extends s1 s2 l' -> extends s s2 (l ++ l').
Proof.
  intros [Ht Hc] [Ht' Hc']. split; [|congruence].
  now rewrite Ht', Ht, app_assoc.
Qed.

Lemma bindM_inv {A C : Type} (m : M World Data A) (k : A -> M World Data C)
      (s s' : fit_state World Data) (r : result C) :
  bindM m k s = (r, s') ->
  (exists a s1, m s = (Ok a, s1) /\ k a s1 = (r, s'))
  \/ (exists e, m s = (Raise e, s') /\ r = Raise e).
Proof.
  unfold bindM. destruct (m s) as [[a|e] s1].
  - intros H. left. now exists a, s1.
  - intros [= <- <-]. right. now exists e.
Qed.

Lemma emit_spec (e : event Data) (s s' : fit_state World Data) (r : result unit) :
  emit e s = (r, s') -> r = Ok tt /\ extends s s' [e].
Proof. intros [= <- <-]. repeat split. Qed.

Lemma call_spec {A : Type} (e : event Data)
      (op : World -> result A * World) (s s' : fit_state World Data)
      (r : result A) :
  call e op s = (r, s') -> extends s s' [e].
Proof.
  unfold call, bindM. cbn. destruct (op (world s)) as [r0 w].
  intros [= <- <-]. split; reflexivity.
Qed.

Lemma apply_callbacks_spec (h : hook) (cbs : list (Callback World))
      (s s' : fit_state World Data) (r : result bool) :
  apply_callbacks h cbs s = (r, s') ->
  exists evs, extends s s' evs /\ quiet evs
              /\ (forall stop, r = Ok stop -> evs = hook_calls h cbs).
Proof.
  revert s s' r. induction cbs as [|c rest IH]; intros s s' r H.
  - injection H as <- <-. exists []. repeat split; try apply quiet_nil.
    now rewrite app_nil_r.
  - cbn [apply_callbacks] in H.
    apply bindM_inv in H. destruct H as [(a & s1 & H1 & H)|(e & H1 & ->)].
    + apply call_spec in H1.
      apply bindM_inv in H. destruct H as [(b & s2 & H2 & H)|(e & H2 & ->)].
      * destruct (IH _ _ _ H2) as (evs & Hext & Hq & Hev).
        injection H as <- <-.
        exists ([EvHook h (cb_id c)] ++ evs). split; [|split].
        -- eapply extends_trans; eassumption.
        -- apply quiet_app; [now apply quiet_one | exact Hq].
        -- intros stop _. cbn. f_equal. now apply (Hev b).
      * destruct (IH _ _ _ H2) as (evs & Hext & Hq & _).
        exists ([EvHook h (cb_id c)] ++ evs). split; [|split].
        -- eapply extends_trans; eassumption.
        -- apply quiet_app; [now apply quiet_one | exact Hq].
        -- discriminate.
    + apply call_spec in H1. exists [EvHook h (cb_id c)].
      split; [exact H1|]. split; [now apply quiet_one | discriminate].
Qed.

(** An aggregate call either returns its stop signal, after the hooks of
    all the entries in order and with the report of the signal as last
    event, or raises what an entry raised. *)
Lemma callbacks_hook_spec (h : hook) (s s' : fit_state World Data)
      (r : result bool) :
  callbacks_hook h s = (r, s') ->
  (exists stop, r = Ok stop
                /\ extends s s' (hook_calls h (callbacks s) ++ [EvReturn h stop]))
  \/ (exists e evs, r = Raise e /\ extends s s' evs /\ quiet evs).
Proof.
  unfold callbacks_hook. intros H.
  apply bindM_inv in H. destruct H as [(stop & s1 & H1 & H)|(e & H1 & ->)].
  - apply apply_callbacks_spec in H1. destruct H1 as (evs & Hext & _ & Hev).
    rewrite (Hev stop eq_refl) in Hext.
    apply bindM_inv in H. destruct H as [(u & s2 & H2 & H)|(e & H2 & ->)].
    + apply emit_spec in H2. destruct H2 as [_ H2]. injection H as <- <-.
      left. exists stop. split; [reflexivity|].
      eapply extends_trans; eassumption.
    + apply emit_spec in H2. destruct H2 as [H2 _]. discriminate.
  - apply apply_callbacks_spec in H1. destruct H1 as (evs & Hext & Hq & _).
    right. now exists e, evs.
Qed.

(** An aggregate call of a hook other than the two that can stop the run
    reports no stop signal. *)
Lemma callbacks_hook_quiet (h : hook) (s s' : fit_state World Data)
      (r : result bool) :
  h <> BeforeStep -> h <> OnEpochEnd ->
  callbacks_hook h s = (r, s') ->
  exists evs, extends s s' evs /\ quiet evs.
Proof.
  intros Hb He H. apply callbacks_hook_spec in H.
  destruct H as [(stop & _ & Hext)|(e & evs & _ & Hext & Hq)].
  - eexists. split; [exact Hext|].
    apply quiet_app; [apply quiet_hook_calls|]. apply quiet_one.
    destruct h, stop; try reflexivity; congruence.
  - now exists evs.
Qed.
Lemma aborted_prefix {A : Type} (r : result A) (l l' : list (event Data)) :
  quiet l -> aborted r l' -> aborted r (l ++ l').
Proof.
  intros Hq [Hr (pre & -> & Hpre)]. split; [exact Hr|].
  exists (l ++ pre). split; [apply app_assoc | now apply quiet_app].
Qed.

Lemma stopped_prefix {A : Type} (a : A) (r : result A) (l l' : list (event Data)) :
  quiet l -> stopped a r l' -> stopped a r (l ++ l').
Proof.
  intros Hq [Hr (pre & -> & Hpre)]. split; [exact Hr|].
  exists (l ++ pre). split; [apply app_assoc | now apply quiet_app].
Qed.

Ltac solve_quiet :=
  repeat first [ assumption
               | apply quiet_nil
               | apply quiet_hook_calls
               | now apply quiet_one
               | apply quiet_app ].

Ltac call_step H H1 s1 :=
  apply bindM_inv in H;
  destruct H as [(? & s1 & H1 & H)|(? & H1 & ->)];
  apply call_spec in H1.

(** The two branches of the loop, read off the code: a stop signal of
    [before_step] raises in the state that [before_step] left (the optimizer
    step is not run); a stop signal of [on_epoch_end] ends the loop over
    the epochs, whatever their number, without error. *)
Lemma fit_batch_stop (self : Model World Data) (data : Data)
      (s s3 s4 : fit_state World Data) :
  bindM (call EvZeroGrad (optimizer_zero_grad self))
        (fun _ => bindM (call (EvComputeLoss data) (compute_loss self data))
                        (fun _ => call EvBackward (batch_loss_backward self)))
        s
  = (Ok tt, s3) ->
  callbacks_hook BeforeStep s3 = (Ok true, s4) ->
  fit_batch self data s = (Raise stop_signal_error, s4).
Proof.
  unfold fit_batch, bindM. intros H3 H4.
  destruct (call EvZeroGrad (optimizer_zero_grad self) s) as [[[]|e1] s1];
    [|discriminate H3].
  destruct (call (EvComputeLoss data) (compute_loss self data) s1)
    as [[[]|e2] s2]; [|discriminate H3].
  destruct (call EvBackward (batch_loss_backward self) s2) as [[[]|e3] s3'];
    [|discriminate H3].
  injection H3 as ->. now rewrite H4.
Qed.

Lemma fit_epochs_stop (self : Model World Data) (dataloader : list Data)
      (epochs : nat) (s s1 s2 : fit_state World Data) :
  fit_batches self dataloader s = (Ok tt, s1) ->
  callbacks_hook OnEpochEnd s1 = (Ok true, s2) ->
  fit_epochs self dataloader (S epochs) s = (Ok tt, s2).
Proof.
  intros H1 H2. cbn [fit_epochs]. unfold bindM. now rewrite H1, H2.
Qed.

(** One batch: either no stop signal is reported (the batch completed, or
    an operation or a hook raised), or [before_step] reported one and the
    batch was aborted right there. *)
Lemma fit_batch_spec (self : Model World Data) (data : Data)
      (s s' : fit_state World Data) (r : result unit) :
  fit_batch self data s = (r, s') ->
  exists evs, extends s s' evs /\ (quiet evs \/ aborted r evs).
Proof.
  unfold fit_batch. intros H.
  call_step H H1 s1.
  2:{ eexists. split; [exact H1|]. left. solve_quiet. }
  call_step H H2 s2.
  2:{ eexists. split; [eapply extends_trans; eassumption|]. left.
      solve_quiet. }
  call_step H H3 s3.
  2:{ eexists. split; [do 2 (eapply extends_trans; try eassumption)|]. left.
      solve_quiet. }
  pose proof (extends_trans (extends_trans H1 H2) H3) as H123.
  assert (Hq3 : quiet (([EvZeroGrad] ++ [EvComputeLoss data]) ++ [EvBackward]))
    by solve_quiet.
  apply bindM_inv in H. destruct H as [(stop & s4 & H4 & H)|(e & H4 & ->)].
  - apply callbacks_hook_spec in H4.
    destruct H4 as [(stop' & [= <-] & Hext)|(e & evs & Hdisc & _)];
      [|discriminate].
    pose proof (extends_trans H123 Hext) as H1234.
    destruct stop.
    + injection H as <- <-. eexists. split; [exact H1234|]. right.
      apply aborted_prefix; [exact Hq3|]. split; [reflexivity|].
      eexists. split; [reflexivity | apply quiet_hook_calls].
    + assert (Hq4 : quiet (Data := Data) (hook_calls BeforeStep (callbacks s3)
                             ++ [EvReturn BeforeStep false]))
        by solve_quiet.
      call_step H H5 s5.
      2:{ eexists. split; [eapply extends_trans; eassumption|]. left.
          solve_quiet. }
      apply bindM_inv in H. destruct H as [(b & s6 & H6 & H)|(e & H6 & ->)].
      * apply callbacks_hook_quiet in H6; [|discriminate..].
        destruct H6 as (evs6 & H6 & Hq6). injection H as <- <-.
        eexists. split; [do 2 (eapply extends_trans; try eassumption)|]. left.
        solve_quiet.
      * apply callbacks_hook_quiet in H6; [|discriminate..].
        destruct H6 as (evs6 & H6 & Hq6).
        eexists. split; [do 2 (eapply extends_trans; try eassumption)|]. left.
        solve_quiet.
  - apply callbacks_hook_spec in H4.
    destruct H4 as [(stop' & Hdisc & _)|(e' & evs & _ & Hext & Hq)];
      [discriminate|].
    eexists. split; [eapply extends_trans; eassumption|]. left.
    now apply quiet_app.
Qed.

Lemma fit_batches_spec (self : Model World Data) (dataloader : list Data)
      (s s' : fit_state World Data) (r : result unit) :
  fit_batches self dataloader s = (r, s') ->
  exists evs, extends s s' evs /\ (quiet evs \/ aborted r evs).
Proof.
  revert s. induction dataloader as [|data rest IH]; intros s H.
  - injection H as <- <-. exists []. split; [apply extends_refl|].
    left. apply quiet_nil.
  - cbn [fit_batches] in H.
    apply bindM_inv in H. destruct H as [([] & s1 & H1 & H)|(e & H1 & ->)].
    + apply fit_batch_spec in H1.
      destruct H1 as (evs1 & Hext1 & [Hq1|[Hdisc _]]); [|discriminate].
      destruct (IH _ H) as (evs & Hext & Hpost).
      exists (evs1 ++ evs). split; [eapply extends_trans; eassumption|].
      destruct Hpost as [Hq|Hab];
        [left; now apply quiet_app | right; now apply aborted_prefix].
    + apply fit_batch_spec in H1. exact H1.
Qed.

Lemma fit_epochs_spec (self : Model World Data) (dataloader : list Data)
      (epochs : nat) (s s' : fit_state World Data) (r : result unit) :
  fit_epochs self dataloader epochs s = (r, s') ->
  exists evs, extends s s' evs
              /\ (quiet evs \/ aborted r evs \/ stopped tt r evs).
Proof.
  revert s. induction epochs as [|n IH]; intros s H.
  - injection H as <- <-. exists []. split; [apply extends_refl|].
    left. apply quiet_nil.
  - cbn [fit_epochs] in H.
    apply bindM_inv in H. destruct H as [([] & s1 & H1 & H)|(e & H1 & ->)].
    + apply fit_batches_spec in H1.
      destruct H1 as (evs1 & Hext1 & [Hq1|[Hdisc _]]); [|discriminate].
      apply bindM_inv in H. destruct H as [(stop & s2 & H2 & H)|(e & H2 & ->)].
      * apply callbacks_hook_spec in H2.
        destruct H2 as [(stop' & [= <-] & Hext2)|(e & evs & Hdisc & _)];
          [|discriminate].
        pose proof (extends_trans Hext1 Hext2) as H12.
        destruct stop.
        -- injection H as <- <-. eexists. split; [exact H12|]. right. right.
           apply stopped_prefix; [exact Hq1|]. split; [reflexivity|].
           eexists. split; [reflexivity | apply quiet_hook_calls].
        -- destruct (IH _ H) as (evs & Hext & Hpost).
           eexists. split; [eapply extends_trans; eassumption|].
           assert (Hq12 : quiet (evs1 ++ hook_calls OnEpochEnd (callbacks s1)
                                   ++ [EvReturn OnEpochEnd false])).
           { apply quiet_app; [exact Hq1|].
             apply quiet_app; [apply quiet_hook_calls | now apply quiet_one]. }
           destruct Hpost as [Hq|[Hab|Hst]].
           ++ left. now apply quiet_app.
           ++ right. left. now apply aborted_prefix.
           ++ right. right. now apply stopped_prefix.
      * apply callbacks_hook_spec in H2.
        destruct H2 as [(stop' & Hdisc & _)|(e' & evs & _ & Hext & Hq)];
          [discriminate|].
        eexists. split; [eapply extends_trans; eassumption|]. left.
        now apply quiet_app.
    + apply fit_batches_spec in H1.
      destruct H1 as (evs1 & Hext1 & [Hq1|Hab]).
      * exists evs1. split; [exact Hext1 | now left].
      * exists evs1. split; [exact Hext1 | right; now left].
Qed.

(** [_setup_train_info] installs the list [train_loss], the callbacks
    given, [log], gives the model to each, and reports no stop signal. *)
Lemma setup_train_info_spec (self : Model World Data) (dataloader : list Data)
      (verbose : bool) (cbs : option (list (Callback World)))
      (s s' : fit_state World Data) (r : result unit) :
  _setup_train_info self dataloader verbose cbs s = (r, s') ->
  callbacks s'
  = [train_loss self] ++ match cbs with None => [] | Some l => l end
      ++ [log self]
  /\ exists evs, trace s' = trace s ++ evs /\ quiet evs.
Proof.
  unfold _setup_train_info. intros H.
  apply bindM_inv in H. destruct H as [([] & s1 & [= <-] & H)|(e & [=] & _)].
  apply bindM_inv in H. destruct H as [(b & s2 & H2 & H)|(e & H2 & ->)].
  - apply callbacks_hook_quiet in H2; [|discriminate..].
    destruct H2 as (evs & [Ht Hc] & Hq). injection H as <- <-.
    split; [exact Hc | now exists evs].
  - apply callbacks_hook_quiet in H2; [|discriminate..].
    destruct H2 as (evs & [Ht Hc] & Hq).
    split; [exact Hc | now exists evs].
Qed.

(** A whole run: no stop signal was reported, or the run was aborted on
    the signal of [before_step], or it ended on the signal of
    [on_epoch_end] and returned the log. *)
Lemma fit_dataloader_spec (self : Model World Data) (dataloader : list Data)
      (epochs : Z) (cbs : option (list (Callback World))) (verbose : bool)
      (s s' : fit_state World Data) (r : result (Callback World)) :
  fit_dataloader self dataloader epochs cbs verbose s = (r, s') ->
  exists evs, trace s' = trace s ++ evs
              /\ (quiet evs \/ aborted r evs \/ stopped (log self) r evs).
Proof.
  unfold fit_dataloader. intros H.
  apply bindM_inv in H. destruct H as [([] & s1 & H1 & H)|(e & H1 & ->)].
  2:{ apply setup_train_info_spec in H1. destruct H1 as (_ & evs & Ht & Hq).
      exists evs. split; [exact Ht | now left]. }
  apply setup_train_info_spec in H1. destruct H1 as (_ & evs1 & Ht1 & Hq1).
  apply bindM_inv in H. destruct H as [(b & s2 & H2 & H)|(e & H2 & ->)];
    (apply callbacks_hook_quiet in H2; [|discriminate..]);
    destruct H2 as (evs2 & [Ht2 _] & Hq2).
  2:{ exists (evs1 ++ evs2). split; [now rewrite Ht2, Ht1, app_assoc|].
      left. now apply quiet_app. }
  assert (Hq12 : quiet (evs1 ++ evs2)) by now apply quiet_app.
  apply bindM_inv in H. destruct H as [([] & s3 & H3 & H)|(e & H3 & ->)];
    apply fit_epochs_spec in H3; destruct H3 as (evs3 & [Ht3 _] & Hpost);
    exists ((evs1 ++ evs2) ++ evs3);
    [injection H as <- <- |];
    (split; [now rewrite Ht3, Ht2, Ht1, !app_assoc|]).
  - destruct Hpost as [Hq|[[Hdisc _]|[_ Hst]]]; [|discriminate|].
    + left. now apply quiet_app.
    + right. right. apply stopped_prefix; [exact Hq12|]. now split.
  - destruct Hpost as [Hq|[[Hr Hab]|[Hdisc _]]]; [| |discriminate].
    + left. now apply quiet_app.
    + right. left. apply aborted_prefix; [exact Hq12|]. split; [|exact Hab].
      congruence.
Qed.
Ltac ok_step H H1 s1 :=
  apply bindM_inv in H;
  destruct H as [(? & s1 & H1 & H)|(? & _ & [=])];
  apply call_spec in H1.

(** The trace of a batch that completes: the hooks of [before_step] and
    then those of [on_batch_end], each over the callback list in order. *)
Lemma fit_batch_ok_trace (self : Model World Data) (data : Data)
      (s s' : fit_state World Data) :
  fit_batch self data s = (Ok tt, s') ->
  exists stop : bool,
    extends s s'
      ([EvZeroGrad; EvComputeLoss data; EvBackward]
         ++ hook_calls BeforeStep (callbacks s)
         ++ [EvReturn BeforeStep false; EvOptimStep]
         ++ hook_calls OnBatchEnd (callbacks s)
         ++ [EvReturn OnBatchEnd stop]).
Proof.
  unfold fit_batch. intros H.
  ok_step H H1 s1. ok_step H H2 s2. ok_step H H3 s3.
  apply bindM_inv in H.
  destruct H as [(stop4 & s4 & H4 & H)|(e & _ & [=])].
  apply callbacks_hook_spec in H4.
  destruct H4 as [(stop' & [= <-] & H4)|(e & evs & [=] & _)].
  destruct stop4; [discriminate H|].
  ok_step H H5 s5.
  apply bindM_inv in H.
  destruct H as [(stop6 & s6 & H6 & H)|(e & _ & [=])].
  apply callbacks_hook_spec in H6.
  destruct H6 as [(stop' & [= <-] & H6)|(e & evs & [=] & _)].
  injection H as <-. exists stop6.
  pose proof (extends_trans (extends_trans (extends_trans (extends_trans
                (extends_trans H1 H2) H3) H4) H5) H6) as Hall.
  destruct H1 as [_ C1], H2 as [_ C2], H3 as [_ C3], H4 as [_ C4],
           H5 as [_ C5].
  rewrite C5, C4, C3, !C2, !C1 in Hall.
  destruct Hall as [Ht Hc]. split; [|exact Hc].
  rewrite Ht. f_equal. cbn [app]. rewrite <- !app_assoc. reflexivity.
Qed.

(** C1 (amended): after [_setup_train_info] the callback list is the
    training-loss monitor, then the callbacks given, in their order, then
    the logger; and in a batch that completes the hooks of [before_step],
    and after the optimizer step those of [on_batch_end], are invoked
    over this list in this order. *)
Theorem setup_train_info_order (self : Model World Data) (dataloader : list Data)
        (verbose : bool) (cbs : option (list (Callback World)))
        (s s1 : fit_state World Data) (r : result unit) :
  _setup_train_info self dataloader verbose cbs s = (r, s1) ->
  let registry :=
    train_loss self :: match cbs with None => [] | Some l => l end
      ++ [log self] in
  callbacks s1 = registry
  /\ forall (data : Data) (s2 s3 : fit_state World Data),
       callbacks s2 = callbacks s1 ->
       fit_batch self data s2 = (Ok tt, s3) ->
       exists stop : bool,
         trace s3
         = trace s2
             ++ [EvZeroGrad; EvComputeLoss data; EvBackward]
             ++ hook_calls BeforeStep registry
             ++ [EvReturn BeforeStep false; EvOptimStep]
             ++ hook_calls OnBatchEnd registry
             ++ [EvReturn OnBatchEnd stop].
Proof.
  intros H registry. apply setup_train_info_spec in H. destruct H as [Hc _].
  split; [exact Hc|].
  intros data s2 s3 Hreg Hbatch.
  apply fit_batch_ok_trace in Hbatch. destruct Hbatch as [stop [Ht _]].
  exists stop. rewrite Ht, Hreg, Hc. reflexivity.
Qed.

(** ** The optimizer steps only after [before_step] *)

Lemma stepless_step_inv (l : list (event Data)) : stepless l -> step_inv l.
Proof.
  intros H. split.
  - intros pre post ->. exfalso.
    assert (E : is_optim_step (Data := Data) EvOptimStep = false)
      by (apply H; apply in_or_app; right; now left).
    discriminate E.
  - destruct l as [|e l]; [exact I|]. apply H. now left.
Qed.

Lemma stepless_hook_return (h : hook) (cbs : list (Callback World)) (stop : bool) :
  stepless (Data := Data) (hook_calls h cbs ++ [EvReturn h stop]).
Proof.
  intros e He. apply in_app_or in He. destruct He as [He|[<-|[]]].
  - unfold hook_calls in He. apply in_map_iff in He.
    now destruct He as (c & <- & _).
  - reflexivity.
Qed.

Lemma step_inv_app (l l' : list (event Data)) :
  step_inv l -> step_inv l' -> step_inv (l ++ l').
Proof.
  intros [G1 N1] [G2 N2]. split.
  - intros pre post E. apply app_eq_app in E.
    destruct E as (m & [[E1 E2]|[E1 E2]]).
    + destruct m as [|x m].
      * cbn in E2. subst l'. discriminate N2.
      * injection E2 as <- E2. apply (G1 pre m). exact E1.
    + destruct (G2 m post E2) as (pre' & ->).
      exists (l ++ pre'). rewrite E1. apply app_assoc.
  - destruct l; [exact N2 | exact N1].
Qed.

Lemma step_inv_step (l : list (event Data)) :
  stepless l -> step_inv (l ++ [EvReturn BeforeStep false; EvOptimStep]).
Proof.
  intros H. split.
  - intros pre post E. apply app_eq_app in E.
    destruct E as (m & [[E1 E2]|[E1 E2]]).
    + destruct m as [|x m]; [discriminate E2|].
      injection E2 as <- _. exfalso.
      assert (F : is_optim_step (Data := Data) EvOptimStep = false)
        by (apply H; rewrite E1; apply in_or_app; right; now left).
      discriminate F.
    + destruct m as [|x m]; [discriminate E2|].
      injection E2 as <- E2.
      destruct m as [|y m]; [|destruct m; discriminate E2].
      now exists l.
  - destruct l as [|e l]; [reflexivity|]. apply H. now left.
Qed.

Lemma keeps_guard_ret {A : Type} (a : A) : keeps_guard (@ret World Data A a).
Proof.
  intros s r s' [= <- <-]. exists []. split; [now rewrite app_nil_r|].
  apply stepless_step_inv. intros e [].
Qed.

Lemma keeps_guard_raise {A : Type} (e : exn) :
  keeps_guard (@raise World Data A e).
Proof.
  intros s r s' [= <- <-]. exists []. split; [now rewrite app_nil_r|].
  apply stepless_step_inv. intros e' [].
Qed.

Lemma keeps_guard_bind {A C : Type} (m : M World Data A)
      (k : A -> M World Data C) :
  keeps_guard m -> (forall a, keeps_guard (k a)) -> keeps_guard (bindM m k).
Proof.
  intros Hm Hk s r s' H. apply bindM_inv in H.
  destruct H as [(a & s1 & H1 & H)|(e & H1 & ->)].
  - destruct (Hm _ _ _ H1) as (l & E1 & I1).
    destruct (Hk a _ _ _ H) as (l' & E2 & I2).
    exists (l ++ l'). split; [now rewrite E2, E1, app_assoc|].
    now apply step_inv_app.
  - exact (Hm _ _ _ H1).
Qed.

Lemma keeps_guard_emit (e : event Data) :
  is_optim_step e = false -> keeps_guard (@emit World Data e).
Proof.
  intros He s r s' H. apply emit_spec in H. destruct H as [_ [Ht _]].
  exists [e]. split; [exact Ht|]. apply stepless_step_inv.
  now intros e' [<-|[]].
Qed.

Lemma keeps_guard_call {A : Type} (e : event Data)
      (op : World -> result A * World) :
  is_optim_step e = false -> keeps_guard (call e op).
Proof.
  intros He s r s' H. apply call_spec in H. destruct H as [Ht _].
  exists [e]. split; [exact Ht|]. apply stepless_step_inv.
  now intros e' [<-|[]].
Qed.

Lemma keeps_guard_apply_callbacks (h : hook) (cbs : list (Callback World)) :
  keeps_guard (@apply_callbacks World Data h cbs).
Proof.
  induction cbs as [|c rest IH]; cbn [apply_callbacks].
  - apply keeps_guard_ret.
  - apply keeps_guard_bind; [now apply keeps_guard_call|].
    intros stop. apply keeps_guard_bind; [exact IH|].
    intros stops. apply keeps_guard_ret.
Qed.

Lemma keeps_guard_callbacks_hook (h : hook) :
  keeps_guard (@callbacks_hook World Data h).
Proof.
  unfold callbacks_hook. apply keeps_guard_bind.
  - intros s r s' H. exact (@keeps_guard_apply_callbacks h (callbacks s) _ _ _ H).
  - intros stop. apply keeps_guard_bind; [now apply keeps_guard_emit|].
    intros _. apply keeps_guard_ret.
Qed.

(** The step of the optimizer, taken together with the call of
    [before_step] and the test of its stop signal that come before it. *)
Lemma keeps_guard_step {A : Type} (e : exn)
      (op : World -> result unit * World) (rest : M World Data A) :
  keeps_guard rest ->
  keeps_guard
    (bindM (callbacks_hook BeforeStep)
           (fun stop : bool =>
              if stop then raise e
              else bindM (call EvOptimStep op) (fun _ => rest))).
Proof.
  intros Hrest s r s' H. apply bindM_inv in H.
  destruct H as [(stop & s4 & H4 & H)|(e' & H4 & ->)].
  - apply callbacks_hook_spec in H4.
    destruct H4 as [(stop' & [= <-] & [Ht4 _])|(? & ? & Hd & _)];
      [|discriminate Hd].
    destruct stop.
    + injection H as <- <-. eexists. split; [exact Ht4|].
      apply stepless_step_inv. apply stepless_hook_return.
    + apply bindM_inv in H.
      destruct H as [(u & s5 & H5 & H)|(e5 & H5 & ->)];
        apply call_spec in H5; destruct H5 as [Ht5 _].
      * destruct (Hrest _ _ _ H) as (l6 & Ht6 & I6).
        exists ((hook_calls BeforeStep (callbacks s)
                   ++ [EvReturn BeforeStep false; EvOptimStep]) ++ l6).
        split.
        -- rewrite Ht6, Ht5, Ht4. now rewrite <- !app_assoc.
        -- apply step_inv_app; [|exact I6]. apply step_inv_step.
           intros x Hx. unfold hook_calls in Hx. apply in_map_iff in Hx.
           now destruct Hx as (c & <- & _).
      * exists (hook_calls BeforeStep (callbacks s)
                  ++ [EvReturn BeforeStep false; EvOptimStep]).
        split.
        -- rewrite Ht5, Ht4. now rewrite <- !app_assoc.
        -- apply step_inv_step.
           intros x Hx. unfold hook_calls in Hx. apply in_map_iff in Hx.
           now destruct Hx as (c & <- & _).
  - exact (@keeps_guard_callbacks_hook BeforeStep _ _ _ H4).
Qed.

Lemma keeps_guard_fit_batch (self : Model World Data) (data : Data) :
  keeps_guard (fit_batch self data).
Proof.
  unfold fit_batch.
  apply keeps_guard_bind; [now apply keeps_guard_call | intros _].
  apply keeps_guard_bind; [now apply keeps_guard_call | intros _].
  apply keeps_guard_bind; [now apply keeps_guard_call | intros _].
  apply keeps_guard_step.
  apply keeps_guard_bind; [apply keeps_guard_callbacks_hook | intros _].
  apply keeps_guard_ret.
Qed.

Lemma keeps_guard_fit_batches (self : Model World Data)
      (dataloader : list Data) :
  keeps_guard (fit_batches self dataloader).
Proof.
  induction dataloader as [|data rest IH]; cbn [fit_batches].
  - apply keeps_guard_ret.
  - apply keeps_guard_bind; [apply keeps_guard_fit_batch | intros _; exact IH].
Qed.

Lemma keeps_guard_fit_epochs (self : Model World Data)
      (dataloader : list Data) (epochs : nat) :
  keeps_guard (fit_epochs self dataloader epochs).
Proof.
  induction epochs as [|n IH]; cbn [fit_epochs].
  - apply keeps_guard_ret.
  - apply keeps_guard_bind; [apply keeps_guard_fit_batches | intros _].
    apply keeps_guard_bind; [apply keeps_guard_callbacks_hook|].
    intros [|]; [apply keeps_guard_ret | exact IH].
Qed.

(** C2: in a run of [fit_dataloader], if the aggregate [before_step]
    reported a stop signal then the run raised the RuntimeError and the
    report is the last event; if the aggregate [on_epoch_end] reported a
    stop signal then the run returned the log, without error, and the
    report is the last event (no further epoch follows it). And in every
    run each step of the optimizer comes right after a return of
    [before_step] without stop signal: the error of a stop signal is
    raised before the optimizer step of that batch, which is not made. *)
Theorem fit_dataloader_stop_signals (self : Model World Data)
        (dataloader : list Data) (epochs : Z)
        (cbs : option (list (Callback World))) (verbose : bool)
        (s s' : fit_state World Data) (r : result (Callback World)) :
  fit_dataloader self dataloader epochs cbs verbose s = (r, s') ->
  exists evs : list (event Data),
    trace s' = trace s ++ evs
    /\ (In (EvReturn BeforeStep true) evs ->
        r = Raise stop_signal_error
        /\ exists pre, evs = pre ++ [EvReturn BeforeStep true])
    /\ (In (EvReturn OnEpochEnd true) evs ->
        r = Ok (log self)
        /\ exists pre, evs = pre ++ [EvReturn OnEpochEnd true])
    /\ (forall pre post,
          evs = pre ++ EvOptimStep :: post ->
          exists pre', pre = pre' ++ [EvReturn BeforeStep false]).
Proof.
  intros H.
  assert (K : keeps_guard (fit_dataloader self dataloader epochs cbs verbose)).
  { unfold fit_dataloader, _setup_train_info.
    apply keeps_guard_bind; [|intros _].
    - apply keeps_guard_bind; [|intros _].
      + intros s0 r0 s0' [= <- <-]. exists []. cbn [trace].
        split; [now rewrite app_nil_r|].
        apply stepless_step_inv. intros e [].
      + apply keeps_guard_bind; [apply keeps_guard_callbacks_hook | intros _].
        apply keeps_guard_ret.
    - apply keeps_guard_bind; [apply keeps_guard_callbacks_hook | intros _].
      apply keeps_guard_bind; [apply keeps_guard_fit_epochs | intros _].
      apply keeps_guard_ret. }
  destruct (K _ _ _ H) as (evs' & Ht' & [G _]).
  apply fit_dataloader_spec in H.
  destruct H as (evs & Ht & Hpost). exists evs.
  assert (E : evs' = evs)
    by (rewrite Ht in Ht'; now apply app_inv_head in Ht').
  subst evs'.
  split; [exact Ht|].
  assert (Hsig :
    (In (EvReturn BeforeStep true) evs ->
     r = Raise stop_signal_error
     /\ exists pre, evs = pre ++ [EvReturn BeforeStep true])
    /\ (In (EvReturn OnEpochEnd true) evs ->
        r = Ok (log self)
        /\ exists pre, evs = pre ++ [EvReturn OnEpochEnd true])).
  { clear G Ht.
    destruct Hpost as [Hq|[[Hr (pre & -> & Hq)]|[Hr (pre & -> & Hq)]]].
    - split; intros Hin; exfalso; revert Hin; now apply quiet_not_in.
    - split; intros Hin.
      + split; [exact Hr | now exists pre].
      + exfalso. apply in_app_or in Hin. destruct Hin as [Hin|[[=]|[]]].
        revert Hin. now apply quiet_not_in.
    - split; intros Hin.
      + exfalso. apply in_app_or in Hin. destruct Hin as [Hin|[[=]|[]]].
        revert Hin. now apply quiet_not_in.
      + split; [exact Hr | now exists pre]. }
  destruct Hsig as [Hb He]. split; [exact Hb|]. split; [exact He | exact G].
Qed.
End TrainingFacts.

(** C1, as stated, fails: set up without callbacks of the user, the list
    holds two entries, the training-loss monitor and the logger; it is not
    an optimizer entry, two metric monitors and the logger. *)
Lemma setup_train_info_counterexample :
  map (@cb_class nat)
      (callbacks (snd (_setup_train_info Toy.model [7%nat; 8%nat] true None
                                         Toy.start)))
  = ["MonitorTrainLoss"; "TrainingLogger"]
  /\ ~ (exists optimizer train_metrics val_metrics : Callback nat,
          callbacks (snd (_setup_train_info Toy.model [7%nat; 8%nat] true None
                                            Toy.start))
          = [optimizer; train_metrics; val_metrics] ++ [] ++ [log Toy.model]).
Proof.
  split; [reflexivity|].
  intros (o & t & v & H). discriminate H.
Defined.

Lemma setup_train_info_order_witness :
  _setup_train_info Toy.model [7%nat] true (Some [Toy.noop "Callback" 2])
                    Toy.start
  = (Ok tt, Toy.after_setup)
  /\ fit_batch Toy.model 7%nat Toy.after_setup = (Ok tt, Toy.after_batch)
  /\ trace Toy.after_batch
     = trace Toy.after_setup
         ++ [EvZeroGrad; EvComputeLoss 7%nat; EvBackward;
             EvHook BeforeStep 0; EvHook BeforeStep 2; EvHook BeforeStep 1;
             EvReturn BeforeStep false; EvOptimStep;
             EvHook OnBatchEnd 0; EvHook OnBatchEnd 2; EvHook OnBatchEnd 1;
             EvReturn OnBatchEnd false].
Proof.
  assert (E1 : _setup_train_info Toy.model [7%nat] true
                 (Some [Toy.noop "Callback" 2]) Toy.start
               = (Ok tt, Toy.after_setup)) by (vm_compute; reflexivity).
  assert (E2 : fit_batch Toy.model 7%nat Toy.after_setup
               = (Ok tt, Toy.after_batch)) by (vm_compute; reflexivity).
  split; [exact E1|]. split; [exact E2|].
  destruct (setup_train_info_order _ _ _ _ _ E1) as [_ Hbatch].
  destruct (Hbatch 7%nat _ _ eq_refl E2) as [stop Ht].
  destruct stop; vm_compute in Ht; [discriminate Ht|].
  vm_compute. exact Ht.
Defined.

Lemma fit_dataloader_stop_signals_witness :
  fst (fit_dataloader Toy.model [7%nat; 8%nat] 2
         (Some [Toy.stop_at BeforeStep "StopBeforeStep" 5]) true Toy.start)
  = Raise stop_signal_error
  /\ world (snd (fit_dataloader Toy.model [7%nat; 8%nat] 2
                   (Some [Toy.stop_at BeforeStep "StopBeforeStep" 5]) true
                   Toy.start))
     = 0%nat
  /\ fst (fit_dataloader Toy.model [7%nat; 8%nat] 2
            (Some [Toy.stop_at OnEpochEnd "EarlyStopping" 5]) true Toy.start)
     = Ok (log Toy.model)
  /\ world (snd (fit_dataloader Toy.model [7%nat; 8%nat] 2
                   (Some [Toy.stop_at OnEpochEnd "EarlyStopping" 5]) true
                   Toy.start))
     = 2%nat.
Proof.
  split; [|split; [|split]].
  - destruct (fit_dataloader Toy.model [7%nat; 8%nat] 2
                (Some [Toy.stop_at BeforeStep "StopBeforeStep" 5]) true
                Toy.start) as [r s'] eqn:E.
    destruct (fit_dataloader_stop_signals _ _ _ _ _ _ E) as (evs & Ht & Hb & _).
    apply Hb. vm_compute in E. injection E as _ <-.
    vm_compute in Ht. subst evs. vm_compute. tauto.
  - vm_compute. reflexivity.
  - destruct (fit_dataloader Toy.model [7%nat; 8%nat] 2
                (Some [Toy.stop_at OnEpochEnd "EarlyStopping" 5]) true
                Toy.start) as [r s'] eqn:E.
    destruct (fit_dataloader_stop_signals _ _ _ _ _ _ E)
      as (evs & Ht & _ & He & _).
    apply He. vm_compute in E. injection E as _ <-.
    vm_compute in Ht. subst evs. vm_compute. tauto.
  - vm_compute. reflexivity.
Defined.

(** ** [agg_list] and [split_agg] *)

Section All2Facts.
Context {A C : Type} (R : A -> C -> Prop).

Lemma all2_length (l : list A) (l' : list C) :
  all2 R l l' -> List.length l = List.length l'.
Proof.
  revert l'. induction l as [|a r IH]; intros [|c r']; cbn; try tauto.
  intros [_ H]. now rewrite (IH _ H).
Qed.
End All2Facts.

Lemma zip_cons_length {A : Type} (r : list A) (rs : list (list A)) :
  List.length r = List.length rs -> List.length (zip_cons r rs) = List.length r.
Proof.
  revert rs. induction r as [|x r IH]; intros [|t rs]; cbn; try lia.
  intros H. rewrite IH; lia.
Qed.

Lemma zip_star_length {A : Type} (n : nat) (cols : list (list A)) :
  cols <> [] -> Forall (fun c => List.length c = n) cols ->
  List.length (zip_star cols) = n.
Proof.
  induction cols as [|c cs IH]; [congruence|]. intros _ Hall.
  inversion Hall as [|? ? Hc Hcs]; subst.
  destruct cs as [|c' cs'].
  - cbn. now rewrite length_map.
  - change (zip_star (c :: c' :: cs')) with (zip_cons c (zip_star (c' :: cs'))).
    rewrite zip_cons_length; [reflexivity|].
    rewrite IH; [reflexivity | discriminate | exact Hcs].
Qed.

Lemma zip_cons_snoc {A : Type} (c : list A) (rs : list (list A)) (v : A)
      (r : list A) :
  List.length c = List.length rs ->
  zip_cons (c ++ [v]) (rs ++ [r]) = zip_cons c rs ++ [v :: r].
Proof.
  revert rs. induction c as [|x c IH]; intros [|t rs]; cbn; try lia.
  - reflexivity.
  - intros H. rewrite IH; [reflexivity | lia].
Qed.

(** Extending every column by one value adds one row to the zip. *)
Lemma zip_star_snoc (n : nat) (cols : list (list value)) (vs : list value) :
  cols <> [] -> Forall (fun c => List.length c = n) cols ->
  List.length cols = List.length vs ->
  zip_star (snoc_cols cols vs) = zip_star cols ++ [vs].
Proof.
  revert vs. induction cols as [|c cs IH]; [congruence|].
  intros [|v vs] _ Hall Hlen; [discriminate|].
  inversion Hall as [|? ? Hc Hcs]; subst.
  destruct cs as [|c' cs'].
  - destruct vs; [|discriminate]. cbn. rewrite map_app. reflexivity.
  - destruct vs as [|v' vs']; [discriminate|].
    change (snoc_cols (c :: c' :: cs') (v :: v' :: vs'))
      with ((c ++ [v]) :: snoc_cols (c' :: cs') (v' :: vs')).
    assert (IH' : zip_star (snoc_cols (c' :: cs') (v' :: vs'))
                  = zip_star (c' :: cs') ++ [v' :: vs']).
    { apply IH; [discriminate | exact Hcs | cbn in *; lia]. }
    change (zip_star ((c ++ [v]) :: snoc_cols (c' :: cs') (v' :: vs')))
      with (zip_cons (c ++ [v]) (zip_star (snoc_cols (c' :: cs') (v' :: vs')))).
    rewrite IH'.
    change (zip_star (c :: c' :: cs')) with (zip_cons c (zip_star (c' :: cs'))).
    apply zip_cons_snoc.
    rewrite (zip_star_length (n := List.length c)); [reflexivity | discriminate|].
    exact Hcs.
Qed.

Lemma zip_cons_In {A : Type} (r : list A) (rs : list (list A))
      (row : list A) (v : A) :
  In row (zip_cons r rs) -> In v row ->
  In v r \/ exists row', In row' rs /\ In v row'.
Proof.
  revert rs. induction r as [|x r IH]; intros [|t rs]; cbn; try tauto.
  intros [<-|Hrow] Hv.
  - destruct Hv as [<-|Hv]; [left; now left | right; exists t; auto].
  - destruct (IH _ Hrow Hv) as [H|(row' & H1 & H2)];
      [left; now right | right; exists row'; auto].
Qed.

(** Whatever is in a row of the zip comes from one of the columns. *)
Lemma zip_star_In {A : Type} (cols : list (list A)) (row : list A) (v : A) :
  In row (zip_star cols) -> In v row ->
  exists col, In col cols /\ In v col.
Proof.
  revert row. induction cols as [|c cs IH]; intros row; [intros []|].
  destruct cs as [|c' cs'].
  - cbn. intros Hrow Hv. apply in_map_iff in Hrow.
    destruct Hrow as (x & <- & Hx). destruct Hv as [<-|[]].
    exists c. split; [now left | exact Hx].
  - change (zip_star (c :: c' :: cs')) with (zip_cons c (zip_star (c' :: cs'))).
    intros Hrow Hv.
    destruct (zip_cons_In _ _ _ _ Hrow Hv) as [H|(row' & H1 & H2)].
    + exists c. split; [now left | exact H].
    + destruct (IH _ H1 H2) as (col & Hc & Hvc).
      exists col. split; [now right | exact Hvc].
Qed.

Lemma is_convertible_container (v : value) :
  is_convertible v = false -> is_container v = false.
Proof. destruct v as [ys| | | | | | |[c m]| | |]; cbn; congruence. Qed.

Lemma proper_leaf (v : value) :
  is_container v = false -> proper v = true -> is_convertible v = false.
Proof.
  destruct v as [ys| | | | | | |[c m]| | |]; cbn; try congruence; reflexivity.
Qed.

Lemma wf_agg_leaf (n : nat) (sk acc : value) :
  is_container sk = false ->
  wf_agg n sk acc ->
  exists l, acc = PyList l /\ List.length l = n
            /\ Forall (fun v => is_convertible v = false) l.
Proof.
  intros Hsk Hwf.
  destruct sk as [ys| | | | | | |[c m]| | |]; try discriminate Hsk;
    destruct acc as [|l| | | | | | | | |]; cbn in Hwf; try contradiction;
    exists l; tauto.
Qed.

Lemma wf_agg_node (n : nat) (sks : list value) (acc : value) :
  wf_agg n (Tuple sks) acc ->
  exists accs, acc = Tuple accs /\ sks <> [] /\ all2 (wf_agg n) sks accs.
Proof.
  destruct acc as [accs| | | | | | | | | |]; cbn; try contradiction.
  intros H. now exists accs.
Qed.

Section AggFacts.
Context {B : Backend}.

Lemma apply_tuple_blank (sk : value) :
  apply_tuple agg_list_init_func sk = Ok (blank sk).
Proof.
  induction sk as [xs IH| | | | | | | | | |] using value_ind_nested;
    try reflexivity.
  cbn [apply_tuple blank].
  assert (H : mapM (apply_tuple agg_list_init_func) xs = Ok (map blank xs)).
  { induction IH as [|x r Hx _ IHr]; [reflexivity|].
    cbn [mapM map]. now rewrite Hx, IHr. }
  now rewrite H.
Qed.

Lemma wf_agg_blank (sk : value) : proper sk = true -> wf_agg 0 sk (blank sk).
Proof.
  induction sk as [xs IH| | | | | | | | | |] using value_ind_nested;
    try (intros _; cbn; split; [reflexivity | constructor]).
  cbn [proper blank wf_agg]. rewrite andb_true_iff. intros [Hne Hall].
  split.
  - destruct xs; [discriminate Hne | discriminate].
  - clear Hne. induction IH as [|x r Hx _ IHr]; [exact I|].
    cbn [forallb] in Hall. apply andb_true_iff in Hall. destruct Hall as [H1 H2].
    cbn [map all2]. split; [now apply Hx | now apply IHr].
Qed.

(** The lists at the leaves of an aggregate of [n] elements all have
    length [n], and so has what is read back from it. *)
Lemma wf_agg_length (n : nat) (sk : value) :
  forall acc, wf_agg n sk acc -> List.length (unagg acc) = n.
Proof.
  induction sk as [sks IH| | | | | | | | | |] using value_ind_nested;
    intros acc Hwf;
    try (apply wf_agg_leaf in Hwf; [|reflexivity];
         destruct Hwf as (l & -> & Hl & _); exact Hl).
  apply wf_agg_node in Hwf. destruct Hwf as (accs & -> & Hne & Hall).
  cbn [unagg]. rewrite length_map. apply zip_star_length.
  - destruct sks; [congruence|]. destruct accs; [contradiction | discriminate].
  - clear Hne. revert accs Hall.
    induction IH as [|s r Hs _ IHr]; intros [|a accs]; cbn; try contradiction.
    + constructor.
    + intros [Ha Hr]. constructor; [now apply Hs | now apply IHr].
Qed.

Lemma wf_agg_cols (n : nat) (sks accs : list value) :
  all2 (wf_agg n) sks accs ->
  Forall (fun c => List.length c = n) (map unagg accs).
Proof.
  revert accs. induction sks as [|s r IH]; intros [|a accs]; cbn;
    try contradiction.
  - constructor.
  - intros [Ha Hr]. constructor; [eapply wf_agg_length; eassumption | now apply IH].
Qed.

(** One step of the fold of [agg_list]: the element [v], of the topology
    of the skeleton, is added at the end of every list. *)
Lemma reduce_rec_append (n : nat) (sk : value) :
  forall (acc v : value) (l : Z),
    wf_agg n sk acc ->
    tuple_levels sk l = tuple_levels v l ->
    proper v = true ->
    exists acc',
      reduce_rec agg_list_append_func acc v = Ok acc'
      /\ wf_agg (S n) sk acc'
      /\ unagg acc' = unagg acc ++ [v].
Proof.
  induction sk as [sks IH| | | | | | | | | |] using value_ind_nested;
    intros acc v l Hwf Hlv Hp;
    try (apply wf_agg_leaf in Hwf; [|reflexivity];
         destruct Hwf as (held & -> & Hlen & Hall);
         cbn [tuple_levels] in Hlv; symmetry in Hlv;
         assert (Hv : is_container v = false)
           by (destruct v; [discriminate Hlv | reflexivity ..]);
         exists (PyList (held ++ [v])); split; [reflexivity|]; split;
         [ cbn; split;
           [ rewrite length_app; cbn; lia
           | apply Forall_app; split;
             [exact Hall | constructor; [now apply proper_leaf | constructor]]]
         | reflexivity ]).
  apply wf_agg_node in Hwf. destruct Hwf as (accs & -> & Hne & Hall).
  apply tuple_levels_node in Hlv. destruct Hlv as (vs & -> & Hlv).
  cbn [proper] in Hp. apply andb_true_iff in Hp. destruct Hp as [_ Hp].
  assert (Hlen : List.length accs = List.length vs).
  { rewrite <- (all2_length _ _ _ Hall).
    apply (f_equal (@List.length value)) in Hlv. now rewrite !length_map in Hlv. }
  assert (Hcols : Forall (fun c => List.length c = n) (map unagg accs))
    by (eapply wf_agg_cols; eassumption).
  assert (Hrs : exists rs,
             zipM (reduce_rec agg_list_append_func) accs vs = Ok rs
             /\ all2 (wf_agg (S n)) sks rs
             /\ map unagg rs = snoc_cols (map unagg accs) vs).
  { clear Hne Hlen Hcols. revert accs vs Hall Hlv Hp.
    induction IH as [|s r Hs _ IHr]; intros [|a accs] [|v vs]; cbn;
      try contradiction; try discriminate.
    - intros _ _ _. exists []. repeat split.
    - intros [Ha Hr] [= Hv Hvs] Hp. apply andb_true_iff in Hp.
      destruct Hp as [Hpv Hpvs].
      destruct (Hs a v (l + 1) Ha Hv Hpv) as (a' & Ea & Hwa & Hua).
      destruct (IHr accs vs Hr Hvs Hpvs) as (rs & Ers & Hwrs & Hurs).
      exists (a' :: rs). rewrite Ea. cbn [bind].
      rewrite Ers. cbn [bind]. repeat split; try assumption.
      cbn [map]. now rewrite Hua, Hurs. }
  destruct Hrs as (rs & Ers & Hwrs & Hurs).
  exists (Tuple rs). split; [|split].
  - cbn [reduce_rec iter_ bind]. now rewrite Ers.
  - cbn [wf_agg]. now split.
  - cbn [unagg]. rewrite Hurs.
    rewrite (zip_star_snoc (n := n)); try assumption.
    + rewrite map_app. reflexivity.
    + destruct sks; [congruence|]. destruct accs; [contradiction | discriminate].
    + now rewrite length_map.
Qed.

(** The fold of [agg_list] over elements of the topology of the
    skeleton. *)
Lemma foldM_append (sk : value) (es : list value) :
  forall (n : nat) (acc : value),
    wf_agg n sk acc ->
    Forall (fun e => tuple_levels sk 0 = tuple_levels e 0 /\ proper e = true) es ->
    exists agg,
      foldM (reduce_rec agg_list_append_func) es acc = Ok agg
      /\ wf_agg (n + List.length es) sk agg
      /\ unagg agg = unagg acc ++ es.
Proof.
  induction es as [|e es IH]; intros n acc Hwf Hes.
  - exists acc. rewrite Nat.add_0_r, app_nil_r. now repeat split.
  - inversion Hes as [|? ? [Hlv Hp] Hes']; subst.
    destruct (@reduce_rec_append n sk acc e 0 Hwf Hlv Hp) as (acc' & E & Hwf' & Hu).
    destruct (IH _ _ Hwf' Hes') as (agg & Eagg & Hwagg & Huagg).
    exists agg. cbn [foldM]. rewrite E. cbn [bind]. split; [exact Eagg|].
    split.
    + cbn [List.length]. now rewrite Nat.add_succ_r.
    + rewrite Huagg, Hu, <- app_assoc. reflexivity.
Qed.
Lemma tuplefy_sub_leaf (v : value) :
  is_convertible v = false -> tuplefy_sub v = v.
Proof. destruct v; cbn; try discriminate; reflexivity. Qed.

Lemma all2_In_r {A C : Type} (R : A -> C -> Prop) (l : list A) (l' : list C)
      (c : C) :
  all2 R l l' -> In c l' -> exists a, In a l /\ R a c.
Proof.
  revert l'. induction l as [|a r IH]; intros [|c' r']; cbn; try tauto.
  intros [Hac Hr] [<-|Hc].
  - exists a. auto.
  - destruct (IH _ Hr Hc) as (a' & Ha' & HR). exists a'. auto.
Qed.

(** What is read back from an aggregate is made of Tuples and of leaves
    that [tuplefy] leaves alone. *)
Lemma unagg_fixed (n : nat) (sk : value) :
  forall acc, wf_agg n sk acc ->
              Forall (fun v => tuplefy_sub v = v) (unagg acc).
Proof.
  induction sk as [sks IH| | | | | | | | | |] using value_ind_nested;
    intros acc Hwf;
    try (apply wf_agg_leaf in Hwf; [|reflexivity];
         destruct Hwf as (held & -> & _ & Hall); cbn [unagg];
         eapply Forall_impl; [|exact Hall]; apply tuplefy_sub_leaf).
  apply wf_agg_node in Hwf. destruct Hwf as (accs & -> & _ & Hall).
  cbn [unagg]. apply Forall_forall. intros t Ht.
  apply in_map_iff in Ht. destruct Ht as (row & <- & Hrow).
  cbn [tuplefy_sub]. f_equal.
  rewrite <- (map_id row) at 2. apply map_ext_in. intros v Hv.
  destruct (@zip_star_In _ _ _ _ Hrow Hv) as (col & Hcol & Hvcol).
  apply in_map_iff in Hcol. destruct Hcol as (a & <- & Ha).
  destruct (@all2_In_r _ _ _ _ _ _ Hall Ha) as (s & Hs & Hwf).
  rewrite Forall_forall in IH. specialize (IH s Hs a Hwf).
  rewrite Forall_forall in IH. now apply IH.
Qed.

(** [split_agg] on an aggregate: the Tuple of what is read back from it. *)
Lemma split_agg_wf (n : nat) (sk : value) :
  forall acc, wf_agg n sk acc ->
              split_agg acc
              = Ok (if is_container sk then Tuple (unagg acc) else acc).
Proof.
  induction sk as [sks IH| | | | | | | | | |] using value_ind_nested;
    intros acc Hwf;
    try (apply wf_agg_leaf in Hwf; [|reflexivity];
         destruct Hwf as (held & -> & _ & _); reflexivity).
  pose proof (@unagg_fixed n (Tuple sks) acc Hwf) as Hfixed.
  apply wf_agg_node in Hwf. destruct Hwf as (accs & -> & _ & Hall).
  assert (Hnew : exists news,
             mapM split_agg accs = Ok news
             /\ mapM iter_ news = Ok (map unagg accs)).
  { clear Hfixed. revert accs Hall.
    induction IH as [|s r Hs _ IHr]; intros [|a accs]; cbn [all2];
      try contradiction.
    - intros _. exists []. split; reflexivity.
    - intros [Ha Hr]. destruct (IHr _ Hr) as (news & E1 & E2).
      exists ((if is_container s then Tuple (unagg a) else a) :: news).
      cbn [mapM map]. rewrite (Hs _ Ha). cbn [bind]. rewrite E1. cbn [bind].
      split; [reflexivity|].
      assert (Hit : iter_ (if is_container s then Tuple (unagg a) else a)
                    = Ok (unagg a)).
      { destruct (is_container s) eqn:Es; [reflexivity|].
        apply wf_agg_leaf in Ha; [|exact Es].
        destruct Ha as (held & -> & _). reflexivity. }
      rewrite Hit. cbn [bind]. now rewrite E2. }
  destruct Hnew as (news & E1 & E2).
  cbn [split_agg is_container in_types type_ CONTAINERS existsb pytype_eqb orb].
  rewrite E1. cbn [in_generator bind]. rewrite E2. cbn [bind].
  unfold Tuple_tuplefy. cbn [Tuple_items bind].
  rewrite tuplefy_default. cbn [tuplefy_sub unagg]. do 2 f_equal.
  rewrite map_map. apply map_ext_in. intros row Hrow.
  cbn [unagg] in Hfixed. rewrite Forall_forall in Hfixed.
  specialize (Hfixed (Tuple row) (in_map Tuple _ _ Hrow)).
  exact Hfixed.
Qed.

(** C7 (amended): for a non-empty sequence of containers of one topology,
    every one a tree of non-empty Tuples over leaves that are neither lists
    nor tuples, [agg_list] returns an aggregate and [split_agg] returns
    from it the original sequence. *)
Theorem agg_list_split_agg (x : value) (rest : list value) :
  (forall e, In e (x :: rest) -> is_container e = true /\ proper e = true) ->
  all_same_topology (x :: rest) ->
  exists agg : value,
    Tuple_agg_list (Tuple (x :: rest)) = Ok agg
    /\ Tuple_split_agg agg = Ok (Tuple (x :: rest)).
Proof.
  intros Hes Hsame.
  destruct (Hes x (or_introl eq_refl)) as [Hcx Hpx].
  assert (Hall : Forall (fun e => tuple_levels x 0 = tuple_levels e 0
                                  /\ proper e = true) (x :: rest)).
  { apply Forall_forall. intros e He. split.
    - apply Hsame; [now left | exact He].
    - now apply Hes. }
  destruct (@foldM_append x (x :: rest) 0%nat (blank x)
              (@wf_agg_blank x Hpx) Hall)
    as (agg & Efold & Hwf & Hun).
  assert (Hblank : unagg (blank x) = []).
  { apply length_zero_iff_nil.
    exact (@wf_agg_length 0%nat x (blank x) (@wf_agg_blank x Hpx)). }
  rewrite Hblank in Hun. cbn [app] in Hun.
  exists agg. split.
  - unfold Tuple_agg_list, agg_list. cbn [Tuple_items bind].
    destruct (reduce_tuple_check agg_list_append_func
                (Some agg_list_init_func) (x :: rest)) as (b & Hb & ->).
    apply Hb in Hsame. subst b.
    unfold reduce_fold. cbn [iter_ bind getitem nth_error].
    apply is_container_spec in Hcx. destruct Hcx as [xs ->].
    unfold Tuple_apply. cbn [Tuple_items bind].
    rewrite apply_tuple_blank. cbn [bind]. exact Efold.
  - apply is_container_spec in Hcx. destruct Hcx as [xs ->].
    pose proof (@split_agg_wf _ _ _ Hwf) as Hsplit.
    cbn [is_container in_types type_ CONTAINERS existsb pytype_eqb orb] in Hsplit.
    rewrite Hun in Hsplit.
    apply wf_agg_node in Hwf. destruct Hwf as (accs & -> & _).
    unfold Tuple_split_agg. cbn [Tuple_items bind]. exact Hsplit.
Qed.
End AggFacts.

(** C7, as stated, fails where a container is empty: the two elements of
    [((), ())] have the same topology, their aggregate is the empty Tuple,
    and [split_agg] gives back the empty Tuple, not the two elements. *)
Lemma agg_list_split_agg_counterexample :
  all_same_topology [Tuple []; Tuple []]
  /\ Tuple_agg_list (B := Toy.backend) (Tuple [Tuple []; Tuple []])
     = Ok (Tuple [])
  /\ Tuple_split_agg (B := Toy.backend) (Tuple []) = Ok (Tuple [])
  /\ ~ (exists agg : value,
          Tuple_agg_list (B := Toy.backend) (Tuple [Tuple []; Tuple []]) = Ok agg
          /\ Tuple_split_agg (B := Toy.backend) agg
             = Ok (Tuple [Tuple []; Tuple []])).
Proof.
  split; [|split; [|split]].
  - intros x y [<-|[<-|[]]] [<-|[<-|[]]]; reflexivity.
  - reflexivity.
  - reflexivity.
  - intros (agg & Hagg & Hsplit).
    vm_compute in Hagg. injection Hagg as <-.
    vm_compute in Hsplit. discriminate Hsplit.
Defined.

Lemma agg_list_split_agg_witness :
  let a := Tuple [Toy.a1; Tuple [PyInt 2; PyInt 3]] in
  let b := Tuple [Toy.b1; Tuple [PyInt 5; PyInt 6]] in
  Tuple_agg_list (B := Toy.backend) (Tuple [a; b])
  = Ok (Tuple [PyList [Toy.a1; Toy.b1];
               Tuple [PyList [PyInt 2; PyInt 5]; PyList [PyInt 3; PyInt 6]]])
  /\ Tuple_split_agg (B := Toy.backend)
       (Tuple [PyList [Toy.a1; Toy.b1];
               Tuple [PyList [PyInt 2; PyInt 5]; PyList [PyInt 3; PyInt 6]]])
     = Ok (Tuple [a; b]).
Proof.
  intros a b.
  assert (Hes : forall e, In e [a; b] ->
                          is_container e = true /\ proper e = true).
  { intros e [<-|[<-|[]]]; split; reflexivity. }
  assert (Hsame : all_same_topology [a; b]).
  { intros u v [<-|[<-|[]]] [<-|[<-|[]]]; reflexivity. }
  destruct (agg_list_split_agg (B := Toy.backend) Hes Hsame)
    as (agg & Hagg & Hsplit).
  assert (E : Tuple_agg_list (B := Toy.backend) (Tuple [a; b])
              = Ok (Tuple [PyList [Toy.a1; Toy.b1];
                           Tuple [PyList [PyInt 2; PyInt 5];
                                  PyList [PyInt 3; PyInt 6]]]))
    by (vm_compute; reflexivity).
  rewrite E in Hagg. injection Hagg as <-.
  split; [exact E | exact Hsplit].
Defined.

(* ===================================================================== *)
(** * Further properties of [pyth/tuple.py] *)
(* ===================================================================== *)

(** ** [flatten_tuple] and the leaves *)

Lemma leaves_leaf (v : value) : is_container v = false -> leaves v = [v].
Proof. destruct v; cbn; try discriminate; reflexivity. Qed.

Lemma flat_map_leaves_flat (xs : list value) :
  forallb (fun x => negb (is_container x)) xs = true -> flat_map leaves xs = xs.
Proof.
  induction xs as [|x r IH]; [reflexivity|].
  cbn [forallb flat_map]. rewrite andb_true_iff, negb_true_iff.
  intros [Hx Hr]. now rewrite (leaves_leaf _ Hx), (IH Hr).
Qed.

Lemma flat_map_leaves_pass (xs : list value) :
  flat_map leaves (flatten_pass xs) = flat_map leaves xs.
Proof.
  unfold flatten_pass. induction xs as [|x r IH]; [reflexivity|].
  cbn [map List.concat flat_map]. rewrite flat_map_app, IH. f_equal.
  destruct x; cbn [leaves flat_map]; rewrite ?app_nil_r; reflexivity.
Qed.

Lemma flatten_tuple_flat_map (xs : list value) :
  flatten_tuple (Tuple xs) = Tuple (flat_map leaves xs).
Proof.
  remember (Tuple xs) as data eqn:E. revert xs E.
  funelim (flatten_tuple data); intros ys E; try discriminate E.
  - injection E as <-. rewrite <- flat_map_leaves_pass.
    f_equal. symmetry. apply flat_map_leaves_flat. assumption.
  - injection E as <-. rewrite <- flat_map_leaves_pass.
    exact (H _ eq_refl).
Qed.

(** X1: [flatten_tuple] of a container is the Tuple of its leaves, in their
    order from left to right: none is lost, repeated or moved; and the
    leaves of the result are the leaves of the argument, whatever it is. *)
Theorem flatten_tuple_leaves (data : value) :
  leaves (flatten_tuple data) = leaves data
  /\ forall xs, data = Tuple xs -> flatten_tuple data = Tuple (leaves data).
Proof.
  destruct data as [xs| | | | | | | | | |];
    try (split; [reflexivity | intros xs0 E; discriminate E]).
  rewrite flatten_tuple_flat_map. split; [|reflexivity].
  cbn [leaves]. apply flat_map_leaves_flat.
  pose proof (flatten_tuple_is_flat (Tuple xs)) as H.
  rewrite flatten_tuple_flat_map in H. exact H.
Qed.

Lemma flatten_tuple_leaves_witness :
  flatten_tuple (Tuple [PyInt 1; Tuple [Tuple [PyInt 2]; PyInt 3]; Tuple []])
  = Tuple [PyInt 1; PyInt 2; PyInt 3].
Proof.
  exact (proj2 (flatten_tuple_leaves
                  (Tuple [PyInt 1; Tuple [Tuple [PyInt 2]; PyInt 3]; Tuple []]))
               _ eq_refl).
Defined.

(** ** [apply_tuple] *)

Lemma mapM_app {A C : Type} (f : A -> result C) (l l' : list A) :
  mapM f (l ++ l')
  = (ys <- mapM f l ;; ys' <- mapM f l' ;; Ok (ys ++ ys')).
Proof.
  induction l as [|a r IH]; cbn [app mapM bind].
  - destruct (mapM f l'); reflexivity.
  - destruct (f a) as [y|e]; cbn [bind]; [|reflexivity].
    rewrite IH. destruct (mapM f r) as [ys|e]; cbn [bind]; [|reflexivity].
    destruct (mapM f l'); reflexivity.
Qed.

Lemma keeps_leaves_app_l (f : value -> result value) (l l' : list value) :
  keeps_leaves f (l ++ l') -> keeps_leaves f l.
Proof. intros H x y Hx. apply H. apply in_or_app. now left. Qed.

Lemma keeps_leaves_app_r (f : value -> result value) (l l' : list value) :
  keeps_leaves f (l ++ l') -> keeps_leaves f l'.
Proof. intros H x y Hx. apply H. apply in_or_app. now right. Qed.

Section ApplyFacts.
Context {B : Backend}.
Variable f : value -> result value.

Lemma apply_tuple_leaf (g : value -> result value) (v : value) :
  is_container v = false -> apply_tuple g v = g v.
Proof. destruct v; cbn; try discriminate; reflexivity. Qed.

Lemma generator_error_idem (e : exn) :
  generator_error (generator_error e) = generator_error e.
Proof. destruct e as [[] m]; reflexivity. Qed.

Lemma apply_error_generator (data : value) (e : exn) :
  generator_error (apply_error data e) = generator_error e.
Proof.
  unfold apply_error. destruct (is_container data); [|reflexivity].
  apply generator_error_idem.
Qed.

(** What [apply_tuple] does, in terms of the leaves. *)
Lemma apply_tuple_leaves (data : value) :
  (forall r, apply_tuple f data = Ok r ->
             exists ys, mapM f (leaves data) = Ok ys
                        /\ (keeps_leaves f (leaves data) ->
                            leaves r = ys
                            /\ forall l, tuple_levels r l = tuple_levels data l))
  /\ (forall e, apply_tuple f data = Raise e ->
                exists e', mapM f (leaves data) = Raise e'
                           /\ e = apply_error data e').
Proof.
  induction data as [xs IH| | | | | | | | | |] using value_ind_nested;
    try (cbn [apply_tuple leaves mapM]; split;
         [ intros r Hr; rewrite Hr; cbn [bind]; exists [r]; split;
           [reflexivity|];
           intros Hk;
           assert (Hc : is_container r = false)
             by (eapply Hk; [left; reflexivity | exact Hr]);
           split; [now apply leaves_leaf|];
           intros l; now rewrite (tuple_levels_leaf _ _ Hc)
         | intros err He; rewrite He; exists err; split; reflexivity ]).
  cbn [apply_tuple leaves].
  assert (Hlist :
    (forall rs, mapM (apply_tuple f) xs = Ok rs ->
                exists ys, mapM f (flat_map leaves xs) = Ok ys
                           /\ (keeps_leaves f (flat_map leaves xs) ->
                               flat_map leaves rs = ys
                               /\ forall l,
                                   map (fun s => tuple_levels s l) rs
                                   = map (fun s => tuple_levels s l) xs))
    /\ (forall e, mapM (apply_tuple f) xs = Raise e ->
                  exists e', mapM f (flat_map leaves xs) = Raise e'
                             /\ generator_error e = generator_error e')).
  { induction IH as [|x r [Hok Herr] _ [IHok IHerr]].
    - split; [|discriminate]. intros rs [= <-]. exists []. now split.
    - cbn [mapM flat_map]. rewrite mapM_app.
      destruct (apply_tuple f x) as [y|e] eqn:Ex; cbn [bind].
      + destruct (Hok y eq_refl) as (ys & Eys & Hys). rewrite Eys. cbn [bind].
        destruct (mapM (apply_tuple f) r) as [rs|e] eqn:Er; cbn [bind].
        * destruct (IHok rs eq_refl) as (ys' & Eys' & Hys').
          rewrite Eys'. cbn [bind]. split; [|discriminate].
          intros rs0 [= <-]. exists (ys ++ ys'). split; [reflexivity|].
          intros Hk.
          destruct (Hys (@keeps_leaves_app_l _ _ _ Hk)) as [H1 H2].
          destruct (Hys' (@keeps_leaves_app_r _ _ _ Hk)) as [H3 H4].
          cbn [flat_map map]. split; [now rewrite H1, H3|].
          intros l. now rewrite H2, H4.
        * destruct (IHerr e eq_refl) as (e' & Ee' & Hg).
          rewrite Ee'. cbn [bind]. split; [discriminate|].
          intros e0 [= <-]. now exists e'.
      + destruct (Herr e eq_refl) as (e' & Ee' & ->).
        rewrite Ee'. cbn [bind]. split; [discriminate|].
        intros e0 [= <-]. exists e'. split; [reflexivity|].
        apply apply_error_generator. }
  destruct Hlist as [Hok Herr].
  destruct (mapM (apply_tuple f) xs) as [rs|e]; cbn [in_generator bind].
  - split; [|discriminate]. intros r [= <-].
    destruct (Hok rs eq_refl) as (ys & Eys & Hys). exists ys.
    split; [exact Eys|]. intros Hk. destruct (Hys Hk) as [H1 H2].
    split; [exact H1|]. intros l. cbn [tuple_levels]. now rewrite H2.
  - split; [discriminate|]. intros e0 [= <-].
    destruct (Herr e eq_refl) as (e' & Ee' & Hg). exists e'.
    split; [exact Ee' | exact Hg].
Qed.

(** X2: [apply] keeps the topology and maps the leaves in order, when [func]
    gives no Tuple. *)
Theorem apply_tuple_topology (data r : value) :
  apply_tuple f data = Ok r ->
  keeps_leaves f (leaves data) ->
  mapM f (leaves data) = Ok (leaves r)
  /\ forall l, tuple_levels r l = tuple_levels data l.
Proof.
  intros Hr Hk.
  destruct (proj1 (apply_tuple_leaves data) r Hr) as (ys & Eys & Hys).
  destruct (Hys Hk) as [<- Hl]. now split.
Qed.

(** X3: [apply] raises exactly when [func] raises on a leaf; the error is
    that of the first such leaf from the left, as the generator
    expressions around the calls pass it on: unchanged from a value that
    is no container, and from a container unchanged unless it is a
    StopIteration, in the place of which the RuntimeError of the
    generator is raised. It raises nothing else and swallows no error. *)
Theorem apply_tuple_first_error (data : value) (e : exn) :
  apply_tuple f data = Raise e
  <-> exists e', mapM f (leaves data) = Raise e'
                 /\ e = (if is_container data then generator_error e' else e').
Proof.
  split; [apply (proj2 (apply_tuple_leaves data))|].
  intros (e' & He' & ->). destruct (apply_tuple f data) as [r|e0] eqn:E.
  - destruct (proj1 (apply_tuple_leaves data) r E) as (ys & Eys & _).
    congruence.
  - destruct (proj2 (apply_tuple_leaves data) e0 E) as (e1 & He1 & ->).
    rewrite He' in He1. injection He1 as <-. reflexivity.
Qed.

(** X4: Two [apply] in a row are one [apply] of the composition. *)
Theorem apply_tuple_compose (g : value -> result value) (data : value) :
  forall r,
    apply_tuple f data = Ok r ->
    keeps_leaves f (leaves data) ->
    apply_tuple g r = apply_tuple (fun x => y <- f x ;; g y) data.
Proof.
  induction data as [xs IH| | | | | | | | | |] using value_ind_nested;
    intros r Hr Hk;
    try (cbn [apply_tuple] in *; rewrite Hr; cbn [bind];
         apply apply_tuple_leaf;
         eapply Hk; [left; reflexivity | exact Hr]).
  cbn [apply_tuple leaves] in *.
  destruct (mapM (apply_tuple f) xs) as [rs|e] eqn:Ers; [|discriminate Hr].
  injection Hr as <-. cbn [apply_tuple].
  assert (H : mapM (apply_tuple g) rs
              = mapM (apply_tuple (fun x => y <- f x ;; g y)) xs).
  { revert rs Ers Hk. induction IH as [|x r Hx _ IHr]; intros rs Ers Hk.
    - injection Ers as <-. reflexivity.
    - cbn [mapM] in Ers.
      destruct (apply_tuple f x) as [y|e] eqn:Ex; [|discriminate Ers].
      destruct (mapM (apply_tuple f) r) as [rs'|e] eqn:Er; [|discriminate Ers].
      injection Ers as <-. cbn [flat_map] in Hk. cbn [mapM].
      rewrite (Hx y eq_refl (@keeps_leaves_app_l _ _ _ Hk)).
      now rewrite (IHr rs' eq_refl (@keeps_leaves_app_r _ _ _ Hk)). }
  now rewrite H.
Qed.
End ApplyFacts.

Lemma apply_tuple_topology_witness :
  Tuple_shapes (Tuple [Toy.a1; Tuple [Toy.b1]])
  = Ok (Tuple [PyTuple [PyInt 2; PyInt 2]; Tuple [PyTuple [PyInt 1; PyInt 2]]])
  /\ tuple_levels
       (Tuple [PyTuple [PyInt 2; PyInt 2]; Tuple [PyTuple [PyInt 1; PyInt 2]]]) 0
     = tuple_levels (Tuple [Toy.a1; Tuple [Toy.b1]]) 0.
Proof.
  assert (E : apply_tuple shape_attr
                          (Tuple [Toy.a1; Tuple [Toy.b1]])
              = Ok (Tuple [PyTuple [PyInt 2; PyInt 2];
                           Tuple [PyTuple [PyInt 1; PyInt 2]]]))
    by reflexivity.
  split; [exact E|].
  apply (apply_tuple_topology _ E).
  intros x y [<-|[<-|[]]] [= <-]; reflexivity.
Defined.

Lemma apply_tuple_first_error_witness :
  Tuple_shapes (Tuple [Toy.a1; Tuple [PyInt 1]; PyBool true])
  = Raise (no_attribute (PyInt 1) "shape")
  /\ apply_tuple (fun _ => Raise (Exn StopIteration "")) (Tuple [PyInt 1])
     = Raise (Exn RuntimeError "generator raised StopIteration")
  /\ apply_tuple (fun _ => Raise (Exn StopIteration "")) (PyInt 1)
     = Raise (Exn StopIteration "").
Proof.
  split; [|split].
  - unfold Tuple_shapes, shapes_of. cbn [Tuple_items bind].
    apply (proj2 (apply_tuple_first_error shape_attr
                    (Tuple [Toy.a1; Tuple [PyInt 1]; PyBool true]) _)).
    exists (no_attribute (PyInt 1) "shape"). split; reflexivity.
  - apply (proj2 (apply_tuple_first_error
                    (fun _ => Raise (Exn StopIteration "")) (Tuple [PyInt 1]) _)).
    exists (Exn StopIteration ""). split; reflexivity.
  - apply (proj2 (apply_tuple_first_error
                    (fun _ => Raise (Exn StopIteration "")) (PyInt 1) _)).
    exists (Exn StopIteration ""). split; reflexivity.
Defined.

Lemma apply_tuple_compose_witness :
  (shapes <- Tuple_shapes (Tuple [Toy.a1; Tuple [Toy.b1]]) ;;
   apply_tuple (fun x => getslice (B := Toy.backend) x 1) shapes)
  = apply_tuple
      (fun x => y <- shape_attr x ;; getslice (B := Toy.backend) y 1)
      (Tuple [Toy.a1; Tuple [Toy.b1]]).
Proof.
  assert (E : apply_tuple shape_attr
                          (Tuple [Toy.a1; Tuple [Toy.b1]])
              = Ok (Tuple [PyTuple [PyInt 2; PyInt 2];
                           Tuple [PyTuple [PyInt 1; PyInt 2]]]))
    by reflexivity.
  unfold Tuple_shapes, shapes_of. cbn [Tuple_items bind]. rewrite E. cbn [bind].
  apply (apply_tuple_compose
           (fun x => getslice (B := Toy.backend) x 1) _ E).
  intros x y [<-|[<-|[]]] [= <-]; reflexivity.
Defined.

(** ** [type_of] *)

Lemma exn_class_eqb_eq (a b : exn_class) : exn_class_eqb a b = true <-> a = b.
Proof. destruct a, b; cbn; split; congruence. Qed.

Lemma pytype_eqb_eq (a b : pytype) : pytype_eqb a b = true <-> a = b.
Proof.
  destruct a, b; cbn; try (split; congruence).
  - rewrite exn_class_eqb_eq. split; congruence.
  - rewrite String.eqb_eq. split; congruence.
Qed.

Lemma mapM_pure {A C : Type} (g : A -> C) (l : list A) :
  mapM (fun x => Ok (g x)) l = Ok (map g l).
Proof. induction l as [|a r IH]; cbn; [reflexivity | now rewrite IH]. Qed.

Lemma filter_length_forallb {A : Type} (p : A -> bool) (l : list A) :
  Nat.eqb (List.length (filter p l)) (List.length l) = forallb p l.
Proof.
  induction l as [|a r IH]; [reflexivity|]. cbn [filter forallb].
  destruct (p a); cbn [andb List.length].
  - exact IH.
  - apply Nat.eqb_neq. pose proof (filter_length_le p r). lia.
Qed.

Section TypeOfFacts.
Context {B : Backend}.

Lemma count_types (ts : list pytype) (t0 : pytype) :
  count (map PyType ts) (PyType t0)
  = Ok (List.length (filter (fun t => pytype_eqb t t0) ts)).
Proof.
  induction ts as [|t r IH]; [reflexivity|].
  cbn [map count eq_bool is_leaf_object bind filter]. rewrite IH. cbn [bind].
  now destruct (pytype_eqb t t0).
Qed.

(** The classes of the leaves, as [types().flatten()] gives them. *)
Lemma types_flatten (xs : list value) :
  (ts <- Tuple_types (Tuple xs) ;; Tuple_flatten ts)
  = Ok (Tuple (map (fun x => PyType (type_ x)) (leaves (Tuple xs)))).
Proof.
  unfold Tuple_types, types_of. cbn [Tuple_items bind].
  set (f := fun x : value => Ok (PyType (type_ x))).
  assert (Hk : keeps_leaves f (leaves (Tuple xs)))
    by (intros x y _ [= <-]; reflexivity).
  destruct (apply_tuple f (Tuple xs)) as [r|e] eqn:E.
  - destruct (proj1 (apply_tuple_leaves f (Tuple xs)) r E) as (ys & Eys & Hys).
    destruct (Hys Hk) as [Hl Hlv]. subst ys.
    unfold f in Eys. rewrite mapM_pure in Eys. injection Eys as Hl.
    specialize (Hlv 0). symmetry in Hlv.
    apply tuple_levels_node in Hlv. destruct Hlv as (rs & -> & _).
    cbn [bind]. unfold Tuple_flatten. cbn [Tuple_items bind].
    rewrite flatten_tuple_flat_map. cbn [leaves] in Hl. now rewrite <- Hl.
  - apply (proj2 (apply_tuple_leaves f (Tuple xs))) in E.
    destruct E as (e' & E & _). unfold f in E.
    rewrite mapM_pure in E. discriminate E.
Qed.

Lemma type_of_eq (xs : list value) :
  type_of (Tuple xs)
  = match map type_ (leaves (Tuple xs)) with
    | [] => Raise (Exn IndexError "tuple index out of range")
    | t0 :: ts =>
        if forallb (fun t => pytype_eqb t t0) ts
        then Ok (PyType t0)
        else Raise (Exn ValueError
                        "All objects in 'data' doest have the same type.")
    end.
Proof.
  pose proof (types_flatten xs) as H.
  unfold type_of.
  destruct (Tuple_types (Tuple xs)) as [ts|e]; [|discriminate H].
  cbn [bind] in *. rewrite H. cbn [bind Tuple_items].
  rewrite <- map_map.
  destruct (map type_ (leaves (Tuple xs))) as [|t0 ts']; [reflexivity|].
  cbn [map getitem nth_error bind].
  change (PyType t0 :: map PyType ts') with (map PyType (t0 :: ts')).
  rewrite count_types. cbn [bind]. rewrite length_map, filter_length_forallb.
  cbn [forallb].
  assert (Ht : pytype_eqb t0 t0 = true) by now apply pytype_eqb_eq.
  rewrite Ht. cbn [andb]. now destruct (forallb _ ts').
Qed.

Lemma forallb_types (t0 : pytype) (l : list value) :
  forallb (fun t => pytype_eqb t t0) (map type_ l) = true
  <-> Forall (fun v => type_ v = t0) l.
Proof.
  rewrite forallb_forall, Forall_forall. split.
  - intros H v Hv. apply pytype_eqb_eq. apply H. now apply in_map.
  - intros H t Ht. apply in_map_iff in Ht. destruct Ht as (v & <- & Hv).
    apply pytype_eqb_eq. now apply H.
Qed.

(** [type_of] returns exactly on the containers that have a leaf and whose
    leaves are all of one class, and returns that class. *)
Lemma type_of_ok_iff (xs : list value) (t : value) :
  type_of (Tuple xs) = Ok t
  <-> exists t0, t = PyType t0
                 /\ leaves (Tuple xs) <> []
                 /\ Forall (fun v => type_ v = t0) (leaves (Tuple xs)).
Proof.
  rewrite type_of_eq.
  destruct (leaves (Tuple xs)) as [|v l] eqn:El; cbn [map].
  - split; [discriminate|]. now intros (t0 & _ & H & _).
  - destruct (forallb (fun t1 => pytype_eqb t1 (type_ v)) (map type_ l)) eqn:Ef.
    + apply forallb_types in Ef. split.
      * intros [= <-]. exists (type_ v). split; [reflexivity|].
        split; [discriminate|]. now constructor.
      * intros (t0 & -> & _ & Hall). inversion Hall as [|? ? Hv _]. now subst.
    + split; [discriminate|]. intros (t0 & -> & _ & Hall). exfalso.
      inversion Hall as [|? ? Hv Hl]. subst.
      apply forallb_types in Hl. congruence.
Qed.

(** X5: [type_of] of a container: it returns a class exactly when there is a
    leaf and all the leaves are of that class; without any leaf it raises
    an IndexError; with two leaves of different classes the ValueError. *)
Theorem type_of_leaves (xs : list value) :
  (forall t0 : pytype,
      type_of (Tuple xs) = Ok (PyType t0)
      <-> leaves (Tuple xs) <> []
          /\ Forall (fun v => type_ v = t0) (leaves (Tuple xs)))
  /\ (leaves (Tuple xs) = [] ->
      type_of (Tuple xs) = Raise (Exn IndexError "tuple index out of range"))
  /\ (forall a b : value,
         In a (leaves (Tuple xs)) -> In b (leaves (Tuple xs)) ->
         type_ a <> type_ b ->
         type_of (Tuple xs)
         = Raise (Exn ValueError
                      "All objects in 'data' doest have the same type.")).
Proof.
  split; [|split].
  - intros t0. rewrite type_of_ok_iff. split.
    + intros (t1 & [= <-] & H). exact H.
    + intros H. now exists t0.
  - intros El. rewrite type_of_eq, El. reflexivity.
  - intros a b Ha Hb Hab. rewrite type_of_eq.
    destruct (leaves (Tuple xs)) as [|v l]; [destruct Ha|].
    cbn [map].
    destruct (forallb (fun t1 => pytype_eqb t1 (type_ v)) (map type_ l)) eqn:Ef;
      [|reflexivity].
    exfalso. apply forallb_types in Ef. rewrite Forall_forall in Ef.
    assert (Hv : forall c, In c (v :: l) -> type_ c = type_ v)
      by (intros c [<-|Hc]; [reflexivity | now apply Ef]).
    apply Hab. now rewrite (Hv a Ha), (Hv b Hb).
Qed.
End TypeOfFacts.

Lemma type_of_leaves_witness :
  type_of (B := Toy.backend) (Tuple [Toy.a1; Tuple [Toy.b1]]) = Ok (PyType TyNdarray)
  /\ type_of (B := Toy.backend) (Tuple [Toy.a1; Tuple [PyInt 1]])
     = Raise (Exn ValueError "All objects in 'data' doest have the same type.")
  /\ type_of (B := Toy.backend) (Tuple [Tuple []; Tuple [Tuple []]])
     = Raise (Exn IndexError "tuple index out of range").
Proof.
  split; [|split].
  - apply (proj1 (type_of_leaves (B := Toy.backend) [Toy.a1; Tuple [Toy.b1]])).
    split; [discriminate|]. repeat constructor.
  - apply (proj2 (proj2 (type_of_leaves (B := Toy.backend)
                           [Toy.a1; Tuple [PyInt 1]])) Toy.a1 (PyInt 1)).
    + left. reflexivity.
    + right. left. reflexivity.
    + discriminate.
  - apply (proj1 (proj2 (type_of_leaves (B := Toy.backend)
                           [Tuple []; Tuple [Tuple []]]))).
    reflexivity.
Defined.

(** ** [tuple_levels] *)

(** X6: [to_levels()] gives 0 at every place exactly on the flat containers
    (the default start level -1 is chosen for that). *)
Theorem to_levels_flat (xs : list value) :
  is_flat (Tuple xs) = true
  <-> Tuple_to_levels (Tuple xs) = Ok (Tuple (map (fun _ => PyInt 0) xs)).
Proof.
  unfold Tuple_to_levels. cbn [Tuple_items bind tuple_levels is_flat].
  change (-1 + 1) with 0.
  induction xs as [|x r IH]; [cbn; tauto|].
  cbn [forallb map]. rewrite andb_true_iff, IH. clear IH. split.
  - intros [Hx Hr]. injection Hr as Hr. rewrite Hr.
    apply negb_true_iff in Hx. now rewrite (tuple_levels_leaf _ _ Hx).
  - intros [= Hx Hr]. rewrite Hr. split; [|reflexivity].
    destruct x; try reflexivity. discriminate Hx.
Qed.

Lemma to_levels_flat_witness :
  Tuple_to_levels (Tuple [Toy.a1; PyList [Toy.b1]; PyInt 3])
  = Ok (Tuple [PyInt 0; PyInt 0; PyInt 0]).
Proof.
  apply (proj1 (to_levels_flat [Toy.a1; PyList [Toy.b1]; PyInt 3])).
  reflexivity.
Defined.

(** ** [reduce_tuple] *)

Lemma flat_same_topology (xs : list value) :
  is_flat (Tuple xs) = true -> all_same_topology xs.
Proof.
  cbn [is_flat]. rewrite forallb_forall. intros H x y Hx Hy.
  unfold same_topology.
  pose proof (H x Hx) as Cx. pose proof (H y Hy) as Cy.
  apply negb_true_iff in Cx, Cy.
  now rewrite (tuple_levels_leaf _ _ Cx), (tuple_levels_leaf _ _ Cy).
Qed.

Section ReduceTopology.
Context {B : Backend}.
Variable func : value -> value -> result value.
Hypothesis func_leaf : gives_no_tuple2 func.

Lemma foldM_reduce_rec_flat (rest : list value) :
  forall x, is_container x = false ->
            foldM (reduce_rec func) rest x = foldM func rest x.
Proof.
  induction rest as [|v r IH]; intros x Hx; [reflexivity|].
  cbn [foldM].
  assert (E : reduce_rec func x v = func x v)
    by (destruct x; try reflexivity; discriminate Hx).
  rewrite E. destruct (func x v) as [acc|e] eqn:Ef; [|reflexivity].
  cbn [bind]. apply IH. exact (@func_leaf _ _ _ Ef).
Qed.

Lemma reduce_rec_levels (acc : value) :
  forall (val r : value) (l : Z),
    tuple_levels acc l = tuple_levels val l ->
    reduce_rec func acc val = Ok r ->
    tuple_levels r l = tuple_levels acc l.
Proof.
  induction acc as [avs IH| | | | | | | | | |] using value_ind_nested;
    try (intros val r l _ Hr; cbn [reduce_rec] in Hr;
         rewrite (tuple_levels_leaf _ _ (@func_leaf _ _ _ Hr)); reflexivity).
  intros val r l Hl Hr.
  apply tuple_levels_node in Hl. destruct Hl as (vs & -> & Hmap).
  cbn [reduce_rec iter_ bind] in Hr.
  destruct (zipM (reduce_rec func) avs vs) as [rs|e] eqn:Ez; [|discriminate Hr].
  injection Hr as <-. cbn [tuple_levels]. f_equal.
  revert vs rs Hmap Ez.
  induction IH as [|a avs' Ha _ IHl]; intros vs rs Hmap Ez.
  - cbn in Ez. now injection Ez as <-.
  - destruct vs as [|v vs']; [discriminate Hmap|].
    cbn [map] in Hmap. injection Hmap as Hv Hmap.
    cbn [zipM] in Ez.
    destruct (reduce_rec func a v) as [d|e] eqn:Ed; [|discriminate Ez].
    cbn [bind] in Ez.
    destruct (zipM (reduce_rec func) avs' vs') as [ds|e] eqn:Eds;
      [|discriminate Ez].
    injection Ez as <-. cbn [map].
    f_equal; [exact (Ha _ _ _ Hv Ed) | exact (IHl _ _ Hmap Eds)].
Qed.

Lemma foldM_reduce_rec_levels (es : list value) :
  forall acc r : value,
    (forall e, In e es -> tuple_levels acc 0 = tuple_levels e 0) ->
    foldM (reduce_rec func) es acc = Ok r ->
    tuple_levels r 0 = tuple_levels acc 0.
Proof.
  induction es as [|e es' IH]; intros acc r Hes Hr.
  - cbn in Hr. now injection Hr as <-.
  - cbn [foldM] in Hr.
    destruct (reduce_rec func acc e) as [acc'|err] eqn:Ea; [|discriminate Hr].
    cbn [bind] in Hr.
    pose proof (reduce_rec_levels acc e 0 (Hes e (or_introl eq_refl)) Ea) as Hl.
    rewrite <- Hl. apply IH; [|exact Hr].
    intros e' He'. rewrite Hl. apply Hes. now right.
Qed.


End ReduceTopology.

Lemma count_one_no_tuple : gives_no_tuple2 Toy.count_one.
Proof. intros a b r. destruct a; cbn; try discriminate. now intros [= <-]. Qed.

Lemma add_no_tuple : gives_no_tuple2 Toy.add.
Proof.
  intros a b r. destruct a; cbn; try discriminate.
  destruct b; try discriminate. now intros [= <-].
Qed.




(** ** [cat] and [split] *)

Section CatSplitFacts.
Context {B : Backend}.

(** What [agg_list] needs to return: elements of one topology, the first
    of which is a Tuple. *)
Lemma agg_list_ok (xs : list value) (agg : value) :
  agg_list (Tuple xs) = Ok agg ->
  all_same_topology xs
  /\ exists x rest, xs = x :: rest /\ is_container x = true.
Proof.
  unfold agg_list. intros H.
  destruct (reduce_tuple_check agg_list_append_func (Some agg_list_init_func) xs)
    as (b & Hb & Hred).
  rewrite Hred in H. destruct b; [|discriminate H].
  split; [now apply Hb|].
  unfold reduce_fold in H. cbn [iter_ bind] in H.
  destruct xs as [|x rest]; [discriminate H|].
  exists x, rest. split; [reflexivity|].
  cbn [getitem nth_error bind] in H.
  destruct x; try discriminate H. reflexivity.
Qed.

(** X9: [cat] returns only for [dim = 0], on a Tuple whose first element is a
    Tuple, whose elements have one topology, and whose leaves are all
    tensors or all arrays; then it is the concatenation function of that
    library, applied to the aggregate. *)
Theorem cat_requires (seq : value) (dim : Z) (r : value) :
  cat seq dim = Ok r ->
  dim = 0
  /\ (exists x rest, seq = Tuple (x :: rest) /\ is_container x = true
                     /\ all_same_topology (x :: rest))
  /\ exists t0 concat,
       (t0 = TyTensor /\ concat = torch_cat
        \/ t0 = TyNdarray /\ concat = np_concatenate)
       /\ Forall (fun v => type_ v = t0) (leaves seq)
       /\ (agg <- agg_list seq ;; apply_tuple concat agg) = Ok r.
Proof.
  unfold cat. intros H.
  destruct (dim =? 0) eqn:Ed; [|discriminate H]. apply Z.eqb_eq in Ed.
  cbn [negb] in H.
  destruct seq as [xs| | | | | | | | | |]; try discriminate H.
  destruct (Tuple_shapes (Tuple xs)) as [shapes|e]; [|discriminate H].
  cbn [bind] in H.
  destruct (Tuple_apply shapes _) as [tails|e]; [|discriminate H].
  cbn [bind] in H.
  destruct (Tuple_all_equal tails) as [same|e]; [|discriminate H].
  cbn [bind] in H. destruct same; [|discriminate H]. cbn [negb] in H.
  unfold Tuple_type, Tuple_agg_list in H. cbn [Tuple_items bind] in H.
  destruct (type_of (Tuple xs)) as [ty|e] eqn:Et; [|discriminate H].
  cbn [bind] in H.
  destruct (agg_list (Tuple xs)) as [agg|e] eqn:Ea; [|discriminate H].
  cbn [bind] in H.
  apply type_of_ok_iff in Et. destruct Et as (t0 & -> & _ & Hall).
  destruct (agg_list_ok _ Ea) as (Hsame & x & rest & -> & Hx).
  split; [exact Ed|]. split; [now exists x, rest|].
  assert (Hagg : exists items, agg = Tuple items).
  { destruct t0; try discriminate H;
      (destruct agg; try discriminate H; eexists; reflexivity). }
  destruct Hagg as (items & ->).
  unfold Tuple_apply in H. cbn [Tuple_items bind] in H.
  destruct t0; try discriminate H.
  - exists TyTensor, torch_cat. split; [now left|]. now split.
  - exists TyNdarray, np_concatenate. split; [now right|]. now split.
Qed.

Variable tensor_split : array -> value -> result value.

Lemma split_ok_iff (data split_size : value) (dim : Z) (r : value) :
  split tensor_split data split_size dim = Ok r
  <-> dim = 0
      /\ is_container data = true
      /\ leaves data <> []
      /\ Forall (fun v => type_ v = TyTensor) (leaves data)
      /\ (splitted <- apply_tuple (split_leaf tensor_split split_size) data ;;
          split_agg splitted) = Ok r.
Proof.
  unfold split. split.
  - intros H.
    destruct (dim =? 0) eqn:Ed; [|discriminate H]. apply Z.eqb_eq in Ed.
    cbn [negb] in H.
    destruct data as [xs| | | | | |p| | | |]; try discriminate H;
      [|destruct p; discriminate H].
    unfold Tuple_type in H. cbn [Tuple_items bind] in H.
    destruct (type_of (Tuple xs)) as [ty|e] eqn:Et; [|discriminate H].
    cbn [bind] in H.
    apply type_of_ok_iff in Et. destruct Et as (t0 & -> & Hne & Hall).
    destruct t0; try discriminate H.
    unfold Tuple_apply in H. cbn [Tuple_items bind] in H.
    repeat split; assumption.
  - intros (-> & Hc & Hne & Hall & H).
    apply is_container_spec in Hc. destruct Hc as (xs & ->).
    cbn [Z.eqb negb]. unfold Tuple_type. cbn [Tuple_items bind].
    assert (Et : type_of (Tuple xs) = Ok (PyType TyTensor))
      by (apply type_of_ok_iff; now exists TyTensor).
    rewrite Et. cbn [bind]. unfold Tuple_apply. cbn [Tuple_items bind].
    exact H.
Qed.

(** X10: [split], the function and the method alike (the method passes [dim]
    on), returns exactly for [dim = 0] on a Tuple with a leaf whose leaves
    are all tensors, and then it is [split_agg] of the pieces of every
    leaf. *)
Theorem split_tensors_only (data split_size : value) (dim : Z) (r : value) :
  let returns :=
    dim = 0
    /\ is_container data = true
    /\ leaves data <> []
    /\ Forall (fun v => type_ v = TyTensor) (leaves data)
    /\ (splitted <- apply_tuple (split_leaf tensor_split split_size) data ;;
        split_agg splitted) = Ok r in
  (split tensor_split data split_size dim = Ok r <-> returns)
  /\ (Tuple_split tensor_split data split_size dim = Ok r <-> returns).
Proof.
  intros returns. split; [apply split_ok_iff|].
  destruct (is_container data) eqn:Ec.
  - apply is_container_spec in Ec. destruct Ec as (xs & ->).
    unfold Tuple_split. cbn [Tuple_items bind]. apply split_ok_iff.
  - split.
    + intros H. exfalso. destruct data; try discriminate H. discriminate Ec.
    + intros (_ & Hc & _). congruence.
Qed.
End CatSplitFacts.

Lemma cat_requires_witness :
  cat (B := Toy.backend) (Tuple [Tuple [Toy.a1]; Tuple [Toy.b1]]) 0
  = Ok (Tuple [Toy.a1b1])
  /\ Forall (fun v => type_ v = TyNdarray)
            (leaves (Tuple [Tuple [Toy.a1]; Tuple [Toy.b1]])).
Proof.
  assert (E : cat (B := Toy.backend) (Tuple [Tuple [Toy.a1]; Tuple [Toy.b1]]) 0
              = Ok (Tuple [Toy.a1b1])) by reflexivity.
  split; [exact E|].
  destruct (cat_requires (B := Toy.backend) _ _ E)
    as (_ & _ & t0 & concat & _ & Hall & _).
  inversion Hall as [|v l Hv Hl]; subst. exact Hall.
Defined.

Lemma split_tensors_only_witness :
  split (B := Toy.backend) Toy.split
        (Tuple [Tensor (MkArray "int64" [2; 2] [1; 2; 3; 4])]) (PyInt 1) 0
  = Ok (Tuple [Tuple [Tensor (MkArray "int64" [1; 2] [1; 2])];
               Tuple [Tensor (MkArray "int64" [1; 2] [3; 4])]]).
Proof.
  apply (proj2 (proj1 (split_tensors_only (B := Toy.backend) Toy.split
                         _ _ _ _))).
  split; [reflexivity|]. split; [reflexivity|]. split; [discriminate|].
  split; [repeat constructor | reflexivity].
Defined.

(** ** [tuplefy] and [split_agg] *)

Lemma deep_leaves_tuplefy_sub (v : value) :
  leaves (tuplefy_sub v) = deep_leaves v.
Proof.
  induction v as [xs IH|xs IH|xs IH| | | | | | | |] using value_ind_nested;
    try reflexivity;
    cbn [tuplefy_sub leaves deep_leaves];
    (induction IH as [|x r Hx _ IHr]; [reflexivity|];
     cbn [map flat_map]; now rewrite Hx, IHr).
Qed.

Lemma deep_leaves_not_sequences (v : value) :
  forallb (fun x => negb (in_types (type_ x) default_types)) (deep_leaves v)
  = true.
Proof.
  induction v as [xs IH|xs IH|xs IH| | | | | | | |] using value_ind_nested;
    try reflexivity;
    cbn [deep_leaves];
    (induction IH as [|x r Hx _ IHr]; [reflexivity|];
     cbn [flat_map]; rewrite forallb_app, Hx, IHr; reflexivity).
Qed.

(** X11: With the default [types], [tuplefy] always returns; no list or builtin
    tuple is left among the leaves of what it returns, and these leaves
    are the leaves of the argument read through its lists and tuples, in
    order. *)
Theorem tuplefy_leaves {B : Backend} (data : value) :
  exists r, tuplefy data default_types = Ok r
            /\ leaves r = deep_leaves data
            /\ tuplefied r = true.
Proof.
  exists (tuplefy_sub data). split; [apply tuplefy_default|].
  split; [apply deep_leaves_tuplefy_sub|].
  unfold tuplefied. rewrite deep_leaves_tuplefy_sub.
  apply deep_leaves_not_sequences.
Qed.

Lemma zip_cons_length_min {A : Type} (r : list A) (rs : list (list A)) :
  List.length (zip_cons r rs) = Nat.min (List.length r) (List.length rs).
Proof.
  revert rs. induction r as [|x r IH]; intros [|t rs]; cbn; try reflexivity.
  now rewrite IH.
Qed.

Lemma mapM_split_agg_lists {B : Backend} (ls : list (list value)) :
  mapM split_agg (map PyList ls) = Ok (map PyList ls).
Proof. induction ls as [|l r IH]; cbn; [reflexivity | now rewrite IH]. Qed.

Lemma mapM_iter_lists {B : Backend} (ls : list (list value)) :
  mapM iter_ (map PyList ls) = Ok ls.
Proof. induction ls as [|l r IH]; cbn; [reflexivity | now rewrite IH]. Qed.

(** X12: [split_agg] of a flat aggregate: the lists are read in step, up to the
    end of the shortest one (a longer list loses its tail without an
    error), and every row becomes a Tuple, with the lists and tuples
    inside it converted as well. *)
Theorem split_agg_flat {B : Backend} (ls : list (list value)) :
  split_agg (Tuple (map PyList ls))
  = Ok (Tuple (map (fun row => Tuple (map tuplefy_sub row)) (zip_star ls)))
  /\ List.length (zip_star ls) = shortest ls.
Proof.
  split.
  - cbn [split_agg]. rewrite mapM_split_agg_lists. cbn [in_generator bind].
    rewrite mapM_iter_lists. cbn [bind].
    unfold Tuple_tuplefy. cbn [Tuple_items bind].
    rewrite tuplefy_default. cbn [tuplefy_sub]. now rewrite map_map.
  - induction ls as [|l rest IH]; [reflexivity|].
    cbn [zip_star shortest]. destruct rest as [|l' rest'].
    + apply length_map.
    + now rewrite zip_cons_length_min, IH.
Qed.

(** ** [agg_list] on rows *)

Lemma zip_cons_snoc_cols (r0 : list value) :
  forall (cs : list (list value)) (r : list value),
    zip_cons r0 (snoc_cols cs r) = snoc_cols (zip_cons r0 cs) r.
Proof.
  induction r0 as [|x r0' IH]; intros [|c cs] [|v r]; cbn; try reflexivity.
  now rewrite IH.
Qed.

Lemma zip_cons_singletons (r0 : list value) :
  forall r : list value,
    zip_cons r0 (map (fun x => [x]) r) = snoc_cols (map (fun x => [x]) r0) r.
Proof.
  induction r0 as [|x r0' IH]; intros [|v r]; cbn; try reflexivity.
  now rewrite IH.
Qed.

Lemma zip_star_snoc_row (rs : list (list value)) :
  forall r0 r : list value,
    zip_star (r0 :: rs ++ [r]) = snoc_cols (zip_star (r0 :: rs)) r.
Proof.
  induction rs as [|r1 rs IH]; intros r0 r.
  - cbn [app zip_star]. apply zip_cons_singletons.
  - change (zip_star (r0 :: (r1 :: rs) ++ [r]))
      with (zip_cons r0 (zip_star (r1 :: rs ++ [r]))).
    rewrite IH. now rewrite zip_cons_snoc_cols.
Qed.

Lemma fold_snoc_cols (rs : list (list value)) :
  forall r0 : list value,
    fold_left snoc_cols rs (map (fun x => [x]) r0) = zip_star (r0 :: rs).
Proof.
  induction rs as [|r rs IH] using rev_ind; intros r0; [reflexivity|].
  rewrite fold_left_app. cbn [fold_left]. rewrite IH.
  symmetry. apply zip_star_snoc_row.
Qed.

Lemma snoc_cols_empty (r0 : list value) :
  snoc_cols (map (fun _ => []) r0) r0 = map (fun x => [x]) r0.
Proof. induction r0 as [|x r IH]; cbn; [reflexivity | now rewrite IH]. Qed.

Lemma blank_flat (r0 : list value) :
  is_flat (Tuple r0) = true ->
  map blank r0 = map PyList (map (fun _ => []) r0).
Proof.
  cbn [is_flat]. induction r0 as [|x r IH]; [reflexivity|].
  cbn [forallb map]. rewrite andb_true_iff, negb_true_iff.
  intros [Hx Hr]. rewrite (IH Hr). f_equal.
  destruct x; try reflexivity. discriminate Hx.
Qed.

Lemma levels_flat_row (r : list value) (l : Z) :
  is_flat (Tuple r) = true ->
  tuple_levels (Tuple r) l = Tuple (repeat (PyInt (l + 1)) (List.length r)).
Proof.
  cbn [is_flat tuple_levels]. intros H. f_equal.
  induction r as [|x r IH]; [reflexivity|].
  cbn [forallb] in H. apply andb_true_iff in H. destruct H as [Hx Hr].
  apply negb_true_iff in Hx.
  cbn [map List.length repeat]. now rewrite (tuple_levels_leaf _ _ Hx), (IH Hr).
Qed.

Section AggRows.
Context {B : Backend}.

Lemma zipM_append (cols : list (list value)) :
  forall r : list value,
    zipM (reduce_rec agg_list_append_func) (map PyList cols) r
    = Ok (map PyList (snoc_cols cols r)).
Proof.
  induction cols as [|c cs IH]; intros [|v r]; cbn [map zipM snoc_cols];
    try reflexivity.
  cbn [reduce_rec agg_list_append_func bind]. now rewrite IH.
Qed.

Lemma foldM_append_rows (rs : list (list value)) :
  forall cols : list (list value),
    foldM (reduce_rec agg_list_append_func) (map Tuple rs)
          (Tuple (map PyList cols))
    = Ok (Tuple (map PyList (fold_left snoc_cols rs cols))).
Proof.
  induction rs as [|r rs IH]; intros cols; cbn [map foldM fold_left];
    [reflexivity|].
  cbn [reduce_rec iter_ bind]. rewrite zipM_append. cbn [bind]. apply IH.
Qed.

Lemma mapM_apply_lists (f : value -> result value) (cols : list (list value)) :
  mapM (apply_tuple f) (map PyList cols)
  = mapM (fun col => f (PyList col)) cols.
Proof.
  induction cols as [|c cs IH]; [reflexivity|].
  cbn [map mapM apply_tuple]. now rewrite IH.
Qed.

Lemma agg_list_rows_eq (r0 : list value) (rest : list (list value)) :
  Forall (fun r => is_flat (Tuple r) = true
                   /\ List.length r = List.length r0) (r0 :: rest) ->
  agg_list (Tuple (map Tuple (r0 :: rest)))
  = Ok (Tuple (map PyList (zip_star (r0 :: rest)))).
Proof.
  intros Hrows. unfold agg_list.
  destruct (reduce_tuple_check agg_list_append_func (Some agg_list_init_func)
                               (map Tuple (r0 :: rest)))
    as (b & Hb & ->).
  assert (Hsame : all_same_topology (map Tuple (r0 :: rest))).
  { rewrite Forall_forall in Hrows.
    intros x y Hx Hy. apply in_map_iff in Hx, Hy.
    destruct Hx as (rx & <- & Hx). destruct Hy as (ry & <- & Hy).
    destruct (Hrows _ Hx) as [Fx Lx]. destruct (Hrows _ Hy) as [Fy Ly].
    unfold same_topology.
    now rewrite (levels_flat_row _ 0 Fx), (levels_flat_row _ 0 Fy), Lx, Ly. }
  apply Hb in Hsame. subst b.
  unfold reduce_fold. cbn [map iter_ bind getitem nth_error].
  unfold Tuple_apply. cbn [Tuple_items bind].
  rewrite apply_tuple_blank. cbn [bind blank].
  inversion Hrows as [|? ? [F0 _] _]; subst.
  rewrite (blank_flat _ F0).
  change (Tuple r0 :: map Tuple rest) with (map Tuple (r0 :: rest)).
  rewrite foldM_append_rows. cbn [fold_left].
  now rewrite snoc_cols_empty, fold_snoc_cols.
Qed.

(** X13: [agg_list] of rows of leaves that are all as long as the first:
    the aggregate holds one list for every column, with the elements of
    that column in the order of the rows; a function applied to the
    aggregate is applied to these lists, from left to right, by the
    generator expression of [apply]. *)
Theorem agg_list_rows (r0 : list value) (rest : list (list value)) :
  Forall (fun r => is_flat (Tuple r) = true
                   /\ List.length r = List.length r0) (r0 :: rest) ->
  agg_list (Tuple (map Tuple (r0 :: rest)))
  = Ok (Tuple (map PyList (zip_star (r0 :: rest))))
  /\ forall f : value -> result value,
       (agg <- agg_list (Tuple (map Tuple (r0 :: rest))) ;; apply_tuple f agg)
       = (ys <- in_generator
                  (mapM (fun col => f (PyList col)) (zip_star (r0 :: rest))) ;;
          Ok (Tuple ys)).
Proof.
  intros Hrows. pose proof (agg_list_rows_eq Hrows) as E.
  split; [exact E|].
  intros f. rewrite E. cbn [bind apply_tuple]. now rewrite mapM_apply_lists.
Qed.

Lemma zip_cons_cols_length {A : Type} (n : nat) (r : list A) :
  forall rs : list (list A),
    Forall (fun c => List.length c = n) rs ->
    Forall (fun c => List.length c = S n) (zip_cons r rs).
Proof.
  induction r as [|x r IH]; intros rs H; [constructor|].
  destruct rs as [|t rs]; [constructor|].
  inversion H; subst. cbn [zip_cons]. constructor; [reflexivity|].
  now apply IH.
Qed.

Lemma zip_star_cols_length {A : Type} (rows : list (list A)) :
  Forall (fun c => List.length c = List.length rows) (zip_star rows).
Proof.
  induction rows as [|r rest IH]; [constructor|].
  cbn [zip_star]. destruct rest as [|r' rest'].
  - apply Forall_forall. intros c Hc. apply in_map_iff in Hc.
    now destruct Hc as (x & <- & _).
  - now apply zip_cons_cols_length.
Qed.

Lemma zip_star_singletons {A : Type} (r0 : list A) :
  r0 <> [] -> zip_star (map (fun x => [x]) r0) = [r0].
Proof.
  induction r0 as [|x r IH]; [congruence|]. intros _.
  destruct r as [|y r]; [reflexivity|].
  change (zip_star (map (fun x => [x]) (x :: y :: r)))
    with (zip_cons [x] (zip_star (map (fun x => [x]) (y :: r)))).
  rewrite IH by discriminate. reflexivity.
Qed.

(** Transposing twice gives the rows back, when they are all as long as
    the first and not empty. *)
Lemma zip_star_involutive (rs : list (list value)) :
  forall r0 : list value,
    r0 <> [] ->
    Forall (fun r => List.length r = List.length r0) rs ->
    zip_star (zip_star (r0 :: rs)) = r0 :: rs.
Proof.
  induction rs as [|r rs IH] using rev_ind; intros r0 Hne Hlen.
  - cbn [zip_star]. now apply zip_star_singletons.
  - apply Forall_app in Hlen. destruct Hlen as [Hrs Hr].
    inversion Hr as [|? ? Hr' _]; subst.
    assert (Hcols : List.length (zip_star (r0 :: rs)) = List.length r0).
    { apply zip_star_length; [discriminate|]. now constructor. }
    rewrite zip_star_snoc_row.
    rewrite (@zip_star_snoc (List.length (r0 :: rs))).
    + rewrite (IH r0 Hne Hrs). reflexivity.
    + intros E. rewrite E in Hcols. cbn in Hcols.
      destruct r0; [congruence | discriminate Hcols].
    + apply zip_star_cols_length.
    + now rewrite Hcols.
Qed.

(** X14: [agg_list] undoes [split_agg] on a flat aggregate of lists that are all
    as long as the first and not empty, over values that are neither lists
    nor tuples. *)
Theorem split_agg_agg_list_flat (c0 : list value) (cols : list (list value)) :
  c0 <> [] ->
  Forall (fun c => List.length c = List.length c0
                   /\ Forall (fun v => is_convertible v = false) c)
         (c0 :: cols) ->
  (rows <- split_agg (Tuple (map PyList (c0 :: cols))) ;; agg_list rows)
  = Ok (Tuple (map PyList (c0 :: cols))).
Proof.
  intros Hne Hcols.
  cbn [split_agg]. rewrite mapM_split_agg_lists. cbn [in_generator bind].
  rewrite mapM_iter_lists. cbn [bind].
  unfold Tuple_tuplefy. cbn [Tuple_items bind].
  rewrite tuplefy_default. cbn [tuplefy_sub bind]. rewrite map_map.
  assert (Hlen : Forall (fun c => List.length c = List.length c0) cols).
  { inversion Hcols as [|? ? _ H]; subst.
    eapply Forall_impl; [|exact H]. now intros c [Hc _]. }
  assert (Hrows : forall row, In row (zip_star (c0 :: cols)) ->
                              map tuplefy_sub row = row
                              /\ is_flat (Tuple row) = true).
  { intros row Hrow. rewrite Forall_forall in Hcols.
    assert (Hv : forall v, In v row -> is_convertible v = false).
    { intros v Hv. destruct (zip_star_In _ _ _ Hrow Hv) as (col & Hcol & Hin).
      destruct (Hcols col Hcol) as [_ Hall].
      rewrite Forall_forall in Hall. now apply Hall. }
    split.
    - rewrite <- (map_id row) at 2. apply map_ext_in.
      intros v Hin. apply tuplefy_sub_leaf. now apply Hv.
    - cbn [is_flat]. apply forallb_forall. intros v Hin.
      apply negb_true_iff. apply is_convertible_container. now apply Hv. }
  assert (E : map (fun row => tuplefy_sub (PyTuple row)) (zip_star (c0 :: cols))
              = map Tuple (zip_star (c0 :: cols))).
  { apply map_ext_in. intros row Hrow. cbn [tuplefy_sub].
    now rewrite (proj1 (Hrows row Hrow)). }
  rewrite E.
  assert (Hn : List.length (zip_star (c0 :: cols)) = List.length c0).
  { apply zip_star_length; [discriminate|]. now constructor. }
  destruct (zip_star (c0 :: cols)) as [|r0 rest] eqn:Ez.
  { destruct c0; [congruence | discriminate Hn]. }
  rewrite agg_list_rows_eq.
  - rewrite <- Ez. now rewrite zip_star_involutive.
  - pose proof (zip_star_cols_length (c0 :: cols)) as Hc.
    rewrite Ez in Hc. rewrite Forall_forall in Hc.
    apply Forall_forall. intros row Hrow. split.
    + apply Hrows. exact Hrow.
    + rewrite (Hc row Hrow). symmetry. apply Hc. now left.
Qed.
End AggRows.

Lemma agg_list_rows_witness :
  agg_list (B := Toy.backend)
    (Tuple [Tuple [Toy.a1; PyInt 1]; Tuple [Toy.b1; PyInt 2]])
  = Ok (Tuple [PyList [Toy.a1; Toy.b1]; PyList [PyInt 1; PyInt 2]]).
Proof.
  apply (@agg_list_rows Toy.backend [Toy.a1; PyInt 1] [[Toy.b1; PyInt 2]]).
  repeat constructor.
Defined.

Lemma split_agg_agg_list_flat_witness :
  (rows <- split_agg (B := Toy.backend)
             (Tuple [PyList [Toy.a1; Toy.b1]; PyList [PyInt 1; PyInt 2]]) ;;
   agg_list (B := Toy.backend) rows)
  = Ok (Tuple [PyList [Toy.a1; Toy.b1]; PyList [PyInt 1; PyInt 2]]).
Proof.
  apply (@split_agg_agg_list_flat Toy.backend [Toy.a1; Toy.b1]
                                  [[PyInt 1; PyInt 2]]).
  - discriminate.
  - repeat constructor.
Defined.

(* ===================================================================== *)
(** * Further properties of [pyth/base.py] *)
(* ===================================================================== *)

(** ** [_nested_unpack_class] *)

Section UnpackFacts.
Context {B : Backend}.

Lemma unpack_first_unfold (v : value) :
  unpack_first v
  = if is_list_or_tuple v
    then first <- getitem v 0 ;; unpack_first first
    else Ok (type_ v).
Proof.
  destruct v as [xs|xs|xs| | | | | | | |]; try reflexivity;
    destruct xs; reflexivity.
Qed.

Lemma unpack_first_not_sequence (v : value) :
  forall ty, unpack_first v = Ok ty ->
             in_types ty [TyList; TyBuiltinTuple] = false.
Proof.
  induction v as [xs IH|xs IH|xs IH| | | | | | | |] using value_ind_nested;
    intros ty Ht; try (injection Ht as <-; reflexivity);
    cbn [unpack_first] in Ht;
    (destruct xs as [|x r]; [discriminate Ht|]);
    inversion IH as [|? ? Hx _]; subst; now apply Hx.
Qed.

End UnpackFacts.


(** ** [fit_dataloader] when nothing raises and no hook gives a signal *)

Section CalmRun.
Variables World Data : Type.
Implicit Types s : fit_state World Data.

Lemma after_after s (w w' : World) (l l' : list (event Data)) :
  after (after s w l) w' l' = after s w' (l ++ l').
Proof. unfold after. cbn. now rewrite app_assoc. Qed.

Lemma runs_events {A : Type} (m : M World Data A) s (a : A)
      (l l' : list (event Data)) :
  l = l' -> runs m s a l -> runs m s a l'.
Proof. now intros ->. Qed.

Lemma runs_ret {A : Type} s (a : A) : runs (ret a) s a [].
Proof.
  exists (world s). unfold ret, after. rewrite app_nil_r. now destruct s.
Qed.

Lemma runs_bind {A C : Type} (m : M World Data A) (k : A -> M World Data C)
      s (a : A) (c : C) (l l' : list (event Data)) :
  runs m s a l ->
  (forall w, runs (k a) (after s w l) c l') ->
  runs (bindM m k) s c (l ++ l').
Proof.
  intros [w1 E1] Hk. destruct (Hk w1) as [w2 E2]. exists w2.
  unfold bindM. rewrite E1, E2. now rewrite after_after.
Qed.

Lemma runs_call {A : Type} (e : event Data) (op : World -> result A * World)
      s (a : A) :
  (forall w, exists w', op w = (Ok a, w')) -> runs (call e op) s a [e].
Proof.
  intros H. destruct (H (world s)) as [w' E]. exists w'.
  unfold call, bindM, emit. cbn. now rewrite E.
Qed.

Lemma runs_apply_callbacks (h : hook) (cbs : list (Callback World)) :
  Forall (@calm_callback World) cbs ->
  forall s, runs (apply_callbacks h cbs) s false (hook_calls h cbs).
Proof.
  induction 1 as [|c rest Hc _ IH]; intros s; cbn [apply_callbacks hook_calls map].
  - apply runs_ret.
  - eapply runs_events; [|eapply runs_bind; [apply runs_call; exact (Hc h)|]].
    2: { intros w. eapply runs_bind; [apply IH|].
         intros w'. apply runs_ret. }
    cbn [app]. now rewrite app_nil_r.
Qed.

Lemma runs_callbacks_hook (h : hook) (reg : list (Callback World)) s :
  callbacks s = reg ->
  Forall (@calm_callback World) reg ->
  runs (callbacks_hook h) s false (hook_calls h reg ++ [EvReturn h false]).
Proof.
  intros <- Hreg. unfold callbacks_hook.
  eapply runs_bind; [exact (runs_apply_callbacks h Hreg s)|].
  intros w. cbv beta.
  eapply runs_events; [|eapply runs_bind].
  - apply app_nil_r.
  - eexists. reflexivity.
  - intros w'. apply runs_ret.
Qed.

Variable self : Model World Data.
Variable reg : list (Callback World).
Hypothesis self_calm : calm_model self.
Hypothesis reg_calm : Forall (@calm_callback World) reg.

Lemma runs_fit_batch (data : Data) s :
  callbacks s = reg -> runs (fit_batch self data) s tt (batch_events reg data).
Proof.
  intros Hs. destruct self_calm as (Hz & Hc & Hb & Ho).
  unfold fit_batch, batch_events.
  eapply runs_events; [|eapply runs_bind; [apply (runs_call _ _ _ Hz)|]].
  2: { intros w1. eapply runs_bind; [apply (runs_call _ _ _ (Hc data))|].
       intros w2. eapply runs_bind; [apply (runs_call _ _ _ Hb)|].
       intros w3. eapply runs_bind;
         [apply runs_callbacks_hook; [exact Hs | exact reg_calm]|].
       intros w4. cbv beta iota.
       eapply runs_bind; [apply (runs_call _ _ _ Ho)|].
       intros w5. eapply runs_bind;
         [apply runs_callbacks_hook; [exact Hs | exact reg_calm]|].
       intros w6. apply runs_ret. }
  cbn [app]. rewrite app_nil_r. rewrite <- !app_assoc. reflexivity.
Qed.

Lemma runs_fit_batches (dataloader : list Data) :
  forall s, callbacks s = reg ->
            runs (fit_batches self dataloader) s tt
                 (flat_map (batch_events reg) dataloader).
Proof.
  induction dataloader as [|data rest IH]; intros s Hs;
    cbn [fit_batches flat_map].
  - apply runs_ret.
  - eapply runs_bind; [now apply runs_fit_batch|].
    intros w. now apply IH.
Qed.

Lemma runs_fit_epochs (dataloader : list Data) (epochs : nat) :
  forall s, callbacks s = reg ->
            runs (fit_epochs self dataloader epochs) s tt
                 (List.concat (repeat (epoch_events reg dataloader) epochs)).
Proof.
  induction epochs as [|n IH]; intros s Hs;
    cbn [fit_epochs repeat List.concat].
  - apply runs_ret.
  - unfold epoch_events at 1.
    eapply runs_events; [|eapply runs_bind; [now apply runs_fit_batches|]].
    2: { intros w1. eapply runs_bind;
           [apply runs_callbacks_hook; [exact Hs | exact reg_calm]|].
         intros w2. cbv beta iota. now apply IH. }
    rewrite <- !app_assoc. reflexivity.
Qed.

Lemma optim_steps_hook_calls (h : hook) (cbs : list (Callback World)) :
  filter is_optim_step (hook_calls (Data := Data) h cbs) = [].
Proof. induction cbs as [|c r IH]; [reflexivity | exact IH]. Qed.

Lemma optim_steps_batches (dataloader : list Data) :
  List.length (filter is_optim_step (flat_map (batch_events reg) dataloader))
  = List.length dataloader.
Proof.
  induction dataloader as [|d r IH]; [reflexivity|].
  cbn [flat_map]. rewrite filter_app, length_app, IH.
  unfold batch_events. rewrite !filter_app, !optim_steps_hook_calls.
  reflexivity.
Qed.

Lemma optim_steps_epochs (dataloader : list Data) (epochs : nat) :
  List.length (filter is_optim_step
                 (List.concat (repeat (epoch_events reg dataloader) epochs)))
  = (epochs * List.length dataloader)%nat.
Proof.
  induction epochs as [|n IH]; [reflexivity|].
  cbn [repeat List.concat]. rewrite filter_app, length_app, IH.
  unfold epoch_events. rewrite !filter_app, optim_steps_hook_calls, length_app.
  rewrite optim_steps_batches. cbn. lia.
Qed.
End CalmRun.

(** X16: When no operation of the model raises and no hook raises or gives a
    stop signal, [fit_dataloader] returns the log; the events are those of
    the setup and of [on_fit_start], followed for each epoch by those of
    every batch in order and of [on_epoch_end]; the optimizer steps once
    for every batch of every epoch (not at all for [epochs <= 0]); and the
    model is left with the callbacks, batch count and verbosity of the
    setup. *)
Theorem fit_dataloader_calm_run (World Data : Type) (self : Model World Data)
        (dataloader : list Data) (epochs : Z)
        (cbs : option (list (Callback World))) (verbose : bool)
        (s : fit_state World Data) :
  let reg := [train_loss self]
               ++ match cbs with None => [] | Some l => l end
               ++ [log self] in
  calm_model self ->
  Forall (@calm_callback World) reg ->
  (exists w',
      fit_dataloader self dataloader epochs cbs verbose s
      = (Ok (log self),
         MkState w' reg (Some (List.length dataloader)) verbose
                 (trace s ++ run_events reg dataloader (Z.to_nat epochs))))
  /\ List.length (filter is_optim_step
                    (run_events reg dataloader (Z.to_nat epochs)))
     = (Z.to_nat epochs * List.length dataloader)%nat.
Proof.
  intros reg Hself Hreg. split.
  - set (s0 := MkState (world s) reg (Some (List.length dataloader)) verbose
                       (trace s)).
    assert (H : runs
                  (bindM (callbacks_hook GiveModel)
                     (fun _ => bindM (callbacks_hook OnFitStart)
                       (fun _ => bindM (fit_epochs self dataloader
                                                   (Z.to_nat epochs))
                         (fun _ => ret (log self)))))
                  s0 (log self)
                  (run_events reg dataloader (Z.to_nat epochs))).
    { unfold run_events.
      eapply runs_events;
        [|eapply runs_bind;
          [apply (@runs_callbacks_hook _ _ GiveModel reg); [reflexivity | exact Hreg]|]].
      2: { intros w1. eapply runs_bind;
             [apply (@runs_callbacks_hook _ _ OnFitStart reg); [reflexivity | exact Hreg]|].
           intros w2. eapply runs_bind;
             [apply (runs_fit_epochs Hself Hreg); reflexivity|].
           intros w3. apply runs_ret. }
      rewrite app_nil_r. rewrite <- !app_assoc. reflexivity. }
    destruct H as [w' E]. exists w'.
    unfold fit_dataloader, _setup_train_info.
    unfold bindM in *. fold reg. fold s0.
    destruct (callbacks_hook GiveModel s0) as [[stop|e] s1];
      [|discriminate E].
    unfold ret at 1. exact E.
  - unfold run_events. rewrite !filter_app, !optim_steps_hook_calls.
    cbn [filter is_optim_step app]. apply optim_steps_epochs.
Qed.

Lemma fit_dataloader_calm_run_witness :
  fst (fit_dataloader Toy.model [7%nat; 8%nat] 2
         (Some [Toy.noop "Callback" 2]) true Toy.start)
  = Ok (log Toy.model)
  /\ world (snd (fit_dataloader Toy.model [7%nat; 8%nat] 2
                   (Some [Toy.noop "Callback" 2]) true Toy.start))
     = 4%nat.
Proof.
  assert (Hm : calm_model Toy.model)
    by (repeat split; intros; eexists; reflexivity).
  assert (Hr : Forall (@calm_callback nat)
                 ([train_loss Toy.model] ++ [Toy.noop "Callback" 2]
                    ++ [log Toy.model]))
    by (repeat constructor; intros h w; eexists; reflexivity).
  destruct (fit_dataloader_calm_run [7%nat; 8%nat] 2
              (Some [Toy.noop "Callback" 2]) true Toy.start Hm Hr)
    as [[w' E] _].
  split; [now rewrite E|].
  remember (fit_dataloader Toy.model [7%nat; 8%nat] 2
              (Some [Toy.noop "Callback" 2]) true Toy.start) as run eqn:Erun.
  clear E. vm_compute in Erun. now subst run.
Defined.

(** ** [fit_dataloader]: the optimizer steps only after [before_step] *)

Section StepGuard.
Variables World Data : Type.
Variable self : Model World Data.

(** X17: In every run of [fit_dataloader], whether it returns, is stopped
    or raises, each step of the optimizer comes right after a call of
    [before_step] that returned no stop signal. *)
Theorem optimizer_step_guarded (dataloader : list Data) (epochs : Z)
        (cbs : option (list (Callback World))) (verbose : bool)
        (s s' : fit_state World Data) (r : result (Callback World)) :
  fit_dataloader self dataloader epochs cbs verbose s = (r, s') ->
  exists evs : list (event Data),
    trace s' = trace s ++ evs
    /\ forall pre post,
         evs = pre ++ EvOptimStep :: post ->
         exists pre', pre = pre' ++ [EvReturn BeforeStep false].
Proof.
  intros H.
  assert (K : keeps_guard (fit_dataloader self dataloader epochs cbs verbose)).
  { unfold fit_dataloader, _setup_train_info.
    apply keeps_guard_bind; [|intros _].
    - apply keeps_guard_bind; [|intros _].
      + intros s0 r0 s0' [= <- <-]. exists []. cbn [trace].
        split; [now rewrite app_nil_r|].
        apply stepless_step_inv. intros e [].
      + apply keeps_guard_bind; [apply keeps_guard_callbacks_hook | intros _].
        apply keeps_guard_ret.
    - apply keeps_guard_bind; [apply keeps_guard_callbacks_hook | intros _].
      apply keeps_guard_bind; [apply keeps_guard_fit_epochs | intros _].
      apply keeps_guard_ret. }
  destruct (K _ _ _ H) as (evs & Ht & [G _]). now exists evs.
Qed.
End StepGuard.

Lemma optimizer_step_guarded_witness :
  exists evs : list (event nat),
    trace (snd (fit_dataloader Toy.model [7%nat; 8%nat] 2
                  (Some [Toy.stop_at OnEpochEnd "EarlyStopping" 5]) true
                  Toy.start))
    = trace Toy.start ++ evs
    /\ forall pre post,
         evs = pre ++ EvOptimStep :: post ->
         exists pre', pre = pre' ++ [EvReturn BeforeStep false].
Proof.
  apply (@optimizer_step_guarded nat nat Toy.model [7%nat; 8%nat] 2
           (Some [Toy.stop_at OnEpochEnd "EarlyStopping" 5]) true Toy.start
           _ (fst (fit_dataloader Toy.model [7%nat; 8%nat] 2
                     (Some [Toy.stop_at OnEpochEnd "EarlyStopping" 5]) true
                     Toy.start))).
  apply surjective_pairing.
Defined.

(** ** [numpy_to_tensor] *)

Section NumpyToTensorFacts.
Context {B : Backend}.
Variable from_numpy_float : value -> result value.

Lemma only_lists_leaf (y : value) :
  is_list_or_tuple y = false -> only_lists y = true /\ list_leaves y = [y].
Proof. destruct y; cbn; try discriminate; now split. Qed.

(** X18: [numpy_to_tensor] of [pyth/base.py] gives a list for every list and
    every builtin tuple, so that no tuple is left; it converts the leaves in
    order, reading through lists and tuples but not through a Tuple. The
    conversion is taken to give no list and no tuple. *)
Theorem numpy_to_tensor_lists (x : value) :
  forall r : value,
    numpy_to_tensor from_numpy_float x = Ok r ->
    (forall v y, In v (list_leaves x) -> from_numpy_float v = Ok y ->
                 is_list_or_tuple y = false) ->
    only_lists r = true
    /\ mapM from_numpy_float (list_leaves x) = Ok (list_leaves r)
    /\ (is_list_or_tuple x = true -> type_ r = TyList).
Proof.
  assert (Hleaf : forall v r : value,
             is_list_or_tuple v = false ->
             numpy_to_tensor from_numpy_float v = from_numpy_float v)
    by (intros v r Hv; destruct v; try reflexivity; discriminate Hv).
  assert (Hseq : forall xs : list value,
    Forall (fun x =>
      forall r : value,
        numpy_to_tensor from_numpy_float x = Ok r ->
        (forall v y, In v (list_leaves x) -> from_numpy_float v = Ok y ->
                     is_list_or_tuple y = false) ->
        only_lists r = true
        /\ mapM from_numpy_float (list_leaves x) = Ok (list_leaves r)
        /\ (is_list_or_tuple x = true -> type_ r = TyList)) xs ->
    forall ys : list value,
      mapM (numpy_to_tensor from_numpy_float) xs = Ok ys ->
      (forall v y, In v (flat_map list_leaves xs) -> from_numpy_float v = Ok y ->
                   is_list_or_tuple y = false) ->
      forallb only_lists ys = true
      /\ mapM from_numpy_float (flat_map list_leaves xs)
         = Ok (flat_map list_leaves ys)).
  { induction 1 as [|a l Ha _ IHl]; intros ys Hys Hk.
    - injection Hys as <-. now split.
    - cbn [mapM] in Hys.
      destruct (numpy_to_tensor from_numpy_float a) as [y|e] eqn:Ey;
        [|discriminate Hys].
      cbn [bind] in Hys.
      destruct (mapM (numpy_to_tensor from_numpy_float) l) as [ys'|e] eqn:El;
        [|discriminate Hys].
      injection Hys as <-. cbn [flat_map] in *.
      destruct (Ha y eq_refl) as (H1 & H2 & _).
      { intros v z Hv. apply Hk. apply in_or_app. now left. }
      destruct (IHl ys' eq_refl) as (H3 & H4).
      { intros v z Hv. apply Hk. apply in_or_app. now right. }
      cbn [forallb]. rewrite H1, H3. split; [reflexivity|].
      rewrite mapM_app, H2, H4. reflexivity. }
  induction x as [xs IH|xs IH|xs IH| | | | | | | |] using value_ind_nested;
    intros r Hr Hk;
    try (rewrite Hleaf in Hr by (exact r || reflexivity);
         cbn [list_leaves mapM] in *; rewrite Hr; cbn [bind];
         destruct (only_lists_leaf r) as [Ho Hl];
         [ eapply Hk; [left; reflexivity | exact Hr]
         | rewrite Hl; split; [exact Ho|]; split; [reflexivity|];
           intros Hx; discriminate Hx ]).
  - cbn [numpy_to_tensor] in Hr.
    destruct (mapM (numpy_to_tensor from_numpy_float) xs) as [ys|e] eqn:Ey;
      [|discriminate Hr].
    injection Hr as <-. cbn [list_leaves only_lists] in *.
    destruct (Hseq xs IH ys Ey Hk) as [H1 H2]. now repeat split.
  - cbn [numpy_to_tensor] in Hr.
    destruct (mapM (numpy_to_tensor from_numpy_float) xs) as [ys|e] eqn:Ey;
      [|discriminate Hr].
    injection Hr as <-. cbn [list_leaves only_lists] in *.
    destruct (Hseq xs IH ys Ey Hk) as [H1 H2]. now repeat split.
Qed.
End NumpyToTensorFacts.

Lemma numpy_to_tensor_lists_witness :
  numpy_to_tensor (fun x => match x with
                            | Ndarray a => Ok (Tensor a)
                            | _ => Raise (Exn TypeError "expected np.ndarray")
                            end)
                  (PyTuple [Toy.a1; PyList [Toy.b1]])
  = Ok (PyList [Tensor (MkArray "int64" [2; 2] [1; 2; 3; 4]);
                PyList [Tensor (MkArray "int64" [1; 2] [5; 6])]])
  /\ only_lists (PyList [Tensor (MkArray "int64" [2; 2] [1; 2; 3; 4]);
                         PyList [Tensor (MkArray "int64" [1; 2] [5; 6])]])
     = true.
Proof.
  set (conv := fun x => match x with
                        | Ndarray a => Ok (Tensor a)
                        | _ => Raise (Exn TypeError "expected np.ndarray")
                        end).
  assert (E : numpy_to_tensor conv (PyTuple [Toy.a1; PyList [Toy.b1]])
              = Ok (PyList [Tensor (MkArray "int64" [2; 2] [1; 2; 3; 4]);
                            PyList [Tensor (MkArray "int64" [1; 2] [5; 6])]]))
    by reflexivity.
  split; [exact E|].
  apply (numpy_to_tensor_lists conv _ E).
  intros v y [<-|[<-|[]]] [= <-]; reflexivity.
Defined.
